(** * Didact: a fiber reconciler with hooks (src/src/didact-demo.js)

    A shallow embedding of the most evolved snapshot of the demo (the first
    one in the file: element construction, the DOM adapter, the reconciler,
    the idle-time work loop, the commit phase and [useState]), followed by
    the properties of the specification that were checked against it.

    Conventions of the embedding:
    - JS objects that are mutated and shared (fibers, hooks) live in a store
      and are named by their index (a reference); allocation appends.
    - [None] in a field stands for [null]/[undefined]; the code only ever
      tests such fields for truthiness or with [!= null].
    - A computation that throws (a [TypeError] on a missing object) or that
      never ends (a loop over a cyclic chain) has result [None].
    - The browser is a trace: every call made on [document] or on a DOM node
      is appended to [domLog]; DOM nodes are numbered. *)

From Stdlib Require Import ZArith String Ascii List Bool Lia.
From stdpp Require Import base option list.
Import ListNotations.

Local Open Scope string_scope.
Local Open Scope list_scope.

(** ** JS values found in props and hook states *)

Inductive Val : Type :=
| VUndef
| VNull
| VBool (b : bool)
| VNum (z : Z)
| VNaN
| VStr (s : string)
| VFun (r : nat)      (* a function value, known by its identity *)
| VObj (r : nat)      (* any other object, known by its identity *)
| VBuiltin (name : string).
                      (* the property [name] of [Object.prototype] *)

(** [a === b].  [NaN] is the one value that is not equal to itself. *)
Definition strict_eq (a b : Val) : bool :=
  match a, b with
  | VUndef, VUndef => true
  | VNull, VNull => true
  | VBool x, VBool y => Bool.eqb x y
  | VNum x, VNum y => Z.eqb x y
  | VStr x, VStr y => String.eqb x y
  | VFun x, VFun y => Nat.eqb x y
  | VObj x, VObj y => Nat.eqb x y
  | VBuiltin x, VBuiltin y => String.eqb x y
  | _, _ => false
  end.

Definition truthy (v : Val) : bool :=
  match v with
  | VUndef | VNull | VNaN => false
  | VBool b => b
  | VNum z => negb (Z.eqb z 0)
  | VStr s => negb (String.eqb s "")
  | VFun _ | VObj _ | VBuiltin _ => true
  end.

(** [typeof v === "object"].  Of the properties of [Object.prototype] only
    [__proto__] is an object, the others are functions. *)
Definition typeof_object (v : Val) : bool :=
  match v with
  | VNull | VObj _ => true
  | VBuiltin name => String.eqb name "__proto__"
  | _ => false
  end.

(** ** Element model *)

(** The [type] of an element: a host tag or a function component, the latter
    known by its identity (an index in the table of components). *)
Inductive EType : Type :=
| THost (tag : string)
| TFun (f : nat).

(** [a == b] on the [type] field of elements and fibers; [None] is
    [undefined].  A tag is taken never to coincide with the source text of a
    component, which is what [==] would compare a string and a function by. *)
Definition type_eq (a b : option EType) : bool :=
  match a, b with
  | None, None => true
  | Some (THost x), Some (THost y) => String.eqb x y
  | Some (TFun x), Some (TFun y) => Nat.eqb x y
  | _, _ => false
  end.

(** What can sit in a [children] array: an element object, an array, or any
    other JS value.  [Props] is an object literal: its own keys other than
    [children] in [Object.keys] order, and the [children] key when present. *)
#[local] Unset Elimination Schemes.
Inductive Child : Type :=
| Elem (ty : EType) (ps : Props)
| Arr (items : list Child)
| Prim (v : Val)
with Props : Type :=
| mkProps (attrs : list (string * Val)) (children : option (list Child)).
#[local] Set Elimination Schemes.

Definition attrs (p : Props) : list (string * Val) :=
  match p with mkProps a _ => a end.
Definition children (p : Props) : option (list Child) :=
  match p with mkProps _ c => c end.

(** [{}] *)
Definition emptyProps : Props := mkProps [] None.

(** [element.type] and [element.props] of a truthy value *)
Definition elem_type (c : Child) : option EType :=
  match c with Elem t _ => Some t | _ => None end.
Definition elem_props (c : Child) : option Props :=
  match c with Elem _ p => Some p | _ => None end.

(** truthiness of an entry, as tested by [element && ...] *)
Definition child_truthy (c : Child) : bool :=
  match c with
  | Elem _ _ | Arr _ => true
  | Prim v => truthy v
  end.

(** [typeof child === "object"] *)
Definition child_is_object (c : Child) : bool :=
  match c with
  | Elem _ _ | Arr _ => true
  | Prim v => typeof_object v
  end.

Definition createTextElement (text : Val) : Child :=
  Elem (THost "TEXT_ELEMENT") (mkProps [("nodeValue", text)] (Some [])).

Definition coerce_child (child : Child) : Child :=
  match child with
  | Prim v => if typeof_object v then child else createTextElement v
  | _ => child
  end.

(** [createElement(type, props, ...children)]; [props] is [None] for [null].
    The spread copies the keys of [props]; [children] is then overwritten. *)
Definition createElement (ty : EType) (props : option Props) (cs : list Child) : Child :=
  Elem ty (mkProps (from_option attrs [] props) (Some (map coerce_child cs))).

(** ** DOM adapter *)

(** DOM nodes are numbered. *)
Abbreviation DomNode := nat (only parsing).

Inductive DomOp : Type :=
| CreateTextNode (n : DomNode)
| CreateElement (tag : string) (n : DomNode)
| SetProperty (n : DomNode) (name : string) (v : Val)
| AddEventListener (n : DomNode) (ev : string) (handler : Val)
| RemoveEventListener (n : DomNode) (ev : string) (handler : Val)
| AppendChild (parent child : DomNode)
| RemoveChild (parent child : DomNode).

(** [Object.keys(props)] *)
Definition Object_keys (p : Props) : list string :=
  map fst (attrs p) ++ match children p with Some _ => ["children"] | None => [] end.

(** The names of the properties that an object literal inherits from
    [Object.prototype]. *)
Definition Object_prototype_keys : list string :=
  ["constructor"; "__defineGetter__"; "__defineSetter__"; "hasOwnProperty";
   "__lookupGetter__"; "__lookupSetter__"; "isPrototypeOf"; "propertyIsEnumerable";
   "toString"; "valueOf"; "__proto__"; "toLocaleString"].

Definition inherited (key : string) : bool :=
  existsb (String.eqb key) Object_prototype_keys.

(** [Object.keys(props).includes(key)]: [key] is an own key of [props]. *)
Definition has_own (p : Props) (key : string) : bool :=
  existsb (String.eqb key) (Object_keys p).

(** [key in props]: an own key, or one inherited from [Object.prototype]. *)
Definition has_key (p : Props) (key : string) : bool :=
  has_own p key || inherited key.

(** The value of the first entry of [key], [undefined] without one. *)
Fixpoint assoc (l : list (string * Val)) (key : string) : Val :=
  match l with
  | [] => VUndef
  | (k, v) :: l' => if String.eqb key k then v else assoc l' key
  end.

(** [props[key]] for a key other than [children]: the value under the own
    key, else the property inherited from [Object.prototype], else
    [undefined]. *)
Definition get (p : Props) (key : string) : Val :=
  if existsb (String.eqb key) (map fst (attrs p)) then assoc (attrs p) key
  else if inherited key then VBuiltin key
  else VUndef.

Definition lower_ascii (c : ascii) : ascii :=
  let n := nat_of_ascii c in
  if (65 <=? n)%nat && (n <=? 90)%nat then ascii_of_nat (n + 32) else c.

(** [s.toLowerCase()] on ASCII text *)
Fixpoint toLowerCase (s : string) : string :=
  match s with
  | EmptyString => EmptyString
  | String c s' => String (lower_ascii c) (toLowerCase s')
  end.

(** [s.substring(n)] *)
Fixpoint substring_from (n : nat) (s : string) : string :=
  match n, s with
  | O, _ => s
  | S n', String _ s' => substring_from n' s'
  | S _, EmptyString => EmptyString
  end.

(** [s.startsWith(p)] *)
Fixpoint startsWith (s p : string) {struct p} : bool :=
  match p, s with
  | EmptyString, _ => true
  | String a p', String b s' => Ascii.eqb a b && startsWith s' p'
  | String _ _, EmptyString => false
  end.

Definition isEvent (key : string) : bool := startsWith key "on".
Definition isProperty (key : string) : bool :=
  negb (String.eqb key "children") && negb (isEvent key).
Definition isNew (prev next : Props) (key : string) : bool :=
  negb (strict_eq (get prev key) (get next key)).
Definition isGone (prev next : Props) (key : string) : bool :=
  negb (has_key next key).

Definition eventType (name : string) : string :=
  substring_from 2 (toLowerCase name).

(** The four passes of [updateDom], as the calls they make on [dom]. *)
Definition removedListeners (dom : DomNode) (prevProps nextProps : Props) : list DomOp :=
  map (fun name => RemoveEventListener dom (eventType name) (get prevProps name))
    (List.filter (fun key => negb (has_key nextProps key) || isNew prevProps nextProps key)
       (List.filter isEvent (Object_keys prevProps))).

Definition clearedProperties (dom : DomNode) (prevProps nextProps : Props) : list DomOp :=
  map (fun name => SetProperty dom name (VStr ""))
    (List.filter (isGone prevProps nextProps)
       (List.filter isProperty (Object_keys prevProps))).

Definition assignedProperties (dom : DomNode) (prevProps nextProps : Props) : list DomOp :=
  map (fun name => SetProperty dom name (get nextProps name))
    (List.filter (isNew prevProps nextProps)
       (List.filter isProperty (Object_keys nextProps))).

Definition addedListeners (dom : DomNode) (prevProps nextProps : Props) : list DomOp :=
  map (fun name => AddEventListener dom (eventType name) (get nextProps name))
    (List.filter (isNew prevProps nextProps)
       (List.filter isEvent (Object_keys nextProps))).

Definition updateDom (dom : DomNode) (prevProps nextProps : Props) : list DomOp :=
  removedListeners dom prevProps nextProps
  ++ clearedProperties dom prevProps nextProps
  ++ assignedProperties dom prevProps nextProps
  ++ addedListeners dom prevProps nextProps.

(** ** Fibers, hooks and the scheduler's globals *)

Inductive EffectTag : Type := PLACEMENT | UPDATE | DELETION.

(** References to fiber and hook objects are positions in their stores. *)
Abbreviation FiberRef := nat (only parsing).
Abbreviation HookRef := nat (only parsing).

Record Fiber : Type := mkFiber {
  type : option EType;
  props : option Props;
  dom : option DomNode;
  parent : option FiberRef;
  child : option FiberRef;
  sibling : option FiberRef;
  alternate : option FiberRef;
  effectTag : option EffectTag;
  hooks : option (list HookRef) }.

(** An action maps the old state to the new one. *)
Definition Action := Val -> Val.

Record Hook : Type := mkHook {
  state : Val;
  queue : list Action }.

Record State : Type := mkState {
  fibers : list Fiber;                   (* the fiber objects *)
  hookStore : list Hook;                 (* the hook objects *)
  nextUnitOfWork : option FiberRef;
  currentRoot : option FiberRef;
  wipRoot : option FiberRef;
  deletions : option (list FiberRef);
  wipFiber : option FiberRef;
  hookIndex : nat;
  domCount : nat;                        (* DOM nodes created so far *)
  domLog : list DomOp }.                 (* calls made on the DOM, oldest first *)

(** The module's globals before the first [render]; DOM nodes below
    [existing] belong to the page. *)
Definition initialState (existing : nat) : State :=
  mkState [] [] None None None None None 0 existing [].

(** Field assignments on a fiber *)
Definition with_dom (d : option DomNode) (f : Fiber) : Fiber :=
  mkFiber (type f) (props f) d (parent f) (child f) (sibling f) (alternate f) (effectTag f) (hooks f).
Definition with_child (c : option FiberRef) (f : Fiber) : Fiber :=
  mkFiber (type f) (props f) (dom f) (parent f) c (sibling f) (alternate f) (effectTag f) (hooks f).
Definition with_sibling (s : option FiberRef) (f : Fiber) : Fiber :=
  mkFiber (type f) (props f) (dom f) (parent f) (child f) s (alternate f) (effectTag f) (hooks f).
Definition with_effectTag (t : option EffectTag) (f : Fiber) : Fiber :=
  mkFiber (type f) (props f) (dom f) (parent f) (child f) (sibling f) (alternate f) t (hooks f).
Definition with_hooks (h : option (list HookRef)) (f : Fiber) : Fiber :=
  mkFiber (type f) (props f) (dom f) (parent f) (child f) (sibling f) (alternate f) (effectTag f) h.

(** Assignments to the globals *)
Definition set_fibers (h : list Fiber) (s : State) : State :=
  mkState h (hookStore s) (nextUnitOfWork s) (currentRoot s) (wipRoot s) (deletions s)
    (wipFiber s) (hookIndex s) (domCount s) (domLog s).
Definition set_hookStore (h : list Hook) (s : State) : State :=
  mkState (fibers s) h (nextUnitOfWork s) (currentRoot s) (wipRoot s) (deletions s)
    (wipFiber s) (hookIndex s) (domCount s) (domLog s).
Definition set_nextUnitOfWork (n : option FiberRef) (s : State) : State :=
  mkState (fibers s) (hookStore s) n (currentRoot s) (wipRoot s) (deletions s)
    (wipFiber s) (hookIndex s) (domCount s) (domLog s).
Definition set_currentRoot (r : option FiberRef) (s : State) : State :=
  mkState (fibers s) (hookStore s) (nextUnitOfWork s) r (wipRoot s) (deletions s)
    (wipFiber s) (hookIndex s) (domCount s) (domLog s).
Definition set_wipRoot (r : option FiberRef) (s : State) : State :=
  mkState (fibers s) (hookStore s) (nextUnitOfWork s) (currentRoot s) r (deletions s)
    (wipFiber s) (hookIndex s) (domCount s) (domLog s).
Definition set_deletions (d : option (list FiberRef)) (s : State) : State :=
  mkState (fibers s) (hookStore s) (nextUnitOfWork s) (currentRoot s) (wipRoot s) d
    (wipFiber s) (hookIndex s) (domCount s) (domLog s).
Definition set_wipFiber (w : option FiberRef) (s : State) : State :=
  mkState (fibers s) (hookStore s) (nextUnitOfWork s) (currentRoot s) (wipRoot s) (deletions s)
    w (hookIndex s) (domCount s) (domLog s).
Definition set_hookIndex (i : nat) (s : State) : State :=
  mkState (fibers s) (hookStore s) (nextUnitOfWork s) (currentRoot s) (wipRoot s) (deletions s)
    (wipFiber s) i (domCount s) (domLog s).
Definition set_domCount (n : nat) (s : State) : State :=
  mkState (fibers s) (hookStore s) (nextUnitOfWork s) (currentRoot s) (wipRoot s) (deletions s)
    (wipFiber s) (hookIndex s) n (domLog s).
Definition emit (ops : list DomOp) (s : State) : State :=
  mkState (fibers s) (hookStore s) (nextUnitOfWork s) (currentRoot s) (wipRoot s) (deletions s)
    (wipFiber s) (hookIndex s) (domCount s) (domLog s ++ ops).

(** Reading a fiber object; a reference outside the store has no object. *)
Definition deref (s : State) (r : FiberRef) : option Fiber := fibers s !! r.

(** [r.field = ...]: the fiber [r] is replaced by [g] of itself. *)
Definition modify (r : FiberRef) (g : Fiber -> Fiber) (s : State) : option State :=
  _ ← deref s r;
  Some (set_fibers (alter g r (fibers s)) s).

(** A fresh fiber object literal *)
Definition alloc (f : Fiber) (s : State) : FiberRef * State :=
  (length (fibers s), set_fibers (fibers s ++ [f]) s).

(** ** Function components

    The body of a function component, as far as the library can observe it:
    a sequence of [useState] calls, each continued with the state and the
    setter it returned, ending with the value the function returns.  A
    setter is known by the hook object its closure captured. *)
Inductive Comp : Type :=
| Return (result : Child)
| UseState (initial : Val) (k : Val -> HookRef -> Comp).

(** ** Reconciler *)

(** One turn of the loop of [reconcileChildren]: the new state, with the
    next values of [oldFiber] and [prevSibling]. *)
Definition reconcile_step (wipFiber : FiberRef) (elements : list Child) (index : nat)
    (oldFiber prevSibling : option FiberRef) (s : State)
  : option (option FiberRef * option FiberRef * State) :=
  (* [element], when it is truthy *)
  let element := c ← elements !! index; if child_truthy c then Some c else None in
  old ← match oldFiber with
        | None => Some None
        | Some o => f ← deref s o; Some (Some (o, f))
        end;
  let sameType :=
    match old, element with
    | Some (_, f), Some e => type_eq (elem_type e) (type f)
    | _, _ => false
    end in
  let '(newFiber, s1) :=
    match old, element with
    | Some (o, f), Some e =>
        if sameType
        then let '(r, s') := alloc (mkFiber (type f) (elem_props e) (dom f)
                                      (Some wipFiber) None None (Some o) (Some UPDATE) None) s
             in (Some r, s')
        else let '(r, s') := alloc (mkFiber (elem_type e) (elem_props e) None
                                      (Some wipFiber) None None None (Some PLACEMENT) None) s
             in (Some r, s')
    | None, Some e =>
        let '(r, s') := alloc (mkFiber (elem_type e) (elem_props e) None
                                 (Some wipFiber) None None None (Some PLACEMENT) None) s
        in (Some r, s')
    | _, None => (None, s)
    end in
  s2 ← match old with
       | Some (o, _) =>
           if sameType then Some s1
           else s' ← modify o (with_effectTag (Some DELETION)) s1;
                ds ← deletions s';
                Some (set_deletions (Some (ds ++ [o])) s')
       | None => Some s1
       end;
  let oldFiber' := match old with Some (_, f) => sibling f | None => None end in
  s3 ← (if Nat.eqb index 0 then modify wipFiber (with_child newFiber) s2
        else match element with
             | Some _ => p ← prevSibling; modify p (with_sibling newFiber) s2
             | None => Some s2
             end);
  Some (oldFiber', newFiber, s3).

Fixpoint reconcile_loop (fuel : nat) (wipFiber : FiberRef) (elements : list Child)
    (index : nat) (oldFiber prevSibling : option FiberRef) (s : State) : option State :=
  if (index <? length elements)%nat || bool_decide (is_Some oldFiber) then
    match fuel with
    | O => None
    | S fuel' =>
        '(oldFiber', prevSibling', s') ←
          reconcile_step wipFiber elements index oldFiber prevSibling s;
        reconcile_loop fuel' wipFiber elements (S index) oldFiber' prevSibling' s'
    end
  else Some s.

Definition reconcileChildren (wipFiber : FiberRef) (elements : list Child) (s : State)
  : option State :=
  w ← deref s wipFiber;
  oldFiber ← match alternate w with
             | None => Some None
             | Some a => af ← deref s a; Some (child af)
             end;
  reconcile_loop (length elements + length (fibers s)) wipFiber elements 0 oldFiber None s.

(** ** State hook store *)

(** [useState(initial)]: the resolved state and the setter, which is known
    by the hook object it pushes actions on. *)
Definition useState (initial : Val) (s : State) : option (Val * HookRef * State) :=
  w ← wipFiber s;
  f ← deref s w;
  oldHook ← match alternate f with
            | None => Some None
            | Some a =>
                af ← deref s a;
                match hooks af with
                | None => Some None
                | Some hs =>
                    match hs !! hookIndex s with
                    | None => Some None
                    | Some r => h ← hookStore s !! r; Some (Some h)
                    end
                end
            end;
  let base := match oldHook with Some h => state h | None => initial end in
  let actions := match oldHook with Some h => queue h | None => [] end in
  let hook := mkHook (fold_left (fun st action => action st) actions base) [] in
  let r := length (hookStore s) in
  let s1 := set_hookStore (hookStore s ++ [hook]) s in
  hs ← hooks f;
  s2 ← modify w (with_hooks (Some (hs ++ [r]))) s1;
  Some (state hook, r, set_hookIndex (S (hookIndex s)) s2).

(** The setter returned by [useState], called with [action]. *)
Definition setState (hook : HookRef) (action : Action) (s : State) : option State :=
  h ← hookStore s !! hook;
  let s1 := set_hookStore (<[hook := mkHook (state h) (queue h ++ [action])]> (hookStore s)) s in
  c ← currentRoot s1;
  cf ← deref s1 c;
  let '(r, s2) := alloc (mkFiber None (props cf) (dom cf) None None None (Some c) None None) s1 in
  Some (set_deletions (Some []) (set_nextUnitOfWork (Some r) (set_wipRoot (Some r) s2))).

(** ** Mount and update entry point *)

Definition render (element : Child) (container : DomNode) (s : State) : State :=
  let '(r, s1) := alloc (mkFiber None (Some (mkProps [] (Some [element]))) (Some container)
                           None None None (currentRoot s) None None) s in
  set_nextUnitOfWork (Some r) (set_deletions (Some []) (set_wipRoot (Some r) s1)).

(** ** Work scheduler *)

(** [array.flat()] on a [children] array: one level of arrays is opened. *)
Definition flat (cs : list Child) : list Child :=
  flat_map (fun c => match c with Arr items => items | _ => [c] end) cs.

(** The names that [document.createElement] takes; on any other it throws
    an [InvalidCharacterError].  On ASCII text these are the names of XML:
    a letter, [_] or [:], followed by letters, digits, [_], [:], [-] and
    [.]. *)
Definition name_start (c : ascii) : bool :=
  let n := nat_of_ascii c in
  ((65 <=? n)%nat && (n <=? 90)%nat) || ((97 <=? n)%nat && (n <=? 122)%nat)
  || (n =? 95)%nat || (n =? 58)%nat.

Definition name_char (c : ascii) : bool :=
  let n := nat_of_ascii c in
  name_start c || ((48 <=? n)%nat && (n <=? 57)%nat) || (n =? 45)%nat || (n =? 46)%nat.

Fixpoint name_chars (s : string) : bool :=
  match s with
  | EmptyString => true
  | String c s' => name_char c && name_chars s'
  end.

Definition valid_name (s : string) : bool :=
  match s with
  | EmptyString => false
  | String c s' => name_start c && name_chars s'
  end.

(** The call that makes the node [n] for the type [t]:
    [document.createTextNode("")] for ["TEXT_ELEMENT"], else
    [document.createElement(t)], which is given the tag, the text
    ["undefined"] when there is no type, the source text of the function
    when the type is a component, and throws when this is no name, as the
    text of a function never is. *)
Definition create_call (t : option EType) (n : DomNode) : option DomOp :=
  if type_eq t (Some (THost "TEXT_ELEMENT")) then Some (CreateTextNode n)
  else match t with
       | Some (THost tag) => if valid_name tag then Some (CreateElement tag n) else None
       | Some (TFun _) => None
       | None => Some (CreateElement "undefined" n)
       end.

Definition createDom (fiber : Fiber) (s : State) : option (DomNode * State) :=
  let n := domCount s in
  create ← create_call (type fiber) n;
  p ← props fiber;
  Some (n, emit (create :: updateDom n emptyProps p) (set_domCount (S n) s)).

Definition updateHostComponent (fiber : FiberRef) (s : State) : option State :=
  f ← deref s fiber;
  s1 ← match dom f with
       | Some _ => Some s
       | None => '(n, s') ← createDom f s; modify fiber (with_dom (Some n)) s'
       end;
  p ← props f;
  cs ← children p;
  reconcileChildren fiber (flat cs) s1.

(** The walk up of [performUnitOfWork] from [nextFiber]. *)
Fixpoint next_sibling_up (fuel : nat) (s : State) (nextFiber : option FiberRef)
  : option (option FiberRef) :=
  match nextFiber with
  | None => Some None
  | Some r =>
      match fuel with
      | O => None
      | S fuel' =>
          f ← deref s r;
          match sibling f with
          | Some sib => Some (Some sib)
          | None => next_sibling_up fuel' s (parent f)
          end
      end
  end.

Section Didact.

(** The function components of the application, by identity. *)
Variable components : nat -> option Props -> Comp.

(** Runs the body of a component, serving its [useState] calls. *)
Fixpoint run_component (c : Comp) (s : State) : option (Child * State) :=
  match c with
  | Return result => Some (result, s)
  | UseState initial k =>
      '(st, setter, s') ← useState initial s;
      run_component (k st setter) s'
  end.

Definition updateFunctionComponent (fiber : FiberRef) (f : nat) (s : State)
  : option State :=
  let s1 := set_hookIndex 0 (set_wipFiber (Some fiber) s) in
  s2 ← modify fiber (with_hooks (Some [])) s1;
  fb ← deref s2 fiber;
  '(result, s3) ← run_component (components f (props fb)) s2;
  reconcileChildren fiber [result] s3.

Definition performUnitOfWork (fiber : FiberRef) (s : State)
  : option (option FiberRef * State) :=
  f ← deref s fiber;
  s1 ← match type f with
       | Some (TFun c) => updateFunctionComponent fiber c s
       | _ => updateHostComponent fiber s
       end;
  f1 ← deref s1 fiber;
  match child f1 with
  | Some c => Some (Some c, s1)
  | None =>
      next ← next_sibling_up (S (length (fibers s1))) s1 (Some fiber);
      Some (next, s1)
  end.

(** ** Commit phase *)

(** The loop of [commitWork] that finds the fiber owning the DOM parent. *)
Fixpoint dom_parent (fuel : nat) (s : State) (domParentFiber : option FiberRef)
  : option Fiber :=
  match fuel with
  | O => None
  | S fuel' =>
      r ← domParentFiber;
      f ← deref s r;
      match dom f with
      | Some _ => Some f
      | None => dom_parent fuel' s (parent f)
      end
  end.

(** [domParent.appendChild(dom)], [domParent] being the node of the fiber
    [domParentFiber]: a text node takes no child, the call on one throws a
    [HierarchyRequestError].  The node of a fiber is a text node when the
    type of the fiber is ["TEXT_ELEMENT"]. *)
Definition appendChild (domParentFiber : Fiber) (domParent d : DomNode) (s : State)
  : option State :=
  if type_eq (type domParentFiber) (Some (THost "TEXT_ELEMENT")) then None
  else Some (emit [AppendChild domParent d] s).

Fixpoint commitWork (fuel : nat) (fiber : option FiberRef) (s : State) : option State :=
  match fiber with
  | None => Some s
  | Some r =>
      match fuel with
      | O => None
      | S fuel' =>
          f ← deref s r;
          domParentFiber ← dom_parent (S (length (fibers s))) s (parent f);
          domParent ← dom domParentFiber;
          s1 ← match effectTag f, dom f with
               | Some PLACEMENT, Some d => appendChild domParentFiber domParent d s
               | Some UPDATE, Some d =>
                   a ← alternate f;
                   af ← deref s a;
                   prev ← props af;
                   next ← props f;
                   Some (emit (updateDom d prev next) s)
               | Some DELETION, d =>
                   d' ← d;
                   Some (emit [RemoveChild domParent d'] s)
               | _, _ => Some s
               end;
          s2 ← commitWork fuel' (child f) s1;
          commitWork fuel' (sibling f) s2
      end
  end.

Definition commitRoot (s : State) : option State :=
  w ← wipRoot s;
  wf ← deref s w;
  s1 ← commitWork (length (fibers s)) (child wf) s;
  Some (set_wipRoot None (set_currentRoot (wipRoot s1) s1)).

(** The [while] loop of [workLoop]; [deadline] lists the successive
    answers of [deadline.timeRemaining()], and an idle period that has run
    out of answers has no time left. *)
Fixpoint work (deadline : list Z) (s : State) : option State :=
  match nextUnitOfWork s with
  | None => Some s
  | Some fiber =>
      '(next, s1) ← performUnitOfWork fiber s;
      let s2 := set_nextUnitOfWork next s1 in
      match deadline with
      | t :: deadline' => if (t <? 1)%Z then Some s2 else work deadline' s2
      | [] => Some s2
      end
  end.

(** Whether [workLoop] goes on to commit after its loop *)
Definition ready_to_commit (s : State) : bool :=
  negb (bool_decide (is_Some (nextUnitOfWork s))) && bool_decide (is_Some (wipRoot s)).

Definition workLoop (deadline : list Z) (s : State) : option State :=
  s1 ← work deadline s;
  if ready_to_commit s1 then commitRoot s1 else Some s1.

(** [requestIdleCallback(workLoop)], over the idle periods the host grants *)
Definition idle (deadlines : list (list Z)) (s : State) : option State :=
  foldl (fun acc deadline => s' ← acc; workLoop deadline s') (Some s) deadlines.

End Didact.

(** * Vocabulary of the specification *)

(** ** The attribute diff, in the words of the specification *)

(** An upper-case letter of ASCII. *)
Definition is_upper (c : ascii) : bool :=
  (65 <=? nat_of_ascii c)%nat && (nat_of_ascii c <=? 90)%nat.

(** [lowered s t]: the text [t] is [s] in lower case.  It has the characters
    of [s] in order, but for the upper-case letters, each replaced by the
    letter 32 codes up, its lower-case form; so no upper-case letter is
    left in [t]. *)
Inductive lowered : string -> string -> Prop :=
| lowered_empty : lowered EmptyString EmptyString
| lowered_keep c s t :
    is_upper c = false -> lowered s t -> lowered (String c s) (String c t)
| lowered_letter c c' s t :
    is_upper c = true -> nat_of_ascii c' = nat_of_ascii c + 32 -> lowered s t ->
    lowered (String c s) (String c' t).

(** [next] has no key [key], of its own or inherited: what [key in next]
    being false comes to. *)
Definition lacks (next : Props) (key : string) : Prop :=
  ~ In key (Object_keys next) /\ ~ In key Object_prototype_keys.

(** ** Reconciliation, position by position *)

(** The fibers reached from [start] by following [sibling], in order. *)
Inductive sibling_chain (h : list Fiber) : option FiberRef -> list FiberRef -> Prop :=
| sibling_chain_nil : sibling_chain h None []
| sibling_chain_cons r f l :
    h !! r = Some f -> sibling_chain h (sibling f) l -> sibling_chain h (Some r) (r :: l).

(** The fiber of the previous tree at position [k], as it was in [s0]. *)
Definition old_at (s0 : State) (olds : list FiberRef) (k : nat) : option Fiber :=
  o ← olds !! k; deref s0 o.

(** Whether position [k] holds an element and an old fiber of equal type. *)
Definition same_type_at (s0 : State) (els : list Child) (olds : list FiberRef) (k : nat) : bool :=
  match els !! k, old_at s0 olds k with
  | Some e, Some f => type_eq (elem_type e) (type f)
  | _, _ => false
  end.

(** An UPDATE fiber keeps the type and the dom of the old fiber [o], adopts
    the props of the element and links back to [o]. *)
Definition update_fiber (wip o : FiberRef) (old : Fiber) (e : Child) : Fiber :=
  mkFiber (type old) (elem_props e) (dom old) (Some wip) None None (Some o) (Some UPDATE) None.

(** A PLACEMENT fiber has the type and props of the element, no dom yet and
    no alternate. *)
Definition placement_fiber (wip : FiberRef) (e : Child) : Fiber :=
  mkFiber (elem_type e) (elem_props e) None (Some wip) None None None (Some PLACEMENT) None.

(** The new fiber of position [k], before it is linked to its sibling. *)
Definition reconciled (s0 : State) (wip : FiberRef) (els : list Child) (olds : list FiberRef)
    (k : nat) : option Fiber :=
  e ← els !! k;
  Some (match olds !! k, old_at s0 olds k with
        | Some o, Some f =>
            if type_eq (elem_type e) (type f) then update_fiber wip o f e
            else placement_fiber wip e
        | _, _ => placement_fiber wip e
        end).

(** The old fibers of positions below [i] that found no element of their
    type, in order. *)
Definition unmatched (s0 : State) (els : list Child) (olds : list FiberRef) (i : nat)
  : list FiberRef :=
  flat_map (fun j => match olds !! j with
                     | Some o => if same_type_at s0 els olds j then [] else [o]
                     | None => []
                     end) (seq 0 i).

(** The globals that reconciliation leaves alone. *)
Definition same_globals (s s' : State) : Prop :=
  hookStore s' = hookStore s /\ nextUnitOfWork s' = nextUnitOfWork s /\
  currentRoot s' = currentRoot s /\ wipRoot s' = wipRoot s /\
  wipFiber s' = wipFiber s /\ hookIndex s' = hookIndex s /\
  domCount s' = domCount s /\ domLog s' = domLog s.

(** The state of the loop of [reconcileChildren] after [i] turns, started in
    [s0] on the parent [wip] (then [w]) with the elements [els], the old
    sibling chain [olds] and the pending deletions [ds]. *)
Record reconcile_inv (s0 : State) (wip : FiberRef) (w : Fiber) (els : list Child)
    (olds : list FiberRef) (ds : list FiberRef) (i : nat) (s : State) : Prop := {
  inv_length : length (fibers s) = length (fibers s0) + i `min` length els;
  inv_new : forall k nf, k < i `min` length els ->
    reconciled s0 wip els olds k = Some nf ->
    fibers s !! (length (fibers s0) + k) =
      Some (with_sibling (if (S k <? i `min` length els)%nat
                          then Some (length (fibers s0) + S k) else None) nf);
  inv_old : forall j o f, olds !! j = Some o -> deref s0 o = Some f ->
    deref s o = Some (if (j <? i)%nat && negb (same_type_at s0 els olds j)
                      then with_effectTag (Some DELETION) f else f);
  inv_deletions : deletions s = Some (ds ++ unmatched s0 els olds i);
  inv_wip : deref s wip =
    Some (if (i =? 0)%nat then w
          else with_child (if (0 <? length els)%nat then Some (length (fibers s0)) else None) w);
  inv_frame : forall r, r < length (fibers s0) -> r <> wip -> r ∉ olds ->
    fibers s !! r = fibers s0 !! r;
  inv_globals : same_globals s0 s }.

(** The value of [prevSibling] at the start of turn [i]: the fiber made at
    the previous position, when there was an element there. *)
Definition prev_sibling_at (s0 : State) (els : list Child) (i : nat) : option FiberRef :=
  if (0 <? i)%nat && (i <=? length els)%nat then Some (length (fibers s0) + i - 1) else None.

(** The fiber store after turn [i] of the loop, from the store [h] before it:
    the new fiber is appended, the unmatched old fiber is tagged, and the new
    fiber is linked to the parent or to its left sibling. *)
Definition step_fibers (s0 : State) (wip : FiberRef) (els : list Child) (olds : list FiberRef)
    (i : nat) (h : list Fiber) : list Fiber :=
  let nfo := reconciled s0 wip els olds i in
  let newFiber := match nfo with Some _ => Some (length (fibers s0) + i) | None => None end in
  let h1 := h ++ option_list nfo in
  let h2 := match olds !! i with
            | Some o => if same_type_at s0 els olds i then h1
                        else alter (with_effectTag (Some DELETION)) o h1
            | None => h1
            end in
  if (i =? 0)%nat then alter (with_child newFiber) wip h2
  else match nfo with
       | Some _ => alter (with_sibling newFiber) (length (fibers s0) + i - 1) h2
       | None => h2
       end.

Definition step_state (s0 : State) (wip : FiberRef) (els : list Child) (olds ds : list FiberRef)
    (i : nat) (s : State) : State :=
  set_deletions (Some (ds ++ unmatched s0 els olds (S i)))
    (set_fibers (step_fibers s0 wip els olds i (fibers s)) s).

(** The children of the previous version of the fiber [w], in order: the
    sibling chain that starts at [w.alternate.child]. *)
Definition old_children (s : State) (w : Fiber) (olds : list FiberRef) : Prop :=
  match alternate w with
  | None => olds = []
  | Some a => exists af, deref s a = Some af /\ sibling_chain (fibers s) (child af) olds
  end.

(** ** The state hook store, in the words of the specification *)

(** Replays the actions in queue order against a baseline. *)
Fixpoint replay (actions : list Action) (baseline : Val) : Val :=
  match actions with
  | [] => baseline
  | action :: rest => replay rest (action baseline)
  end.

(** The hook of the alternate fiber at the position of the coming
    [useState] call, when there is one. *)
Definition alternate_hook (s : State) : option Hook :=
  w ← wipFiber s;
  f ← deref s w;
  a ← alternate f;
  af ← deref s a;
  hs ← hooks af;
  r ← hs !! hookIndex s;
  hookStore s !! r.

Definition baseline (initial : Val) (s : State) : Val :=
  from_option state initial (alternate_hook s).

Definition pending (s : State) : list Action :=
  from_option queue [] (alternate_hook s).

(** The references held by the alternate of the fiber being processed are
    those of objects. *)
Definition alternate_ok (s : State) (f : Fiber) : Prop :=
  forall a, alternate f = Some a ->
    exists af, deref s a = Some af /\
      forall hs r, hooks af = Some hs -> hs !! hookIndex s = Some r ->
        is_Some (hookStore s !! r).

(** * Scenarios *)

(** An idle period in which the host never asks for the thread back. *)
Definition plenty : list Z := repeat 50%Z 64.

(** [(c) => c + 1], on numbers *)
Definition increment : Action :=
  fun c => match c with VNum z => VNum (z + 1) | _ => VNaN end.

(** A component in the manner of the demo's [App]: one [useState(0)], the
    state shown as text, the setter behind the click handler (a closure made
    anew by every render, here known by the hook its setter captured). *)
Definition Counter : Comp :=
  UseState (VNum 0) (fun st setter =>
    Return (createElement (THost "h1") (Some (mkProps [("onClick", VFun setter)] None))
              [Prim (VStr "Count: "); Prim st])).

Definition counter_app (f : nat) (p : option Props) : Comp := Counter.

(** The hook captured by the setter that the last committed render of the
    component under the root returned. *)
Definition committed_hook (s : State) : option HookRef :=
  r ← currentRoot s;
  rf ← deref s r;
  c ← child rf;
  cf ← deref s c;
  hs ← hooks cf;
  hs !! 0.

Definition committed_state (s : State) : option Val :=
  h ← committed_hook s;
  hk ← hookStore s !! h;
  Some (state hk).

(** Calls the setter of the last render with [(c) => c + 1], then lets the
    scheduler run. *)
Definition click (s : State) : option State :=
  h ← committed_hook s;
  s1 ← setState h increment s;
  idle counter_app [plenty] s1.

(** The states of the component after the first render and after each of
    three clicks. *)
Definition counter_states : list (option Val) :=
  let s0 := idle counter_app [plenty]
              (render (createElement (TFun 0) None []) 0 (initialState 1)) in
  let s1 := s0 ≫= click in
  let s2 := s1 ≫= click in
  let s3 := s2 ≫= click in
  [s0 ≫= committed_state; s1 ≫= committed_state;
   s2 ≫= committed_state; s3 ≫= committed_state].

(** A state in the middle of a render: the fiber 1 is being processed, its
    alternate 0 holds one hook with two pending actions. *)
Definition mid_render : State :=
  mkState
    [mkFiber (Some (TFun 0)) (Some (mkProps [] (Some []))) None None None None None
       (Some PLACEMENT) (Some [0]);
     mkFiber (Some (TFun 0)) (Some (mkProps [] (Some []))) None None None None (Some 0)
       (Some UPDATE) (Some [])]
    [mkHook (VNum 5) [increment; increment]]
    (Some 1) (Some 0) (Some 1) (Some []) (Some 1) 0 1 [].

(** No function components at all. *)
Definition no_components (f : nat) (p : option Props) : Comp := Return (Prim VNull).

(** [<div><h1>a</h1><h2>b</h2></div>] and the same without the [h2] *)
Definition list_of_two : Child :=
  createElement (THost "div") None
    [createElement (THost "h1") None [Prim (VStr "a")];
     createElement (THost "h2") None [Prim (VStr "b")]].
Definition list_of_one : Child :=
  createElement (THost "div") None
    [createElement (THost "h1") None [Prim (VStr "a")]].

(** Renders [first] into the container 0 of a page, lets the scheduler run
    to the commit, then does the same with [second]. *)
Definition render_twice (first second : Child) : option (State * State) :=
  s1 ← idle no_components [plenty] (render first 0 (initialState 1));
  s2 ← idle no_components [plenty] (render second 0 s1);
  Some (s1, s2).

(** The calls of a trace that remove a node from its parent. *)
Definition removals (log : list DomOp) : list DomOp :=
  List.filter (fun op => match op with RemoveChild _ _ => true | _ => false end) log.

(** * Vocabulary of the scheduler *)

(** What no step of the library changes in a fiber once it exists: its
    type, props, parent and alternate. *)
Definition same_identity (f f' : Fiber) : Prop :=
  type f' = type f /\ props f' = props f /\ parent f' = parent f /\
  alternate f' = alternate f.

(** Every fiber of [s] is still there in [s'], with the same identity and
    the same dom. *)
Definition fibers_kept (s s' : State) : Prop :=
  forall r f, deref s r = Some f ->
    exists f', deref s' r = Some f' /\ same_identity f f' /\ dom f' = dom f.

(** [climbs s r next]: [next] is the sibling of the nearest of [r] and its
    ancestors that has a sibling, and no fiber when none has. *)
Inductive climbs (s : State) : FiberRef -> option FiberRef -> Prop :=
| climbs_sibling r f sib :
    deref s r = Some f -> sibling f = Some sib -> climbs s r (Some sib)
| climbs_parent r f p next :
    deref s r = Some f -> sibling f = None -> parent f = Some p ->
    climbs s p next -> climbs s r next
| climbs_root r f :
    deref s r = Some f -> sibling f = None -> parent f = None -> climbs s r None.

(** The fiber that follows [r] in depth-first pre-order: its child when it
    has one, else where the climb from [r] leads. *)
Definition preorder_next (s : State) (r : FiberRef) (next : option FiberRef) : Prop :=
  exists f, deref s r = Some f /\
    match child f with
    | Some c => next = Some c
    | None => climbs s r next
    end.

(** Parents are older than their children: the climb ends. *)
Definition parents_older (s : State) : Prop :=
  forall r f p, deref s r = Some f -> parent f = Some p -> p < r.

(** A call on the DOM made while rendering: it creates a node or sets up a
    node created since the count [lo], and attaches nothing. *)
Definition detached (lo : nat) (op : DomOp) : Prop :=
  match op with
  | CreateTextNode n | CreateElement _ n
  | SetProperty n _ _ | AddEventListener n _ _ => lo <= n
  | RemoveEventListener _ _ _ | AppendChild _ _ | RemoveChild _ _ => False
  end.

(** What a step of the reconciler under the parent [wip] may do to the
    state: it keeps the fibers and the globals, and makes at most [n] new
    fibers, all of them children of [wip]. *)
Definition step_ok (wip : FiberRef) (n : nat) (s s' : State) : Prop :=
  fibers_kept s s' /\ same_globals s s' /\
  length (fibers s) <= length (fibers s') /\ length (fibers s') <= length (fibers s) + n /\
  forall r f, deref s' r = Some f -> length (fibers s) <= r -> parent f = Some wip.
(** What serving the hooks of a component may do to the state: it keeps the
    fibers, makes none, and leaves the DOM, the pending deletions and the
    roots alone. *)
Definition hooks_ok (s s' : State) : Prop :=
  fibers_kept s s' /\ length (fibers s') = length (fibers s) /\
  domLog s' = domLog s /\ domCount s' = domCount s /\ deletions s' = deletions s /\
  nextUnitOfWork s' = nextUnitOfWork s /\ currentRoot s' = currentRoot s /\
  wipRoot s' = wipRoot s.

(** A fiber that [updateHostComponent] can give a node when it has none:
    its type is one that [document] makes a node for. *)
Definition can_have_dom (f : Fiber) : Prop :=
  dom f = None -> exists create, create_call (type f) 0 = Some create.

(** The state once the host fiber [fiber] (then [f], with props [p]) has its
    dom: as before when it had one, else with a node created for it (when
    one can be). *)
Definition with_fresh_dom (fiber : FiberRef) (f : Fiber) (p : Props) (s : State) : State :=
  match dom f, create_call (type f) (domCount s) with
  | None, Some create =>
      set_fibers (alter (with_dom (Some (domCount s))) fiber (fibers s))
        (emit (create :: updateDom (domCount s) emptyProps p)
           (set_domCount (S (domCount s)) s))
  | _, _ => s
  end.

(** The child fibers that the unit of work on [fiber] has made for the
    values [els] when it leaves the state [s'], the store having had [L]
    fibers before: one new fiber per value, at consecutive positions from
    [L] on, with the type and props of its value, under [fiber], without
    child, each linked to the next as its sibling; the first of them is the
    child of [fiber]. *)
Definition children_made (L : nat) (fiber : FiberRef) (els : list Child) (s' : State)
  : Prop :=
  length (fibers s') = L + length els /\
  (exists f', deref s' fiber = Some f' /\ (els <> [] -> child f' = Some L)) /\
  forall k e, els !! k = Some e ->
    exists nf, deref s' (L + k) = Some nf /\
      type nf = elem_type e /\ props nf = elem_props e /\ parent nf = Some fiber /\
      child nf = None /\
      sibling nf = if (S k <? length els)%nat then Some (L + S k) else None.

(** A component every run of which ends with a truthy value. *)
Inductive returns_truthy : Comp -> Prop :=
| returns_truthy_Return result :
    child_truthy result = true -> returns_truthy (Return result)
| returns_truthy_UseState initial k :
    (forall st setter, returns_truthy (k st setter)) -> returns_truthy (UseState initial k).

(** The hooks of the fiber [a] are hook objects. *)
Definition hooks_valid (s : State) (a : FiberRef) : Prop :=
  forall af hs i r, deref s a = Some af -> hooks af = Some hs -> hs !! i = Some r ->
    r < length (hookStore s).

(** No attribute of [p] is [NaN]. *)
Definition no_NaN (p : Props) : Prop :=
  forall key v, In (key, v) (attrs p) -> v <> VNaN.

(** The effect tags of the fibers made since the store had [from] fibers,
    the first of them (the new root) left out. *)
Definition new_tags (from : nat) (s : State) : list (option EffectTag) :=
  map effectTag (drop (S from) (fibers s)).

(** The calls of a trace that create a node. *)
Definition creations (log : list DomOp) : list DomOp :=
  List.filter (fun op => match op with
                         | CreateTextNode _ | CreateElement _ _ => true
                         | _ => false
                         end) log.

(** A state ready for the work on the fiber 3, the new version of the fiber
    0, which has the children 1 (an [h1]) and 2 (an [h2]). *)
Definition reconcile_ready : State :=
  mkState
    [mkFiber None (Some (mkProps [] (Some []))) (Some 0) None (Some 1) None None None None;
     mkFiber (Some (THost "h1")) (Some (mkProps [] (Some []))) (Some 1) (Some 0)
       None (Some 2) None (Some PLACEMENT) None;
     mkFiber (Some (THost "h2")) (Some (mkProps [] (Some []))) (Some 2) (Some 0)
       None None None (Some PLACEMENT) None;
     mkFiber None
       (Some (mkProps [] (Some [Arr [createElement (THost "h1") None [];
                                     createElement (THost "p") None []]])))
       (Some 0) None None None (Some 0) None None]
    [] (Some 3) (Some 0) (Some 3) (Some []) None 0 3 [].

(** * Vocabulary of whole renders *)

#[local] Unset Elimination Schemes.

(** A tag that [document] makes a node for, with children only when the
    node is not a text node. *)
Definition tag_ok (tag : string) (cs : list Child) : Prop :=
  if String.eqb tag "TEXT_ELEMENT" then cs = [] else valid_name tag = true.

(** A fiber whose node takes children: it has a node, which is no text
    node. *)
Definition takes_children (f : Fiber) : Prop :=
  is_Some (dom f) /\ type_eq (type f) (Some (THost "TEXT_ELEMENT")) = false.

(** An element of a host type none of whose attributes is [NaN], and whose
    children, one level of arrays opened, are such elements. *)
Inductive host_element : Child -> Prop :=
| host_element_intro tag attrs cs :
    tag_ok tag (flat cs) ->
    no_NaN (mkProps attrs (Some cs)) ->
    Forall host_element (flat cs) ->
    host_element (Elem (THost tag) (mkProps attrs (Some cs))).

(** [tree h lo hi r e]: in the store [h] the fiber [r] and its descendants,
    which lie between [lo] and [hi], stand for the element [e]: each has the
    type and props of its element and a dom, and its children are chained
    in the order of the element's children. *)
Inductive tree (h : list Fiber) (lo hi : nat) : nat -> Child -> Prop :=
| tree_node r f tag attrs cs d refs :
    h !! r = Some f ->
    type f = Some (THost tag) ->
    props f = Some (mkProps attrs (Some cs)) ->
    dom f = Some d ->
    sibling_chain h (child f) refs ->
    Forall (fun c => lo <= c < hi) refs ->
    Forall2 (tree h lo hi) refs (flat cs) ->
    tree h lo hi r (Elem (THost tag) (mkProps attrs (Some cs))).

#[local] Set Elimination Schemes.

(** A fiber just made by the reconciler for the element [e] under the parent
    [p], not processed yet.  In a first render ([again = false]) it is a
    PLACEMENT without dom or alternate; in a render of the same tree again
    it is an UPDATE whose alternate, older than the root [R] of the render,
    stands for the same element and lends it its dom. *)
Definition fresh (s : State) (R : nat) (again : bool) (r : nat) (e : Child) (p : nat) : Prop :=
  exists f, deref s r = Some f /\
    type f = elem_type e /\ props f = elem_props e /\ parent f = Some p /\
    child f = None /\
    if again
    then effectTag f = Some UPDATE /\
         exists o fo, alternate f = Some o /\ o < R /\ deref s o = Some fo /\
           dom f = dom fo /\ tree (fibers s) 0 R o e
    else alternate f = None /\ dom f = None /\ effectTag f = Some PLACEMENT.

(** A processed fiber as the commit needs it: it has a dom and so has its
    parent, whose node is no text node; its child and sibling are younger
    fibers, and it is a PLACEMENT
    in a first render, an UPDATE whose alternate has the very same props,
    free of [NaN], in a render of the same tree again. *)
Definition ready (s : State) (again : bool) (i : nat) : Prop :=
  exists f p pf, deref s i = Some f /\ is_Some (dom f) /\
    parent f = Some p /\ deref s p = Some pf /\ takes_children pf /\
    (forall c, child f = Some c -> i < c < length (fibers s)) /\
    (forall c, sibling f = Some c -> i < c < length (fibers s)) /\
    if again
    then effectTag f = Some UPDATE /\
         exists o fo pr, alternate f = Some o /\ deref s o = Some fo /\
           props fo = Some pr /\ props f = Some pr /\ no_NaN pr
    else effectTag f = Some PLACEMENT.

(** The scheduler's globals that the units of work of a render of host
    elements leave alone. *)
Definition same_roots (s s' : State) : Prop :=
  deletions s' = deletions s /\ wipRoot s' = wipRoot s /\ currentRoot s' = currentRoot s.

(** What the processing of the subtree of the fresh fiber [r] has done when
    the cursor leaves it: only [r] was changed among the fibers there were,
    and it keeps its links; [r] and the fibers made since stand for [e] and
    are ready for the commit; and in a render of the same tree again the
    DOM was not called. *)
Record processed (s s' : State) (again : bool) (r : nat) (e : Child) : Prop := {
  processed_length : length (fibers s) <= length (fibers s');
  processed_frame : forall i, i < length (fibers s) -> i <> r ->
    fibers s' !! i = fibers s !! i;
  processed_links : exists f f', deref s r = Some f /\ deref s' r = Some f' /\
    sibling f' = sibling f /\ parent f' = parent f /\ props f' = props f /\
    type f' = type f /\ is_Some (dom f');
  processed_tree : tree (fibers s') (length (fibers s)) (length (fibers s')) r e;
  processed_ready : forall i, i = r \/ length (fibers s) <= i < length (fibers s') ->
    ready s' again i;
  processed_roots : same_roots s s';
  processed_parents : parents_older s';
  processed_log : again = true -> domLog s' = domLog s }.

(** [k] units of work, or as many as there are. *)
Fixpoint run_units (components : nat -> option Props -> Comp) (k : nat) (s : State)
  : option State :=
  match k with
  | O => Some s
  | S k' =>
      match nextUnitOfWork s with
      | None => Some s
      | Some fiber =>
          '(next, s1) ← performUnitOfWork components fiber s;
          run_units components k' (set_nextUnitOfWork next s1)
      end
  end.

(** The number of units of work that an idle period allows. *)
Fixpoint units_of (deadline : list Z) : nat :=
  match deadline with
  | [] => 1
  | t :: deadline' => if (t <? 1)%Z then 1 else S (units_of deadline')
  end.

(** A fresh fiber for [e] whose subtree gets processed, from any state in
    which the cursor is on it, leaving the cursor where the climb from the
    fiber leads. *)
Definition processes (components : nat -> option Props -> Comp) (e : Child) : Prop :=
  forall (s : State) (R r p : nat) (again : bool) (next : option nat) (ds : list nat),
    nextUnitOfWork s = Some r ->
    fresh s R again r e p ->
    R < r ->
    (exists pf, deref s p = Some pf /\ takes_children pf) ->
    (forall f c, deref s r = Some f -> sibling f = Some c -> r < c < length (fibers s)) ->
    climbs s r next ->
    deletions s = Some ds ->
    parents_older s ->
    exists k s',
      run_units components k s = Some s' /\
      nextUnitOfWork s' = next /\
      processed s s' again r e.

(** Every fiber of [s] is still there in [s'] with the same sibling and
    parent: a climb in [s] is a climb in [s']. *)
Definition links_kept (s s' : State) : Prop :=
  forall i f, deref s i = Some f ->
    exists f', deref s' i = Some f' /\ sibling f' = sibling f /\ parent f' = parent f.

(** The children that the fiber [f] of a render of the same tree again is
    reconciled against: those of its alternate, which stand for the
    elements [els]; in a first render there is no alternate. *)
Definition old_forest (s : State) (R : nat) (again : bool) (f : Fiber) (els : list Child)
    (olds : list nat) : Prop :=
  if again
  then exists o fo, alternate f = Some o /\ o < R /\ deref s o = Some fo /\
         sibling_chain (fibers s) (child fo) olds /\
         Forall (fun c => c < R) olds /\
         Forall2 (tree (fibers s) 0 R) olds els /\ is_Some (dom f)
  else alternate f = None /\ olds = [].

(** The state [s1] after the unit of work on the fiber [r] (then [f]) whose
    children are the host elements [els]: one fresh fiber per element was
    appended, chained under [r], which got a dom if it had none; nothing
    else changed. *)
Record expanded (s s1 : State) (R : nat) (again : bool) (r : nat) (f : Fiber)
    (els : list Child) : Prop := {
  expanded_length : length (fibers s1) = length (fibers s) + length els;
  expanded_frame : forall i, i < length (fibers s) -> i <> r ->
    fibers s1 !! i = fibers s !! i;
  expanded_fiber : exists f1, deref s1 r = Some f1 /\
    sibling f1 = sibling f /\ parent f1 = parent f /\ props f1 = props f /\
    type f1 = type f /\ alternate f1 = alternate f /\ effectTag f1 = effectTag f /\
    dom f1 = Some (from_option id (domCount s) (dom f)) /\
    child f1 = head (seq (length (fibers s)) (length els));
  expanded_children : forall j e, els !! j = Some e ->
    fresh s1 R again (length (fibers s) + j) e r /\
    exists g, deref s1 (length (fibers s) + j) = Some g /\
      sibling g = if (S j <? length els)%nat then Some (length (fibers s) + S j) else None;
  expanded_roots : same_roots s s1;
  expanded_parents : parents_older s1;
  expanded_log : is_Some (dom f) -> domLog s1 = domLog s }.

(** The state [sj] when the first [j] of the fresh fibers made in [s1] for
    the elements [els], which are the fibers from [L] on, have been
    processed with their subtrees: the fibers older than [L] and the fresh
    fibers still to be processed are as in [s1]; the processed ones stand
    for their elements and are ready for the commit, with the fibers made
    since. *)
Record forest (s1 sj : State) (again : bool) (L : nat) (els : list Child) (j : nat)
  : Prop := {
  forest_length : length (fibers s1) <= length (fibers sj);
  forest_frame : forall i, i < L \/ L + j <= i < L + length els ->
    fibers sj !! i = fibers s1 !! i;
  forest_links : links_kept s1 sj;
  forest_trees : forall i e, i < j -> els !! i = Some e ->
    tree (fibers sj) (L + length els) (length (fibers sj)) (L + i) e;
  forest_ready : forall i,
    L <= i < L + j \/ L + length els <= i < length (fibers sj) -> ready sj again i;
  forest_roots : same_roots s1 sj;
  forest_parents : parents_older sj;
  forest_log : again = true -> domLog sj = domLog s1 }.

(** The cursor when the first [j] of the children have been processed: the
    next child, or where the climb from their parent leads. *)
Definition cursor_at (L : nat) (els : list Child) (next : option nat) (j : nat) : option nat :=
  if (j <? length els)%nat then Some (L + j) else next.

(** A state at rest in which the tree of the element [e] is committed: the
    current root has a dom and one child, which stands for [e]; there is no
    work in progress. *)
Definition committed (s : State) (e : Child) : Prop :=
  nextUnitOfWork s = None /\ wipRoot s = None /\ parents_older s /\
  exists R rf c, currentRoot s = Some R /\ deref s R = Some rf /\
    sibling_chain (fibers s) (child rf) [c] /\
    tree (fibers s) 0 (length (fibers s)) c e.

(** A state in which [render] starts a first render ([again = false]), or
    a render of the committed tree again. *)
Definition at_rest (s : State) (again : bool) (e : Child) : Prop :=
  if again then committed s e
  else nextUnitOfWork s = None /\ wipRoot s = None /\ currentRoot s = None /\
       parents_older s.

(** * Vocabulary of the further properties *)

(** The fiber [f'] is [f], but for the tag DELETION it may have got. *)
Definition tagged_or_same (f f' : Fiber) : Prop :=
  f' = f \/ f' = with_effectTag (Some DELETION) f.

(** Of the fibers below [L], all but [r] are in [s'] what they are in [s],
    but for the tag DELETION. *)
Definition others_kept (L r : nat) (s s' : State) : Prop :=
  forall i f, i < L -> i <> r -> deref s i = Some f ->
    exists f', deref s' i = Some f' /\ tagged_or_same f f'.

(** The fibers from [L] on only link to one another. *)
Definition region_closed (L : nat) (s : State) : Prop :=
  forall i f, L <= i -> deref s i = Some f ->
    (forall c, child f = Some c -> L <= c) /\
    (forall c, sibling f = Some c -> L <= c) /\
    (forall p, parent f = Some p -> L <= p).

(** What the work on the fiber [wip] may do to the store, seen from the
    fibers below [L]: it loses no fiber, changes none of them but [wip]
    except for a tag DELETION, and, when [wip] is not below [L], makes no
    link from the fibers from [L] on to those below. *)
Definition quiet (L wip : nat) (s s' : State) : Prop :=
  length (fibers s) <= length (fibers s') /\
  others_kept L wip s s' /\
  (L <= wip -> region_closed L s -> region_closed L s').

(** The hook object that the coming [useState] call reads: the one the
    alternate of the fiber being processed holds at the same position. *)
Definition alternate_hook_ref (s : State) : option HookRef :=
  w ← wipFiber s;
  f ← deref s w;
  a ← alternate f;
  af ← deref s a;
  hs ← hooks af;
  hs !! hookIndex s.

(** The setter of the hook [hook] called with each of [actions] in turn. *)
Definition setStates (hook : HookRef) (actions : list Action) (s : State) : option State :=
  foldl (fun acc action => st ← acc; setState hook action st) (Some s) actions.

(** * The first version of the library (src/unnamed/part_001)

    [render] without fibers: it builds the DOM of an element by recursion
    and attaches it to the container.  The DOM is the trace of calls again;
    a call returns the calls it made and the count of nodes after it. *)
Module Recursive.

(** [render(element, container)], with [n] nodes made so far; [container]
    is taken to be an element.  It throws on what is not an element object
    with props and a [children] array; [document.createElement] throws on a
    type that is no name, as on a function; and a text node takes no child:
    the [appendChild] of the first child of a text element throws. *)
Fixpoint render (element : Child) (container : DomNode) (n : nat)
  : option (list DomOp * nat) :=
  match element with
  | Elem ty (mkProps attrs (Some cs)) =>
      let p := mkProps attrs (Some cs) in
      create ← create_call (Some ty) n;
      let assigned :=
        map (fun name => SetProperty n name (get p name))
          (List.filter (fun key => negb (String.eqb key "children")) (Object_keys p)) in
      '(ops, n') ←
        (fix render_children (cs : list Child) (m : nat) : option (list DomOp * nat) :=
           match cs with
           | [] => Some ([], m)
           | child :: cs' =>
               '(ops1, m1) ← render child n m;
               '(ops2, m2) ← render_children cs' m1;
               Some (ops1 ++ ops2, m2)
           end) cs (S n);
      if type_eq (Some ty) (Some (THost "TEXT_ELEMENT"))
         && match cs with [] => false | _ :: _ => true end
      then None
      else Some (create :: assigned ++ ops ++ [AppendChild container n], n')
  | _ => None
  end.

End Recursive.

(** The children of an element rendered one after the other into the node
    [dom], as [forEach] does. *)
Fixpoint render_children (cs : list Child) (dom : DomNode) (m : nat)
  : option (list DomOp * nat) :=
  match cs with
  | [] => Some ([], m)
  | child :: cs' =>
      '(ops1, m1) ← Recursive.render child dom m;
      '(ops2, m2) ← render_children cs' dom m1;
      Some (ops1 ++ ops2, m2)
  end.

#[local] Unset Elimination Schemes.

(** An element of a host type with a [children] array of such elements,
    whose tag is a name that [document] makes a node for, a text element
    having no children. *)
Inductive plain_element : Child -> Prop :=
| plain_element_intro tag attrs cs :
    tag_ok tag cs ->
    Forall plain_element cs ->
    plain_element (Elem (THost tag) (mkProps attrs (Some cs))).

(** An element of a host type with a [children] array of such elements, a
    text element having no children; nothing is asked of the tags. *)
Inductive host_tree : Child -> Prop :=
| host_tree_intro tag attrs cs :
    (tag = "TEXT_ELEMENT" -> cs = []) ->
    Forall host_tree cs ->
    host_tree (Elem (THost tag) (mkProps attrs (Some cs))).

#[local] Set Elimination Schemes.

(** The number of elements of a tree. *)
Fixpoint nodes (e : Child) : nat :=
  match e with
  | Elem _ (mkProps _ (Some cs)) =>
      S ((fix nodes_of (cs : list Child) : nat :=
            match cs with
            | [] => 0
            | c :: cs' => nodes c + nodes_of cs'
            end) cs)
  | Elem _ (mkProps _ None) => 1
  | _ => 0
  end.

(** A call that concerns the nodes from [lo] on only. *)
Definition within (lo : nat) (op : DomOp) : Prop :=
  match op with
  | CreateTextNode n | CreateElement _ n
  | SetProperty n _ _ | AddEventListener n _ _ | RemoveEventListener n _ _ => lo <= n
  | AppendChild p c | RemoveChild p c => lo <= p /\ lo <= c
  end.

(** * Vocabulary of the first render, call by call *)

#[local] Unset Elimination Schemes.

(** An element of a host type with a [children] array of such elements,
    none of whose attributes is [NaN]. *)
Inductive simple_element : Child -> Prop :=
| simple_element_intro tag attrs cs :
    tag_ok tag cs ->
    no_NaN (mkProps attrs (Some cs)) ->
    Forall simple_element cs ->
    simple_element (Elem (THost tag) (mkProps attrs (Some cs))).

#[local] Set Elimination Schemes.

(** The calls that make and set up the nodes of the tree [e], numbered from
    [n] on in depth-first pre-order, one node after the other. *)
Fixpoint setup_log (e : Child) (n : nat) : list DomOp :=
  match e with
  | Elem (THost tag) (mkProps attrs (Some cs)) =>
      (if type_eq (Some (THost tag)) (Some (THost "TEXT_ELEMENT"))
       then CreateTextNode n
       else CreateElement tag n)
      :: updateDom n emptyProps (mkProps attrs (Some cs))
      ++ (fix setup_of (cs : list Child) (m : nat) : list DomOp :=
            match cs with
            | [] => []
            | c :: cs' => setup_log c m ++ setup_of cs' (m + nodes c)
            end) cs (S n)
  | _ => []
  end.

Fixpoint setup_logs (cs : list Child) (m : nat) : list DomOp :=
  match cs with
  | [] => []
  | c :: cs' => setup_log c m ++ setup_logs cs' (m + nodes c)
  end.

(** The calls that attach the nodes of the tree [e], numbered from [n] on,
    under the node [container]: each node to the node of its parent, in
    depth-first pre-order. *)
Fixpoint attach_log (e : Child) (container n : nat) : list DomOp :=
  match e with
  | Elem ty (mkProps attrs (Some cs)) =>
      AppendChild container n
      :: (fix attach_of (cs : list Child) (m : nat) : list DomOp :=
            match cs with
            | [] => []
            | c :: cs' => attach_log c n m ++ attach_of cs' (m + nodes c)
            end) cs (S n)
  | _ => []
  end.

Fixpoint attach_logs (cs : list Child) (container m : nat) : list DomOp :=
  match cs with
  | [] => []
  | c :: cs' => attach_log c container m ++ attach_logs cs' container (m + nodes c)
  end.

(** [placed h lo hi r e n]: in the store [h] the fiber [r] and its
    descendants, which lie between [lo] and [hi], are the PLACEMENT fibers
    of the tree [e], of the types of its elements, with the nodes numbered
    from [n] on in pre-order as their doms, each child fiber under its
    parent. *)
Inductive placed (h : list Fiber) (lo hi : nat) : nat -> Child -> nat -> Prop :=
| placed_node r f tag attrs cs n refs :
    h !! r = Some f ->
    type f = Some (THost tag) ->
    tag_ok tag cs ->
    dom f = Some n ->
    effectTag f = Some PLACEMENT ->
    sibling_chain h (child f) refs ->
    Forall (fun c => lo <= c < hi) refs ->
    (forall c fc, c ∈ refs -> h !! c = Some fc -> parent fc = Some r) ->
    placed_forest h lo hi refs cs (S n) ->
    placed h lo hi r (Elem (THost tag) (mkProps attrs (Some cs))) n
with placed_forest (h : list Fiber) (lo hi : nat) : list nat -> list Child -> nat -> Prop :=
| placed_nil m : placed_forest h lo hi [] [] m
| placed_cons r e rs es m :
    placed h lo hi r e m ->
    placed_forest h lo hi rs es (m + nodes e) ->
    placed_forest h lo hi (r :: rs) (e :: es) m.

Scheme placed_mutual := Minimality for placed Sort Prop
  with placed_forest_mutual := Minimality for placed_forest Sort Prop.

(** A fresh fiber for [e], in a first render, whose subtree gets processed
    as [processes] says, the calls made on the DOM being those that make and
    set up the nodes of [e], which end up as the doms of its fibers. *)
Definition processes_log (components : nat -> option Props -> Comp) (e : Child) : Prop :=
  forall (s : State) (R r p : nat) (next : option nat) (ds : list nat),
    nextUnitOfWork s = Some r ->
    fresh s R false r e p ->
    R < r ->
    (exists pf, deref s p = Some pf /\ takes_children pf) ->
    (forall f c, deref s r = Some f -> sibling f = Some c -> r < c < length (fibers s)) ->
    climbs s r next ->
    deletions s = Some ds ->
    parents_older s ->
    exists s',
      run_units components (nodes e) s = Some s' /\
      nextUnitOfWork s' = next /\
      processed s s' false r e /\
      domCount s' = domCount s + nodes e /\
      domLog s' = domLog s ++ setup_log e (domCount s) /\
      placed (fibers s') (length (fibers s)) (length (fibers s')) r e (domCount s) /\
      length (fibers s') + 1 = length (fibers s) + nodes e.

(** The state [sj] of [forest], with the nodes made so far and the calls
    that made them, [n1] nodes having been made before. *)
Record forest_made (s1 sj : State) (L : nat) (els : list Child) (j n1 : nat) : Prop := {
  forest_made_forest : forest s1 sj false L els j;
  forest_made_count : domCount sj = n1 + list_sum (map nodes (take j els));
  forest_made_calls : domLog sj = domLog s1 ++ setup_logs (take j els) n1;
  forest_made_placed :
    placed_forest (fibers sj) (L + length els) (length (fibers sj))
      (seq L j) (take j els) n1;
  forest_made_length :
    length (fibers sj) + j = L + length els + list_sum (map nodes (take j els)) }.

(** What the processing of the subtree of the fresh fiber [r] of a first
    render has done when the cursor leaves it, whether the parent of [r] has
    a node or not: [r] and the fibers made since are the PLACEMENT fibers of
    [e] with its nodes, made by the calls of [setup_log]; the fibers made
    since are ready for the commit; nothing else changed. *)
Record made (s s' : State) (r : nat) (e : Child) : Prop := {
  made_length : length (fibers s') + 1 = length (fibers s) + nodes e;
  made_frame : forall i, i < length (fibers s) -> i <> r ->
    fibers s' !! i = fibers s !! i;
  made_links : exists f f', deref s r = Some f /\ deref s' r = Some f' /\
    sibling f' = sibling f /\ parent f' = parent f /\ props f' = props f /\
    type f' = type f /\ effectTag f' = effectTag f /\ is_Some (dom f') /\
    (forall c, child f' = Some c -> length (fibers s) <= c < length (fibers s'));
  made_tree : tree (fibers s') (length (fibers s)) (length (fibers s')) r e;
  made_ready : forall i, length (fibers s) <= i < length (fibers s') -> ready s' false i;
  made_roots : same_roots s s';
  made_parents : parents_older s';
  made_count : domCount s' = domCount s + nodes e;
  made_calls : domLog s' = domLog s ++ setup_log e (domCount s);
  made_placed :
    placed (fibers s') (length (fibers s)) (length (fibers s')) r e (domCount s) }.

(** * Vocabulary of the comparison of the two versions *)

#[local] Unset Elimination Schemes.

(** A tree of host elements with [children] arrays none of whose attributes
    is a handler (a key that starts with ["on"]), [NaN], or the value that
    an empty object has under its key: [undefined], or for a property name
    of [Object.prototype] the inherited property.  The tags are names that
    [document] makes nodes for, and the text elements have no children. *)
Inductive static_element : Child -> Prop :=
| static_element_intro tag attrs cs :
    tag_ok tag cs ->
    (forall key v, In (key, v) attrs ->
       isEvent key = false /\ v <> get emptyProps key /\ v <> VNaN) ->
    Forall static_element cs ->
    static_element (Elem (THost tag) (mkProps attrs (Some cs))).

#[local] Set Elimination Schemes.

(** Whether a call makes a node or sets one up, rather than moves one. *)
Definition setting_up (op : DomOp) : bool :=
  match op with
  | AppendChild _ _ | RemoveChild _ _ => false
  | _ => true
  end.

(** * Vocabulary of the components that return no element *)

(** A component every run of which ends with a truthy value that is not an
    element object: a string, a number, an array of elements. *)
Inductive returns_no_element : Comp -> Prop :=
| returns_no_element_Return result :
    child_truthy result = true -> elem_props result = None ->
    returns_no_element (Return result)
| returns_no_element_UseState initial k :
    (forall st setter, returns_no_element (k st setter)) ->
    returns_no_element (UseState initial k).

(** A component that returns a string, [function App() { return "hello" }],
    and the state in which the work loop comes to its fiber: [<App />] was
    rendered into the container 0 and the unit of work on the root is done. *)
Definition text_app (f : nat) (p : option Props) : Comp := Return (Prim (VStr "hello")).

Definition text_app_state : State :=
  from_option id (initialState 1)
    (run_units text_app 1 (render (createElement (TFun 0) None []) 0 (initialState 1))).

(** * Vocabulary of the first render of a function component *)

(** What a component returns in a first render, when the hook store holds
    [h] hooks: each [useState] gives its initial state, and a setter on a
    hook made for it. *)
Fixpoint first_return (c : Comp) (h : nat) : Child :=
  match c with
  | Return result => result
  | UseState initial k => first_return (k initial h) (S h)
  end.

(** * Properties of the DOM adapter *)

Lemma toLowerCase_substring_from (n : nat) (s : string) :
  substring_from n (toLowerCase s) = toLowerCase (substring_from n s).
Proof.
  revert s. induction n as [|n IH]; intros s.
  - by destruct s.
  - destruct s as [|c s]; simpl; [done | apply IH].
Qed.

Lemma isEvent_prefix (key : string) :
  isEvent key = true <-> exists rest, key = String.append "on" rest.
Proof.
  unfold isEvent. split.
  - destruct key as [|a [|b rest]]; cbn [startsWith]; try discriminate.
    + rewrite andb_false_r. discriminate.
    + rewrite andb_true_r, andb_true_iff, !Ascii.eqb_eq.
      intros [<- <-]. by exists rest.
  - intros [rest ->]. reflexivity.
Qed.

Lemma isProperty_children : isProperty "children" = false.
Proof. reflexivity. Qed.

Lemma isProperty_true (key : string) :
  isProperty key = true <-> key <> "children" /\ isEvent key = false.
Proof.
  unfold isProperty. rewrite andb_true_iff, !negb_true_iff, String.eqb_neq. tauto.
Qed.

Lemma in_removedListeners d prev next op :
  In op (removedListeners d prev next) <->
  exists key, In key (Object_keys prev) /\ isEvent key = true /\
    (has_key next key = false \/ strict_eq (get prev key) (get next key) = false) /\
    op = RemoveEventListener d (eventType key) (get prev key).
Proof.
  unfold removedListeners. rewrite in_map_iff. split.
  - intros (key & <- & Hin). apply filter_In in Hin as [Hin Hc].
    apply filter_In in Hin as [Hin He]. exists key. split_and!; try done.
    apply orb_true_iff in Hc as [Hc|Hc]; [left|right].
    + by apply negb_true_iff.
    + unfold isNew in Hc. by apply negb_true_iff.
  - intros (key & Hin & He & Hc & ->). exists key. split; [done|].
    apply filter_In. split; [by apply filter_In|].
    apply orb_true_iff. unfold isNew. rewrite !negb_true_iff. tauto.
Qed.

Lemma in_clearedProperties d prev next op :
  In op (clearedProperties d prev next) <->
  exists key, In key (Object_keys prev) /\ isProperty key = true /\
    has_key next key = false /\ op = SetProperty d key (VStr "").
Proof.
  unfold clearedProperties, isGone. rewrite in_map_iff. split.
  - intros (key & <- & Hin). apply filter_In in Hin as [Hin Hc].
    apply filter_In in Hin as [Hin He]. exists key.
    by rewrite negb_true_iff in Hc.
  - intros (key & Hin & He & Hc & ->). exists key. split; [done|].
    apply filter_In. split; [by apply filter_In|]. by rewrite negb_true_iff.
Qed.

Lemma in_assignedProperties d prev next op :
  In op (assignedProperties d prev next) <->
  exists key, In key (Object_keys next) /\ isProperty key = true /\
    strict_eq (get prev key) (get next key) = false /\
    op = SetProperty d key (get next key).
Proof.
  unfold assignedProperties, isNew. rewrite in_map_iff. split.
  - intros (key & <- & Hin). apply filter_In in Hin as [Hin Hc].
    apply filter_In in Hin as [Hin He]. exists key.
    by rewrite negb_true_iff in Hc.
  - intros (key & Hin & He & Hc & ->). exists key. split; [done|].
    apply filter_In. split; [by apply filter_In|]. by rewrite negb_true_iff.
Qed.

Lemma in_addedListeners d prev next op :
  In op (addedListeners d prev next) <->
  exists key, In key (Object_keys next) /\ isEvent key = true /\
    strict_eq (get prev key) (get next key) = false /\
    op = AddEventListener d (eventType key) (get next key).
Proof.
  unfold addedListeners, isNew. rewrite in_map_iff. split.
  - intros (key & <- & Hin). apply filter_In in Hin as [Hin Hc].
    apply filter_In in Hin as [Hin He]. exists key.
    by rewrite negb_true_iff in Hc.
  - intros (key & Hin & He & Hc & ->). exists key. split; [done|].
    apply filter_In. split; [by apply filter_In|]. by rewrite negb_true_iff.
Qed.

Lemma in_updateDom d prev next op :
  In op (updateDom d prev next) <->
  In op (removedListeners d prev next) \/ In op (clearedProperties d prev next) \/
  In op (assignedProperties d prev next) \/ In op (addedListeners d prev next).
Proof. unfold updateDom. by rewrite !in_app_iff. Qed.

(** ** Lower case *)

Lemma lower_ascii_upper (c : ascii) :
  is_upper c = true -> nat_of_ascii (lower_ascii c) = nat_of_ascii c + 32.
Proof.
  unfold is_upper, lower_ascii. intros Hu. rewrite Hu.
  apply andb_true_iff in Hu as [_ Hle]. apply Nat.leb_le in Hle.
  apply nat_ascii_embedding. lia.
Qed.

Lemma lower_ascii_other (c : ascii) : is_upper c = false -> lower_ascii c = c.
Proof. unfold is_upper, lower_ascii. by intros ->. Qed.

Lemma toLowerCase_lowered (s : string) : lowered s (toLowerCase s).
Proof.
  induction s as [|c s IH]; simpl; [constructor|].
  destruct (is_upper c) eqn:Hu.
  - apply lowered_letter; [done|by apply lower_ascii_upper|done].
  - rewrite lower_ascii_other by done. by apply lowered_keep.
Qed.

Lemma lowered_toLowerCase (s t : string) : lowered s t -> t = toLowerCase s.
Proof.
  induction 1 as [|c s t Hu _ IH|c c' s t Hu Hc _ IH]; simpl; [done|..].
  - by rewrite lower_ascii_other, IH.
  - rewrite IH. f_equal.
    rewrite <- (ascii_nat_embedding c'), <- (ascii_nat_embedding (lower_ascii c)).
    by rewrite Hc, lower_ascii_upper.
Qed.

Lemma eventType_on (rest : string) : eventType (String.append "on" rest) = toLowerCase rest.
Proof. reflexivity. Qed.

(** ** The keys an object is asked for *)

Lemma existsb_eqb_In (key : string) (l : list string) :
  existsb (String.eqb key) l = true <-> In key l.
Proof.
  rewrite existsb_exists. split.
  - intros (k & Hin & Heq). apply String.eqb_eq in Heq. by subst.
  - intros Hin. exists key. split; [done|apply String.eqb_refl].
Qed.

Lemma has_key_lacks (next : Props) (key : string) :
  has_key next key = false <-> lacks next key.
Proof.
  unfold has_key, has_own, inherited, lacks.
  rewrite orb_false_iff, <- !not_true_iff_false, !existsb_eqb_In. tauto.
Qed.

Lemma isEvent_own (key : string) : isEvent key = true -> inherited key = false.
Proof.
  intros [rest ->]%isEvent_prefix. reflexivity.
Qed.

Lemma has_key_event (next : Props) (key : string) :
  isEvent key = true -> has_key next key = false <-> ~ In key (Object_keys next).
Proof.
  intros He. unfold has_key, has_own. rewrite (isEvent_own key He), orb_false_r.
  by rewrite <- not_true_iff_false, existsb_eqb_In.
Qed.

(** A plain attribute of [prev] whose key is a property name of
    [Object.prototype] is not reset when [next] lacks it: [key in next] is
    true of it.  So not every plain attribute present in [prev] and absent
    from [next] is set to the empty string. *)
Lemma updateDom_keeps_inherited_names :
  ~ (forall (d : nat) (prev next : Props) (key : string),
       In key (Object_keys prev) -> isProperty key = true ->
       ~ In key (Object_keys next) ->
       In (SetProperty d key (VStr "")) (updateDom d prev next)).
Proof.
  intros H.
  specialize (H 1 (mkProps [("toString", VStr "a")] None) (mkProps [] None) "toString").
  simpl in H. apply H; [by left|done|tauto].
Qed.


(** * The reconciler *)

(** ** The fiber store *)

Lemma deref_lt (s : State) (r : FiberRef) (f : Fiber) :
  deref s r = Some f -> r < length (fibers s).
Proof. apply lookup_lt_Some. Qed.

Lemma modify_Some (r : FiberRef) (g : Fiber -> Fiber) (s : State) :
  r < length (fibers s) ->
  modify r g s = Some (set_fibers (alter g r (fibers s)) s).
Proof.
  intros Hr. unfold modify, deref.
  destruct (lookup_lt_is_Some_2 _ _ Hr) as [f ->]. done.
Qed.

Lemma set_fibers_id (s : State) : set_fibers (fibers s) s = s.
Proof. by destruct s. Qed.

Lemma sibling_chain_lookup (h : list Fiber) (start : option FiberRef) (l : list FiberRef) :
  sibling_chain h start l ->
  start = l !! 0 /\
  forall j o, l !! j = Some o -> exists f, h !! o = Some f /\ sibling f = l !! S j.
Proof.
  induction 1 as [|r f l Hr Hch [IH0 IH]]; [done|].
  split; [done|]. intros [|j] o Ho; simplify_eq/=.
  - by exists f.
  - by apply IH.
Qed.

Lemma sibling_chain_det (h : list Fiber) (start : option FiberRef) (l1 l2 : list FiberRef) :
  sibling_chain h start l1 -> sibling_chain h start l2 -> l1 = l2.
Proof.
  intros H1. revert l2. induction H1 as [|r f l Hr Hch IH]; intros l2 H2.
  - by inversion H2.
  - inversion H2; simplify_eq. f_equal. by apply IH.
Qed.

Lemma sibling_chain_length (h : list Fiber) (start : option FiberRef) (l : list FiberRef) :
  sibling_chain h start l -> forall l', sibling_chain h start (l ++ l') -> l' = [].
Proof.
  intros H l' H'. pose proof (sibling_chain_det _ _ _ _ H H') as Heq.
  apply (f_equal length) in Heq. rewrite length_app in Heq.
  destruct l'; [done|]. simpl in Heq. lia.
Qed.

Lemma sibling_chain_suffix (h : list Fiber) (start : option FiberRef) (l : list FiberRef) (j : nat) :
  sibling_chain h start l -> sibling_chain h (l !! j) (drop j l).
Proof.
  intros H. revert j. induction H as [|r f l Hr Hch IH]; intros j.
  - rewrite drop_nil. simpl. constructor.
  - destruct j as [|j]; simpl.
    + by econstructor.
    + apply IH.
Qed.

Lemma sibling_chain_NoDup (h : list Fiber) (start : option FiberRef) (l : list FiberRef) :
  sibling_chain h start l -> NoDup l.
Proof.
  intros H. apply NoDup_alt. intros i j x Hi Hj.
  destruct (decide (i = j)) as [|Hne]; [done|exfalso].
  assert (forall a b, a < b -> l !! a = Some x -> l !! b = Some x -> False) as Hlt.
  { clear -H. intros a b Hab Ha Hb.
    pose proof (sibling_chain_suffix _ _ _ a H) as Hca.
    pose proof (sibling_chain_suffix _ _ _ b H) as Hcb.
    rewrite Ha in Hca. rewrite Hb in Hcb.
    pose proof (sibling_chain_det _ _ _ _ Hca Hcb) as Heq.
    apply (f_equal length) in Heq. rewrite !length_drop in Heq.
    apply lookup_lt_Some in Hb. lia. }
  destruct (Nat.lt_total i j) as [?|[?|?]]; [|done|]; eauto.
Qed.

(** ** The loop of [reconcileChildren] *)

(** Closes an equation between two states built from the same state. *)
Ltac state_eq :=
  unfold set_fibers, set_deletions, update_fiber, placement_fiber;
  match goal with s : State |- _ => destruct s end;
  cbn in *; simplify_eq; rewrite ?app_nil_r, <- ?app_assoc; try done.

#[local] Arguments prev_sibling_at : simpl never.
#[local] Arguments Nat.min : simpl never.
#[local] Arguments Nat.ltb : simpl never.
#[local] Arguments Nat.leb : simpl never.
#[local] Arguments Nat.eqb : simpl never.

Section ReconcileLoop.

Variables (s0 : State) (wip : FiberRef) (w : Fiber) (els : list Child).
Variables (olds ds : list FiberRef).

Hypothesis Hwip : deref s0 wip = Some w.
Hypothesis Hchain : sibling_chain (fibers s0) (olds !! 0) olds.
Hypothesis Hfresh : wip ∉ olds.
Hypothesis Htruthy : Forall (fun c => child_truthy c = true) els.
Hypothesis Hds : deletions s0 = Some ds.

Lemma olds_deref (j : nat) (o : FiberRef) :
  olds !! j = Some o -> exists f, deref s0 o = Some f /\ sibling f = olds !! S j.
Proof. intros Ho. by apply (proj2 (sibling_chain_lookup _ _ _ Hchain)). Qed.

Lemma olds_lt (j : nat) (o : FiberRef) : olds !! j = Some o -> o < length (fibers s0).
Proof. intros Ho. destruct (olds_deref _ _ Ho) as (f & Hf & _). by eapply deref_lt. Qed.

Lemma olds_inj (i j : nat) (o : FiberRef) :
  olds !! i = Some o -> olds !! j = Some o -> i = j.
Proof.
  pose proof (sibling_chain_NoDup _ _ _ Hchain) as Hnd.
  intros Hi Hj. by eapply NoDup_lookup.
Qed.

Lemma olds_not_wip (j : nat) (o : FiberRef) : olds !! j = Some o -> o <> wip.
Proof. intros Ho ->. apply Hfresh. by eapply list_elem_of_lookup_2. Qed.

Lemma unmatched_S (i : nat) :
  unmatched s0 els olds (S i) =
  unmatched s0 els olds i ++
    match olds !! i with
    | Some o => if same_type_at s0 els olds i then [] else [o]
    | None => []
    end.
Proof.
  unfold unmatched. rewrite seq_S, flat_map_app. simpl. by rewrite app_nil_r.
Qed.

Lemma reconcile_inv_init : reconcile_inv s0 wip w els olds ds 0 s0.
Proof.
  split.
  - simpl. lia.
  - intros k nf Hk. simpl in Hk. lia.
  - intros j o f _ Hf. done.
  - unfold unmatched. simpl. by rewrite app_nil_r.
  - done.
  - done.
  - by repeat split.
Qed.

Lemma prev_sibling_at_S_lt (i : nat) :
  i < length els -> prev_sibling_at s0 els (S i) = Some (length (fibers s0) + i).
Proof.
  intros Hi. unfold prev_sibling_at.
  replace (S i <=? length els)%nat with true by (symmetry; apply Nat.leb_le; lia).
  simpl. f_equal. lia.
Qed.

Lemma prev_sibling_at_S_ge (i : nat) :
  length els <= i -> prev_sibling_at s0 els (S i) = None.
Proof.
  intros Hi. unfold prev_sibling_at.
  replace (S i <=? length els)%nat with false by (symmetry; apply Nat.leb_gt; lia).
  by rewrite andb_false_r.
Qed.

Lemma prev_sibling_at_pos (i : nat) :
  i <> 0 -> i <= length els ->
  prev_sibling_at s0 els i = Some (length (fibers s0) + i - 1).
Proof.
  intros Hi Hn. unfold prev_sibling_at.
  replace (0 <? i)%nat with true by (symmetry; apply Nat.ltb_lt; lia).
  by replace (i <=? length els)%nat with true by (symmetry; apply Nat.leb_le; lia).
Qed.

Lemma reconcile_step_computes (i : nat) (s : State) :
  reconcile_inv s0 wip w els olds ds i s ->
  i < length els \/ i < length olds ->
  reconcile_step wip els i (olds !! i) (prev_sibling_at s0 els i) s =
    Some (olds !! S i, prev_sibling_at s0 els (S i), step_state s0 wip els olds ds i s).
Proof.
  intros Hinv Hgo.
  pose proof (deref_lt _ _ _ Hwip) as Hwlt.
  pose proof (inv_length _ _ _ _ _ _ _ _ Hinv) as Hlen.
  pose proof (inv_deletions _ _ _ _ _ _ _ _ Hinv) as Hdel.
  unfold step_state, step_fibers, reconciled, reconcile_step.
  rewrite unmatched_S.
  destruct (els !! i) as [e|] eqn:He; destruct (olds !! i) as [o|] eqn:Ho.
  - (* an element and an old fiber *)
    destruct (olds_deref _ _ Ho) as (f & Hf & Hsib).
    pose proof (inv_old _ _ _ _ _ _ _ _ Hinv _ _ _ Ho Hf) as Hfs.
    rewrite Nat.ltb_irrefl in Hfs. simpl in Hfs.
    pose proof (deref_lt _ _ _ Hfs) as Holt.
    assert (child_truthy e = true) as Ht by (by eapply Forall_lookup_1 in Htruthy).
    pose proof (lookup_lt_Some _ _ _ He) as Hin.
    assert (same_type_at s0 els olds i = type_eq (elem_type e) (type f)) as Hst.
    { unfold same_type_at, old_at. rewrite He, Ho. simpl. by rewrite Hf. }
    assert (old_at s0 olds i = Some f) as Hoa.
    { unfold old_at. rewrite Ho. done. }
    rewrite (prev_sibling_at_S_lt i) by done. rewrite Hst, Hoa.
    cbn [mbind option_bind]. rewrite Ht, Hfs. cbn [mbind option_bind].
    assert (length (fibers s) = length (fibers s0) + i) as Hlen' by lia.
    destruct (type_eq (elem_type e) (type f)); unfold alloc;
      cbn [mbind option_bind option_list]; rewrite Hlen', Hsib.
    + destruct (Nat.eqb_spec i 0) as [->|Hi0].
      * rewrite modify_Some by (cbn; rewrite length_app; lia). state_eq.
      * rewrite prev_sibling_at_pos by (done || lia). cbn [mbind option_bind].
        rewrite modify_Some by (cbn; rewrite length_app; lia). state_eq.
    + rewrite modify_Some by (cbn; rewrite length_app; lia).
      cbn [mbind option_bind deletions set_fibers]. rewrite Hdel.
      cbn [mbind option_bind].
      destruct (Nat.eqb_spec i 0) as [->|Hi0].
      * rewrite modify_Some by (cbn; rewrite length_alter, length_app; lia). state_eq.
      * rewrite prev_sibling_at_pos by (done || lia). cbn [mbind option_bind].
        rewrite modify_Some by (cbn; rewrite length_alter, length_app; lia). state_eq.
  - (* an element and no old fiber *)
    assert (child_truthy e = true) as Ht by (by eapply Forall_lookup_1 in Htruthy).
    pose proof (lookup_lt_Some _ _ _ He) as Hin.
    assert (old_at s0 olds i = None) as Hoa.
    { unfold old_at. by rewrite Ho. }
    assert (olds !! S i = None) as HoS.
    { apply lookup_ge_None. apply lookup_ge_None in Ho. lia. }
    rewrite (prev_sibling_at_S_lt i) by done. rewrite HoS.
    cbn [mbind option_bind]. rewrite Ht. cbn [mbind option_bind].
    assert (length (fibers s) = length (fibers s0) + i) as Hlen' by lia.
    unfold alloc; cbn [mbind option_bind option_list]; rewrite Hlen'.
    destruct (Nat.eqb_spec i 0) as [->|Hi0].
    + rewrite modify_Some by (cbn; rewrite length_app; lia). state_eq.
    + rewrite prev_sibling_at_pos by (done || lia). cbn [mbind option_bind].
      rewrite modify_Some by (cbn; rewrite length_app; lia). state_eq.
  - (* an old fiber and no element *)
    destruct (olds_deref _ _ Ho) as (f & Hf & Hsib).
    pose proof (inv_old _ _ _ _ _ _ _ _ Hinv _ _ _ Ho Hf) as Hfs.
    rewrite Nat.ltb_irrefl in Hfs. simpl in Hfs.
    pose proof (deref_lt _ _ _ Hfs) as Holt.
    apply lookup_ge_None in He.
    assert (same_type_at s0 els olds i = false) as Hst.
    { unfold same_type_at. by rewrite (proj2 (lookup_ge_None _ _) He). }
    rewrite (prev_sibling_at_S_ge i) by done. rewrite Hst.
    cbn [mbind option_bind]. rewrite Hfs. cbn [mbind option_bind].
    rewrite modify_Some by done.
    cbn [mbind option_bind deletions set_fibers]. rewrite Hdel, Hsib.
    cbn [mbind option_bind option_list].
    destruct (Nat.eqb_spec i 0) as [->|Hi0].
    + rewrite modify_Some by (cbn; rewrite length_alter; lia). state_eq.
    + state_eq.
  - apply lookup_ge_None in He, Ho. lia.
Qed.

Lemma reconciled_is_Some (k : nat) :
  k < length els -> is_Some (reconciled s0 wip els olds k).
Proof.
  intros Hk. unfold reconciled.
  destruct (lookup_lt_is_Some_2 _ _ Hk) as [e ->]. by eexists.
Qed.

Lemma reconciled_None (k : nat) :
  length els <= k -> reconciled s0 wip els olds k = None.
Proof.
  intros Hk. unfold reconciled. by rewrite (proj2 (lookup_ge_None _ _) Hk).
Qed.

Lemma reconciled_unlinked (k : nat) (nf : Fiber) :
  reconciled s0 wip els olds k = Some nf -> with_sibling None nf = nf.
Proof.
  unfold reconciled. intros Hnf.
  destruct (els !! k) as [e|]; simplify_eq/=.
  repeat case_match; done.
Qed.

Lemma alter_lookup_decide (g : Fiber -> Fiber) (t r : nat) (h : list Fiber) :
  alter g t h !! r = (if decide (t = r) then g else id) <$> h !! r.
Proof.
  case_decide as Htr.
  - subst. apply list_lookup_alter_eq.
  - rewrite list_lookup_alter_ne by done. by destruct (h !! r).
Qed.

Lemma step_fibers_lookup (i : nat) (h : list Fiber) (r : nat) :
  step_fibers s0 wip els olds i h !! r =
    (if decide (i = 0 /\ r = wip)
     then with_child (if decide (i < length els) then Some (length (fibers s0) + i) else None)
     else if decide (i <> 0 /\ i < length els /\ r = length (fibers s0) + i - 1)
          then with_sibling (Some (length (fibers s0) + i))
          else id)
    <$> ((if decide (olds !! i = Some r /\ same_type_at s0 els olds i = false)
          then with_effectTag (Some DELETION) else id)
    <$> (h ++ option_list (reconciled s0 wip els olds i)) !! r).
Proof.
  unfold step_fibers.
  set (h1 := h ++ option_list (reconciled s0 wip els olds i)).
  assert (match olds !! i with
          | Some o => if same_type_at s0 els olds i then h1
                      else alter (with_effectTag (Some DELETION)) o h1
          | None => h1
          end !! r =
          (if decide (olds !! i = Some r /\ same_type_at s0 els olds i = false)
           then with_effectTag (Some DELETION) else id) <$> h1 !! r) as Htag.
  { destruct (olds !! i) as [o|]; [destruct (same_type_at s0 els olds i)|].
    - rewrite decide_False by (by intros [_ ?]). by destruct (h1 !! r).
    - rewrite alter_lookup_decide.
      destruct (decide (o = r)) as [->|Hne].
      + by rewrite decide_True.
      + rewrite decide_False; [done|]. intros [? _]. congruence.
    - rewrite decide_False by (by intros [? _]). by destruct (h1 !! r). }
  destruct (Nat.eqb_spec i 0) as [->|Hi0].
  - rewrite alter_lookup_decide, Htag.
    destruct (decide (0 <> 0 /\ 0 < length els /\ r = length (fibers s0) + 0 - 1))
      as [[? _]|_]; [done|].
    assert ((if decide (0 < length els) then Some (length (fibers s0) + 0) else None) =
            match reconciled s0 wip els olds 0 with
            | Some _ => Some (length (fibers s0) + 0)
            | None => None
            end) as ->.
    { destruct (decide (0 < length els)) as [Hn|Hn].
      - by destruct (reconciled_is_Some _ Hn) as [nf ->].
      - by rewrite reconciled_None by lia. }
    destruct (decide (wip = r)) as [Heq|Hne];
      destruct (decide (0 = 0 /\ r = wip)) as [[_ ?]|Hn];
      first [done | congruence | exfalso; apply Hn; by split].
  - destruct (decide (i = 0 /\ r = wip)) as [[? _]|_]; [done|].
    destruct (decide (i < length els)) as [Hn|Hn].
    + destruct (reconciled_is_Some _ Hn) as [nf Hnf]. rewrite Hnf.
      rewrite alter_lookup_decide, Htag.
      destruct (decide (length (fibers s0) + i - 1 = r)) as [<-|Hne];
        destruct (decide (i <> 0 /\ i < length els /\ _)) as [(_ & _ & ?)|Hn'];
        first [done | congruence | exfalso; apply Hn'; by split_and!].
    + rewrite reconciled_None by lia. rewrite Htag.
      destruct (decide (i <> 0 /\ i < length els /\ _)) as [(_ & ? & _)|_]; [done|].
      by destruct (_ <$> h1 !! r).
Qed.

Lemma with_sibling_twice (a b : option nat) (f : Fiber) :
  with_sibling a (with_sibling b f) = with_sibling a f.
Proof. done. Qed.

Lemma reconcile_inv_step (i : nat) (s : State) :
  reconcile_inv s0 wip w els olds ds i s ->
  i < length els \/ i < length olds ->
  reconcile_inv s0 wip w els olds ds (S i) (step_state s0 wip els olds ds i s).
Proof.
  intros [Hlen Hnew Hold Hdel Hw Hframe Hglob] Hgo.
  pose proof (deref_lt _ _ _ Hwip) as Hwlt.
  unfold step_state.
  split; unfold deref; cbn [fibers set_fibers set_deletions deletions].
  - (* the length of the store *)
    unfold step_fibers.
    assert (length (fibers s ++ option_list (reconciled s0 wip els olds i)) =
            length (fibers s0) + S i `min` length els) as Hl1.
    { rewrite length_app, Hlen.
      destruct (decide (i < length els)) as [Hi|Hi].
      - destruct (reconciled_is_Some _ Hi) as [nf ->]. simpl. lia.
      - rewrite reconciled_None by lia. simpl. lia. }
    repeat case_match; rewrite ?length_alter; done.
  - (* the new fibers *)
    intros k nf Hk Hnf. rewrite step_fibers_lookup.
    destruct (decide (i = 0 /\ length (fibers s0) + k = wip)) as [[_ ?]|_]; [lia|].
    destruct (decide (olds !! i = Some (length (fibers s0) + k) /\ _)) as [[Ho _]|_].
    { apply olds_lt in Ho. lia. }
    destruct (decide (k = i)) as [->|Hki].
    + rewrite lookup_app_r by lia. rewrite Hlen.
      replace (length (fibers s0) + i - (length (fibers s0) + i `min` length els))
        with 0 by lia.
      rewrite Hnf.
      destruct (decide (i <> 0 /\ i < length els /\ _)) as [(_ & _ & ?)|_]; [lia|].
      replace (S i <? S i `min` length els)%nat with false
        by (symmetry; apply Nat.ltb_ge; lia).
      simpl. f_equal. symmetry. by eapply reconciled_unlinked.
    + rewrite lookup_app_l by lia.
      rewrite (Hnew k nf) by (done || lia).
      destruct (decide (i <> 0 /\ i < length els /\ _)) as [(Hi0 & Hin & Heq)|Hn'].
      * assert (S k = i) as <- by lia.
        replace (S k <? S (S k) `min` length els)%nat with true
          by (symmetry; apply Nat.ltb_lt; lia).
        simpl. by rewrite with_sibling_twice.
      * simpl. do 3 f_equal.
        destruct (Nat.ltb_spec (S k) (i `min` length els));
          destruct (Nat.ltb_spec (S k) (S i `min` length els)); try done; try lia.
  - (* the old fibers *)
    intros j o f Ho Hf. rewrite step_fibers_lookup.
    pose proof (olds_lt _ _ Ho) as Holt. pose proof (olds_not_wip _ _ Ho) as Hne.
    destruct (decide (i = 0 /\ o = wip)) as [[_ ?]|_]; [done|].
    destruct (decide (i <> 0 /\ i < length els /\ _)) as [(? & _ & ?)|_]; [lia|].
    rewrite lookup_app_l by lia.
    specialize (Hold j o f Ho Hf). unfold deref in Hold. rewrite Hold.
    destruct (decide (olds !! i = Some o /\ _)) as [[Hoi Hst]|Hn']; simpl; f_equal.
    + assert (i = j) as -> by (by eapply olds_inj).
      rewrite Nat.ltb_irrefl, Hst.
      replace (j <? S j)%nat with true by (symmetry; apply Nat.ltb_lt; lia). done.
    + destruct (decide (i = j)) as [->|Hij].
      * rewrite Nat.ltb_irrefl.
        destruct (same_type_at s0 els olds j) eqn:Hst; [simpl; by rewrite andb_false_r|].
        exfalso. by apply Hn'.
      * replace (j <? S i)%nat with (j <? i)%nat; [done|].
        destruct (Nat.ltb_spec j i); destruct (Nat.ltb_spec j (S i)); try done; lia.
  - done.
  - (* the parent *)
    rewrite step_fibers_lookup.
    destruct (decide (olds !! i = Some wip /\ _)) as [[Ho _]|_].
    { by apply olds_not_wip in Ho. }
    destruct (decide (i <> 0 /\ i < length els /\ _)) as [(? & _ & ?)|_]; [lia|].
    rewrite lookup_app_l by lia. unfold deref in Hw. rewrite Hw.
    replace (S i =? 0)%nat with false by (symmetry; by apply Nat.eqb_neq).
    destruct (decide (i = 0 /\ wip = wip)) as [[-> _]|Hn']; simpl; f_equal.
    + rewrite Nat.add_0_r.
      destruct (decide (0 < length els)); destruct (Nat.ltb_spec 0 (length els));
        done || lia.
    + replace (i =? 0)%nat with false; [done|].
      symmetry. apply Nat.eqb_neq. intros ->. by apply Hn'.
  - (* the other fibers *)
    intros r Hr Hrw Hro. rewrite step_fibers_lookup.
    destruct (decide (i = 0 /\ r = wip)) as [[_ ?]|_]; [done|].
    destruct (decide (i <> 0 /\ i < length els /\ _)) as [(? & _ & ?)|_]; [lia|].
    destruct (decide (olds !! i = Some r /\ _)) as [[Ho _]|_].
    { exfalso. apply Hro. by eapply list_elem_of_lookup_2. }
    rewrite lookup_app_l by lia. rewrite (Hframe r) by done.
    by destruct (fibers s0 !! r).
  - apply Hglob.
Qed.

Lemma loop_condition (i : nat) :
  (i <? length els)%nat || bool_decide (is_Some (olds !! i)) = true <->
  i < length els \/ i < length olds.
Proof.
  rewrite orb_true_iff, Nat.ltb_lt, bool_decide_eq_true, lookup_lt_is_Some. done.
Qed.

Lemma reconcile_loop_inv (fuel i : nat) (s : State) :
  reconcile_inv s0 wip w els olds ds i s ->
  length els `max` length olds - i <= fuel ->
  exists s',
    reconcile_loop fuel wip els i (olds !! i) (prev_sibling_at s0 els i) s = Some s' /\
    reconcile_inv s0 wip w els olds ds (i `max` (length els `max` length olds)) s'.
Proof.
  revert i s. induction fuel as [|fuel IH]; intros i s Hinv Hfuel.
  - exists s. simpl.
    destruct ((i <? length els)%nat || bool_decide (is_Some (olds !! i))) eqn:Hc.
    { apply loop_condition in Hc. lia. }
    split; [done|]. by replace (i `max` (length els `max` length olds)) with i by lia.
  - cbn [reconcile_loop].
    destruct ((i <? length els)%nat || bool_decide (is_Some (olds !! i))) eqn:Hc.
    + apply loop_condition in Hc.
      rewrite (reconcile_step_computes i s Hinv Hc). cbn [mbind option_bind].
      destruct (IH (S i) _ (reconcile_inv_step i s Hinv Hc)) as (s' & Hs' & Hinv'); [lia|].
      exists s'. split; [done|].
      by replace (i `max` (length els `max` length olds))
        with (S i `max` (length els `max` length olds)) by lia.
    + exists s. split; [done|].
      assert (~ (i < length els \/ i < length olds)) as Hn.
      { intros H. apply loop_condition in H. congruence. }
      by replace (i `max` (length els `max` length olds)) with i by lia.
Qed.

Lemma olds_length : length olds <= length (fibers s0).
Proof.
  pose proof (sibling_chain_NoDup _ _ _ Hchain) as Hnd.
  assert (length olds <= length (seq 0 (length (fibers s0)))) as Hle.
  { apply submseteq_length, NoDup_submseteq; [done|].
    intros o Ho. apply list_elem_of_lookup_1 in Ho as [j Hj].
    apply elem_of_seq. pose proof (olds_lt _ _ Hj). lia. }
  by rewrite length_seq in Hle.
Qed.

End ReconcileLoop.

(** ** What [reconcileChildren] does *)

Lemma old_children_chain (s : State) (w : Fiber) (olds : list nat) :
  old_children s w olds ->
  sibling_chain (fibers s) (olds !! 0) olds /\
  match alternate w with
  | None => Some None
  | Some a => af ← deref s a; Some (child af)
  end = Some (olds !! 0).
Proof.
  unfold old_children. destruct (alternate w) as [a|].
  - intros (af & -> & Hch). destruct (sibling_chain_lookup _ _ _ Hch) as [Heq _].
    rewrite <- Heq. done.
  - intros ->. split; [constructor|done].
Qed.

Lemma reconcileChildren_inv (s : State) (wip : nat) (w : Fiber) (els : list Child)
    (olds ds : list nat) :
  deref s wip = Some w ->
  old_children s w olds ->
  wip ∉ olds ->
  Forall (fun c => child_truthy c = true) els ->
  deletions s = Some ds ->
  exists s',
    reconcileChildren wip els s = Some s' /\
    reconcile_inv s wip w els olds ds (length els `max` length olds) s'.
Proof.
  intros Hw Hold Hfresh Htruthy Hds.
  destruct (old_children_chain _ _ _ Hold) as [Hch Hstart].
  unfold reconcileChildren. rewrite Hw. cbn [mbind option_bind].
  rewrite Hstart. cbn [mbind option_bind].
  pose proof (olds_length s olds Hch) as Hm.
  destruct (reconcile_loop_inv s wip w els olds ds Hw Hch Hfresh Htruthy
              (length els + length (fibers s)) 0 s) as (s' & Hs' & Hinv).
  - by apply reconcile_inv_init.
  - lia.
  - exists s'. split; [done|]. done.
Qed.

Lemma reconcile_inv_chain (s0 : State) (wip : nat) (w : Fiber) (els : list Child)
    (olds ds : list nat) (s' : State) :
  reconcile_inv s0 wip w els olds ds (length els `max` length olds) s' ->
  sibling_chain (fibers s')
    (if (0 <? length els)%nat then Some (length (fibers s0)) else None)
    (seq (length (fibers s0)) (length els)).
Proof.
  intros Hinv.
  assert (forall d k, k + d = length els ->
            sibling_chain (fibers s')
              (if (k <? length els)%nat then Some (length (fibers s0) + k) else None)
              (seq (length (fibers s0) + k) d)) as Hgen.
  { induction d as [|d IH]; intros k Hk.
    - rewrite (proj2 (Nat.ltb_ge _ _)) by lia. constructor.
    - rewrite (proj2 (Nat.ltb_lt _ _)) by lia. simpl.
      destruct (reconciled_is_Some s0 wip els olds k) as [nf Hnf]; [lia|].
      econstructor.
      + apply (inv_new _ _ _ _ _ _ _ _ Hinv k nf); [lia|done].
      + simpl. replace ((length els `max` length olds) `min` length els)
          with (length els) by lia.
        specialize (IH (S k)). rewrite <- Nat.add_succ_r. apply IH. lia. }
  specialize (Hgen (length els) 0). rewrite Nat.add_0_r in Hgen. by apply Hgen.
Qed.

Lemma unmatched_ge (s0 : State) (els : list Child) (olds : list nat) (i : nat) :
  length olds <= i -> unmatched s0 els olds i = unmatched s0 els olds (length olds).
Proof.
  intros Hi. replace i with (length olds + (i - length olds)) by lia.
  generalize (i - length olds) as d. clear Hi.
  induction d as [|d IH].
  - by rewrite Nat.add_0_r.
  - rewrite Nat.add_succ_r. unfold unmatched in *.
    rewrite seq_S, flat_map_app, IH. simpl.
    rewrite (proj2 (lookup_ge_None _ _)) by lia. by rewrite !app_nil_r.
Qed.

Lemma elem_of_unmatched (s0 : State) (els : list Child) (olds : list nat) (i o : nat) :
  o ∈ unmatched s0 els olds i <->
  exists k, k < i /\ olds !! k = Some o /\ same_type_at s0 els olds k = false.
Proof.
  unfold unmatched. rewrite list_elem_of_In, in_flat_map. split.
  - intros (k & Hk & Hin). apply in_seq in Hk. exists k.
    destruct (olds !! k) as [o'|]; [|done].
    destruct (same_type_at s0 els olds k); [done|].
    destruct Hin as [->|[]]. split_and!; [lia|done..].
  - intros (k & Hk & Ho & Hst). exists k. split; [apply in_seq; lia|].
    rewrite Ho, Hst. by left.
Qed.

(** C3.  [reconcileChildren] pairs the elements and the children of the
    alternate by position.  On a list of truthy entries it returns, having
    made one new fiber per element, chained under the parent in order, and:
    where the element and the old fiber have equal types the new fiber is an
    UPDATE that keeps the type and dom of the old fiber, takes the props of
    the element and has the old fiber as alternate, the old fiber being left
    as it was; where the element finds no old fiber of its type the new
    fiber is a PLACEMENT with no dom and no alternate; where the old fiber
    finds no element of its type it is tagged DELETION and is the alternate
    of no new fiber, and these old fibers are appended, in order, to the
    pending deletions. *)
Theorem reconcileChildren_by_position (s : State) (wip : nat) (w : Fiber)
    (els : list Child) (olds ds : list nat) :
  deref s wip = Some w ->
  old_children s w olds ->
  wip ∉ olds ->
  Forall (fun c => child_truthy c = true) els ->
  deletions s = Some ds ->
  exists s' w',
    reconcileChildren wip els s = Some s' /\
    length (fibers s') = length (fibers s) + length els /\
    deref s' wip = Some w' /\ w' = with_child (child w') w /\
    (length els + length olds <> 0 -> child w' = head (seq (length (fibers s)) (length els))) /\
    sibling_chain (fibers s') (head (seq (length (fibers s)) (length els)))
      (seq (length (fibers s)) (length els)) /\
    (forall k e o f,
       els !! k = Some e -> olds !! k = Some o -> deref s o = Some f ->
       type_eq (elem_type e) (type f) = true ->
       deref s' o = Some f /\
       exists nf, deref s' (length (fibers s) + k) = Some nf /\
         effectTag nf = Some UPDATE /\ dom nf = dom f /\ props nf = elem_props e /\
         alternate nf = Some o /\ type nf = type f /\ parent nf = Some wip) /\
    (forall k e,
       els !! k = Some e -> same_type_at s els olds k = false ->
       exists nf, deref s' (length (fibers s) + k) = Some nf /\
         effectTag nf = Some PLACEMENT /\ dom nf = None /\ alternate nf = None /\
         type nf = elem_type e /\ props nf = elem_props e /\ parent nf = Some wip) /\
    (forall k o f,
       olds !! k = Some o -> deref s o = Some f -> same_type_at s els olds k = false ->
       deref s' o = Some (with_effectTag (Some DELETION) f) /\
       o ∈ unmatched s els olds (length olds) /\
       forall r nf, deref s' r = Some nf -> length (fibers s) <= r -> alternate nf <> Some o) /\
    deletions s' = Some (ds ++ unmatched s els olds (length olds)).
Proof.
  intros Hw Hold Hfresh Htruthy Hds.
  destruct (reconcileChildren_inv _ _ _ _ _ _ Hw Hold Hfresh Htruthy Hds) as (s' & Hs' & Hinv).
  destruct (old_children_chain _ _ _ Hold) as [Hch _].
  pose proof Hinv as [Hlen Hnew Holds Hdel Hwip Hframe Hglob].
  set (N := length els `max` length olds) in *.
  replace (N `min` length els) with (length els) in * by lia.
  eexists s', _. split_and!.
  - done.
  - done.
  - apply Hwip.
  - by destruct (N =? 0)%nat, w.
  - intros Hne. replace (N =? 0)%nat with false by (symmetry; apply Nat.eqb_neq; lia).
    simpl. by destruct els.
  - pose proof (reconcile_inv_chain _ _ _ _ _ _ _ Hinv) as Hc.
    by destruct els.
  - intros k e o f He Ho Hf Hty.
    assert (same_type_at s els olds k = true) as Hst.
    { unfold same_type_at, old_at. rewrite He, Ho. simpl. by rewrite Hf. }
    split.
    + rewrite (Holds k o f Ho Hf), Hst. by rewrite andb_false_r.
    + pose proof (lookup_lt_Some _ _ _ He) as Hk.
      eexists. split.
      * apply (Hnew k); [done|]. unfold reconciled, old_at. rewrite He, Ho. simpl.
        rewrite Hf, Hty. done.
      * done.
  - intros k e He Hst.
    pose proof (lookup_lt_Some _ _ _ He) as Hk.
    destruct (reconciled_is_Some s wip els olds k Hk) as [nf Hnf].
    exists (with_sibling (if (S k <? length els)%nat
                          then Some (length (fibers s) + S k) else None) nf).
    split; [by apply Hnew|].
    unfold reconciled, same_type_at in *. rewrite He in *. simpl in *.
    destruct (olds !! k) as [o|]; [|by simplify_eq].
    destruct (old_at s olds k) as [f|]; [|by simplify_eq].
    rewrite Hst in Hnf. by simplify_eq.
  - intros k o f Ho Hf Hst. split_and!.
    + rewrite (Holds k o f Ho Hf), Hst.
      replace (k <? N)%nat with true; [done|].
      symmetry. apply Nat.ltb_lt. apply lookup_lt_Some in Ho. lia.
    + apply elem_of_unmatched. exists k. split_and!; try done. by eapply lookup_lt_Some.
    + intros r nf Hr Hge Halt.
      pose proof (deref_lt _ _ _ Hr) as Hrlt. rewrite Hlen in Hrlt.
      destruct (reconciled_is_Some s wip els olds (r - length (fibers s))) as [nf' Hnf'];
        [lia|].
      pose proof (Hnew (r - length (fibers s)) nf') as Hlook.
      replace (length (fibers s) + (r - length (fibers s))) with r in Hlook by lia.
      unfold deref in Hr. rewrite Hlook in Hr by (done || lia). simplify_eq.
      unfold reconciled, same_type_at in *.
      destruct (els !! (r - length (fibers s))) as [e|] eqn:He; simplify_eq/=.
      destruct (olds !! (r - length (fibers s))) as [o'|] eqn:Ho'; simplify_eq/=.
      destruct (old_at s olds (r - length (fibers s))) as [f'|] eqn:Hf'; simplify_eq/=.
      destruct (type_eq (elem_type e) (type f')) eqn:Hty; simplify_eq/=.
      assert (r - length (fibers s) = k) as <-.
      { eapply (olds_inj s olds Hch); done. }
      rewrite He, Hf', Hty in Hst. done.
  - rewrite Hdel. unfold N. by rewrite unmatched_ge by lia.
Qed.

(** * The element model *)

Lemma createElement_children (ty : EType) (props : option Props) (cs : list Child) :
  elem_props (createElement ty props cs) ≫= children = Some (map coerce_child cs).
Proof. reflexivity. Qed.

(** An array among the children is not an element, yet [createElement]
    hands it on as it is instead of making a text element of it: it is not
    true that every child that is not an element is coerced. *)
Lemma createElement_keeps_arrays :
  ~ (forall (ty : EType) (props : option Props) (cs : list Child) (i : nat) (c : Child),
       cs !! i = Some c -> (forall t p, c <> Elem t p) ->
       exists cs' text,
         elem_props (createElement ty props cs) ≫= children = Some cs' /\
         cs' !! i = Some (createTextElement text)).
Proof.
  intros H.
  destruct (H (THost "ul") None [Arr [createElement (THost "li") None []]] 0
              (Arr [createElement (THost "li") None []]))
    as (cs' & text & Hcs & Hi); [done|done|].
  simpl in Hcs. simplify_eq.
Qed.

(** C9 (amended).  [createElement] keeps the number and order of its
    children; a child whose [typeof] is not ["object"] becomes a text
    element holding it as [nodeValue], with no children; a child that is an
    element or an array is handed on unchanged. *)
Theorem createElement_coerces_children (ty : EType) (props : option Props)
    (cs : list Child) (i : nat) (c : Child) :
  cs !! i = Some c ->
  exists cs',
    elem_type (createElement ty props cs) = Some ty /\
    elem_props (createElement ty props cs) ≫= children = Some cs' /\
    length cs' = length cs /\
    (child_is_object c = false ->
       exists v, c = Prim v /\
         cs' !! i = Some (Elem (THost "TEXT_ELEMENT")
                            (mkProps [("nodeValue", v)] (Some [])))) /\
    ((exists t p, c = Elem t p) \/ (exists items, c = Arr items) -> cs' !! i = Some c).
Proof.
  intros Hc. exists (map coerce_child cs). split_and!; try done.
  - apply length_map.
  - intros Hobj. destruct c as [t p|items|v]; try discriminate.
    exists v. split; [done|].
    change (map coerce_child cs) with (coerce_child <$> cs).
    rewrite list_lookup_fmap, Hc. simpl in *. by rewrite Hobj.
  - intros Hkind.
    change (map coerce_child cs) with (coerce_child <$> cs).
    rewrite list_lookup_fmap, Hc.
    by destruct Hkind as [(t & p & ->)|(items & ->)].
Qed.

Lemma createElement_coerces_children_witness :
  exists cs',
    elem_type (createElement (THost "p") None [Prim (VStr "hi"); Arr []]) = Some (THost "p") /\
    elem_props (createElement (THost "p") None [Prim (VStr "hi"); Arr []]) ≫= children
      = Some cs' /\
    length cs' = 2 /\
    (child_is_object (Prim (VStr "hi")) = false ->
       exists v, Prim (VStr "hi") = Prim v /\
         cs' !! 0 = Some (Elem (THost "TEXT_ELEMENT")
                            (mkProps [("nodeValue", v)] (Some [])))) /\
    ((exists t p, Prim (VStr "hi") = Elem t p) \/ (exists items, Prim (VStr "hi") = Arr items) ->
       cs' !! 0 = Some (Prim (VStr "hi"))).
Proof.
  apply (createElement_coerces_children (THost "p") None [Prim (VStr "hi"); Arr []] 0).
  reflexivity.
Defined.

(** * The state hook store and the entry points *)

Lemma fold_left_replay (actions : list Action) (st : Val) :
  fold_left (fun st action => action st) actions st = replay actions st.
Proof. revert st. induction actions as [|a l IH]; intros st; [done|apply IH]. Qed.

Lemma deref_alloc_old (f : Fiber) (s : State) (r : nat) (g : Fiber) :
  deref s r = Some g -> deref (alloc f s).2 r = Some g.
Proof.
  intros Hr. unfold deref, alloc. simpl. rewrite lookup_app_l; [done|]. by eapply lookup_lt_Some.
Qed.

Lemma deref_alloc_new (f : Fiber) (s : State) :
  deref (alloc f s).2 (alloc f s).1 = Some f.
Proof.
  unfold deref, alloc. simpl. rewrite lookup_app_r by done. by rewrite Nat.sub_diag.
Qed.

Lemma alternate_hook_computes (s : State) (w : nat) (f : Fiber) :
  wipFiber s = Some w -> deref s w = Some f -> alternate_ok s f ->
  match alternate f with
  | None => Some None
  | Some a =>
      af ← deref s a;
      match hooks af with
      | None => Some None
      | Some hs =>
          match hs !! hookIndex s with
          | None => Some None
          | Some r => h ← hookStore s !! r; Some (Some h)
          end
      end
  end = Some (alternate_hook s).
Proof.
  intros Hw Hf Hok. unfold alternate_hook. rewrite Hw. simpl. rewrite Hf. simpl.
  destruct (alternate f) as [a|] eqn:Ha; [|done].
  destruct (Hok a Ha) as (af & Haf & Hhooks). simpl. rewrite Haf. simpl.
  destruct (hooks af) as [hs|] eqn:Hhs; [|done]. simpl.
  destruct (hs !! hookIndex s) as [r|] eqn:Hr; [|done]. simpl.
  destruct (Hhooks hs r) as [h ->]; done.
Qed.

Lemma useState_computes (initial : Val) (s : State) (w : nat) (f : Fiber) (hs : list nat) :
  wipFiber s = Some w -> deref s w = Some f -> hooks f = Some hs ->
  alternate_ok s f ->
  useState initial s =
    Some (replay (pending s) (baseline initial s), length (hookStore s),
          set_hookIndex (S (hookIndex s))
            (set_fibers (alter (with_hooks (Some (hs ++ [length (hookStore s)]))) w (fibers s))
               (set_hookStore
                  (hookStore s ++ [mkHook (replay (pending s) (baseline initial s)) []]) s))).
Proof.
  intros Hw Hf Hhs Hok.
  unfold useState. rewrite Hw. cbn [mbind option_bind]. rewrite Hf. cbn [mbind option_bind].
  rewrite (alternate_hook_computes s w f Hw Hf Hok). cbn [mbind option_bind].
  rewrite Hhs. cbn [mbind option_bind].
  rewrite modify_Some by (simpl; apply (deref_lt _ _ _ Hf)).
  cbn [mbind option_bind]. rewrite fold_left_replay. reflexivity.
Qed.

(** C2.  In a function component under processing, [useState(initial)]
    returns the pending actions of the alternate's hook at the same
    position replayed in queue order against its state, or [initial] when
    the alternate has no such hook, and stores it as the next hook of the
    fiber with an empty queue; the component that starts from 0 and whose
    setter is called with [(c) => c + 1] once after each render shows the
    states 1, 2 and 3 in its three re-renders. *)
Theorem useState_replays_pending :
  (forall (initial : Val) (s : State) (w : nat) (f : Fiber) (hs : list nat),
     wipFiber s = Some w -> deref s w = Some f -> hooks f = Some hs ->
     alternate_ok s f ->
     exists s',
       useState initial s =
         Some (replay (pending s) (baseline initial s), length (hookStore s), s') /\
       hookStore s' !! length (hookStore s) =
         Some (mkHook (replay (pending s) (baseline initial s)) []) /\
       deref s' w ≫= hooks = Some (hs ++ [length (hookStore s)]) /\
       hookIndex s' = S (hookIndex s)) /\
  counter_states = [Some (VNum 0); Some (VNum 1); Some (VNum 2); Some (VNum 3)].
Proof.
  split; [|by vm_compute].
  intros initial s w f hs Hw Hf Hhs Hok.
  rewrite (useState_computes initial s w f hs Hw Hf Hhs Hok).
  eexists. split_and!.
  - reflexivity.
  - cbn. rewrite lookup_app_r by done. by rewrite Nat.sub_diag.
  - unfold deref. cbn. rewrite list_lookup_alter_eq. unfold deref in Hf. rewrite Hf.
    cbn. done.
  - done.
Qed.

Lemma useState_replays_pending_witness :
  exists s',
    useState (VNum 0) mid_render = Some (VNum 7, 1, s') /\
    hookStore s' !! 1 = Some (mkHook (VNum 7) []) /\
    deref s' 1 ≫= hooks = Some [1] /\
    hookIndex s' = 1.
Proof.
  destruct (proj1 useState_replays_pending (VNum 0) mid_render 1
              (mkFiber (Some (TFun 0)) (Some (mkProps [] (Some []))) None None None None
                 (Some 0) (Some UPDATE) (Some [])) [])
    as (s' & H1 & H2 & H3 & H4).
  - reflexivity.
  - reflexivity.
  - reflexivity.
  - intros a Ha. injection Ha as <-. eexists. split; [reflexivity|].
    intros hs r Hhs Hr. injection Hhs as <-.
    destruct r as [|r]; [by eexists|]. discriminate Hr.
  - exists s'. split_and!; [exact H1|exact H2|exact H3|exact H4].
Defined.

(** C8.  [render] and the setter returned by [useState] both leave the
    pending deletions empty and the new root, which is also the next unit of
    work, without children: no fiber was reconciled yet, and none besides
    the new root was made or changed. *)
Theorem render_and_setState_reset_deletions :
  (forall (element : Child) (container : nat) (s : State),
     let s' := render element container s in
     deletions s' = Some [] /\
     wipRoot s' = Some (length (fibers s)) /\
     nextUnitOfWork s' = Some (length (fibers s)) /\
     (exists root, fibers s' = fibers s ++ [root] /\ child root = None /\
        alternate root = currentRoot s)) /\
  (forall (hook : nat) (action : Action) (s s' : State),
     setState hook action s = Some s' ->
     deletions s' = Some [] /\
     wipRoot s' = Some (length (fibers s)) /\
     nextUnitOfWork s' = Some (length (fibers s)) /\
     (exists root, fibers s' = fibers s ++ [root] /\ child root = None /\
        alternate root = currentRoot s)).
Proof.
  split.
  - intros element container s. cbn. split_and!; try done. by eexists.
  - intros hook action s s' Hs. unfold setState in Hs.
    destruct (hookStore s !! hook) as [h|]; simplify_eq/=.
    destruct (currentRoot s) as [c|] eqn:Hc; simplify_eq/=.
    destruct (deref _ c) as [cf|] eqn:Hcf; simplify_eq/=.
    split_and!; try done. by eexists.
Qed.

(** * The work scheduler *)

(** ** What rendering keeps *)

Lemma same_identity_refl (f : Fiber) : same_identity f f.
Proof. by repeat split. Qed.

Lemma fibers_kept_refl (s : State) : fibers_kept s s.
Proof. intros r f Hf. exists f. split_and!; first [done | apply same_identity_refl]. Qed.

Lemma fibers_kept_trans (s1 s2 s3 : State) :
  fibers_kept s1 s2 -> fibers_kept s2 s3 -> fibers_kept s1 s3.
Proof.
  intros H12 H23 r f Hf.
  destruct (H12 r f Hf) as (f2 & Hf2 & (? & ? & ? & ?) & ?).
  destruct (H23 r f2 Hf2) as (f3 & Hf3 & (? & ? & ? & ?) & ?).
  exists f3. unfold same_identity. split_and!; congruence.
Qed.

Lemma fibers_kept_same (s s' : State) : fibers s' = fibers s -> fibers_kept s s'.
Proof.
  intros Heq r f Hf. exists f. unfold deref in *. rewrite Heq.
  split_and!; first [done | apply same_identity_refl].
Qed.

Lemma fibers_kept_alloc (f : Fiber) (s : State) : fibers_kept s (alloc f s).2.
Proof.
  intros r g Hg. exists g.
  split_and!; first [done | by apply deref_alloc_old | apply same_identity_refl].
Qed.

Lemma fibers_kept_modify (r : nat) (g : Fiber -> Fiber) (s s' : State) :
  (forall f, same_identity f (g f) /\ dom (g f) = dom f) ->
  modify r g s = Some s' -> fibers_kept s s'.
Proof.
  intros Hg Hm r' f Hf. unfold modify in Hm.
  destruct (deref s r) as [fr|] eqn:Hr; simplify_eq/=.
  unfold deref in *. simpl.
  destruct (decide (r = r')) as [->|Hne].
  - rewrite list_lookup_alter_eq, Hf. simpl. eexists. split; [done|]. apply Hg.
  - rewrite list_lookup_alter_ne by done. exists f.
    split_and!; first [done | apply same_identity_refl].
Qed.

Lemma same_globals_refl (s : State) : same_globals s s.
Proof. by repeat split. Qed.

Lemma same_globals_trans (s1 s2 s3 : State) :
  same_globals s1 s2 -> same_globals s2 s3 -> same_globals s1 s3.
Proof. unfold same_globals. intros ? ?. split_and!; destruct_and!; congruence. Qed.

Lemma modify_inv (r : nat) (g : Fiber -> Fiber) (s s' : State) :
  modify r g s = Some s' ->
  r < length (fibers s) /\ s' = set_fibers (alter g r (fibers s)) s.
Proof.
  unfold modify. destruct (deref s r) as [f|] eqn:Hf; [|done].
  intros [= <-]. split; [by eapply deref_lt|done].
Qed.

Lemma with_child_identity (c : option nat) (f : Fiber) :
  same_identity f (with_child c f) /\ dom (with_child c f) = dom f.
Proof. by repeat split. Qed.

Lemma with_sibling_identity (c : option nat) (f : Fiber) :
  same_identity f (with_sibling c f) /\ dom (with_sibling c f) = dom f.
Proof. by repeat split. Qed.

Lemma with_effectTag_identity (t : option EffectTag) (f : Fiber) :
  same_identity f (with_effectTag t f) /\ dom (with_effectTag t f) = dom f.
Proof. by repeat split. Qed.

Lemma with_hooks_identity (h : option (list nat)) (f : Fiber) :
  same_identity f (with_hooks h f) /\ dom (with_hooks h f) = dom f.
Proof. by repeat split. Qed.

Lemma step_ok_refl (wip : nat) (s : State) : step_ok wip 0 s s.
Proof.
  split_and!; [apply fibers_kept_refl|apply same_globals_refl|lia..|].
  intros r f Hf Hr. apply deref_lt in Hf. lia.
Qed.

Lemma step_ok_trans (wip n m : nat) (s1 s2 s3 : State) :
  step_ok wip n s1 s2 -> step_ok wip m s2 s3 -> step_ok wip (n + m) s1 s3.
Proof.
  intros (Hk1 & ? & ? & ? & Hp1) (Hk2 & ? & ? & ? & Hp2).
  split_and!; [by eapply fibers_kept_trans|by eapply same_globals_trans|lia..|].
  intros r f Hf Hr.
  destruct (decide (r < length (fibers s2))) as [Hlt|Hge].
  - destruct (lookup_lt_is_Some_2 _ _ Hlt) as [f2 Hf2].
    destruct (Hk2 r f2 Hf2) as (f3 & Hf3 & (_ & _ & Hpar & _) & _).
    rewrite Hf in Hf3. simplify_eq. rewrite Hpar. by eapply Hp1.
  - eapply Hp2; [done|lia].
Qed.

Lemma step_ok_le (wip n m : nat) (s s' : State) :
  n <= m -> step_ok wip n s s' -> step_ok wip m s s'.
Proof. intros ? (? & ? & ? & ? & ?). split_and!; [done..|lia|done]. Qed.

Lemma step_ok_alloc (wip : nat) (f : Fiber) (s : State) :
  parent f = Some wip -> step_ok wip 1 s (alloc f s).2.
Proof.
  intros Hp.
  split_and!; [apply fibers_kept_alloc|by repeat split|..].
  - unfold alloc; simpl; rewrite length_app; simpl; lia.
  - unfold alloc; simpl; rewrite length_app; simpl; lia.
  - intros r g Hg Hr. unfold deref, alloc in Hg. simpl in Hg.
    rewrite lookup_app_r in Hg by done.
    destruct (r - length (fibers s)) as [|d]; simpl in Hg; by simplify_eq.
Qed.

Lemma step_ok_modify (wip r : nat) (g : Fiber -> Fiber) (s s' : State) :
  (forall f, same_identity f (g f) /\ dom (g f) = dom f) ->
  modify r g s = Some s' -> step_ok wip 0 s s'.
Proof.
  intros Hg Hm. split_and!; [by eapply fibers_kept_modify|..];
    apply modify_inv in Hm as [_ ->]; [by repeat split|..].
  - simpl; rewrite length_alter; lia.
  - simpl; rewrite length_alter; lia.
  - intros r' f Hf Hr. apply deref_lt in Hf. simpl in Hf. rewrite length_alter in Hf. lia.
Qed.

Lemma step_ok_set_deletions (wip : nat) (d : option (list nat)) (s : State) :
  step_ok wip 0 s (set_deletions d s).
Proof.
  split_and!; [by apply fibers_kept_same|by repeat split|simpl; lia..|].
  intros r f Hf Hr. apply deref_lt in Hf. simpl in Hf. lia.
Qed.

(** One turn of the reconciler, whatever the state it starts from. *)
Lemma reconcile_step_keeps (wip : nat) (els : list Child) (i : nat)
    (old prev old' prev' : option nat) (s s' : State) :
  reconcile_step wip els i old prev s = Some (old', prev', s') ->
  step_ok wip (if (i <? length els)%nat then 1 else 0) s s'.
Proof.
  unfold reconcile_step. intros H.
  set (element := els !! i ≫= λ c, if child_truthy c then Some c else None) in H.
  assert (is_Some element -> (i <? length els)%nat = true) as Hel.
  { unfold element. intros [e He]. destruct (els !! i) eqn:Hi; [|done].
    apply Nat.ltb_lt. by eapply lookup_lt_Some. }
  destruct (match old with Some o => _ | None => Some None end) as [oldf|]; [|done].
  cbn [mbind option_bind] in H.
  match type of H with
  | (let '(_, _) := ?X in _) = _ => destruct X as [newFiber s1] eqn:H1
  end.
  apply bind_Some in H as (s2 & H2 & H).
  apply bind_Some in H as (s3 & H3 & H). simplify_eq.
  assert (step_ok wip (if (i <? length els)%nat then 1 else 0) s s1) as Hp1.
  { destruct oldf as [[o f]|], element as [e|];
      try destruct (type_eq (elem_type e) (type f));
      unfold alloc in H1; simpl in H1; simplify_eq;
      try (rewrite Hel by (by eexists));
      first [ by apply (step_ok_alloc wip _ s) | eapply step_ok_le, step_ok_refl; lia ]. }
  assert (step_ok wip 0 s1 s2) as Hp2.
  { destruct oldf as [[o f]|]; [|simplify_eq; apply step_ok_refl].
    destruct (match element with Some e => _ | None => false end);
      [simplify_eq; apply step_ok_refl|].
    apply bind_Some in H2 as (sa & Ha & H2).
    apply bind_Some in H2 as (dl & Hd & H2). simplify_eq.
    change 0 with (0 + 0). eapply step_ok_trans.
    - eapply step_ok_modify; [|done]. apply with_effectTag_identity.
    - apply step_ok_set_deletions. }
  assert (step_ok wip 0 s2 s') as Hp3.
  { destruct (i =? 0)%nat.
    - eapply step_ok_modify; [|done]. apply with_child_identity.
    - destruct element; [|simplify_eq; apply step_ok_refl].
      apply bind_Some in H3 as (p & Hp & H3).
      eapply step_ok_modify; [|done]. apply with_sibling_identity. }
  pose proof (step_ok_trans _ _ _ _ _ _ Hp1 (step_ok_trans _ _ _ _ _ _ Hp2 Hp3)) as Hall.
  eapply step_ok_le; [|done]. lia.
Qed.

Lemma reconcile_loop_keeps (fuel : nat) (wip : nat) (els : list Child) (i : nat)
    (old prev : option nat) (s s' : State) :
  reconcile_loop fuel wip els i old prev s = Some s' ->
  step_ok wip (length els - i) s s'.
Proof.
  revert i old prev s. induction fuel as [|fuel IH]; intros i old prev s H; simpl in H.
  - destruct (_ || _); [done|]. simplify_eq. eapply step_ok_le, step_ok_refl. lia.
  - destruct (_ || _); [|simplify_eq; eapply step_ok_le, step_ok_refl; lia].
    apply bind_Some in H as ([[old' prev'] s1] & Hstep & H).
    apply reconcile_step_keeps in Hstep. apply IH in H.
    pose proof (step_ok_trans _ _ _ _ _ _ Hstep H) as Hall.
    eapply step_ok_le; [|done].
    destruct (Nat.ltb_spec i (length els)); lia.
Qed.

Lemma reconcileChildren_keeps (wip : nat) (els : list Child) (s s' : State) :
  reconcileChildren wip els s = Some s' -> step_ok wip (length els) s s'.
Proof.
  unfold reconcileChildren. intros H.
  apply bind_Some in H as (w & Hw & H).
  apply bind_Some in H as (old & Hold & H).
  apply reconcile_loop_keeps in H. by rewrite Nat.sub_0_r in H.
Qed.

Lemma hooks_ok_refl (s : State) : hooks_ok s s.
Proof. split_and!; first [done | apply fibers_kept_refl]. Qed.

Lemma hooks_ok_trans (s1 s2 s3 : State) : hooks_ok s1 s2 -> hooks_ok s2 s3 -> hooks_ok s1 s3.
Proof.
  unfold hooks_ok. intros ? ?. destruct_and!.
  split_and!; first [by eapply fibers_kept_trans | congruence].
Qed.

Lemma useState_keeps (initial : Val) (s s' : State) (v : Val) (r : nat) :
  useState initial s = Some (v, r, s') -> hooks_ok s s'.
Proof.
  unfold useState. intros H.
  apply bind_Some in H as (w & Hw & H).
  apply bind_Some in H as (f & Hf & H).
  apply bind_Some in H as (oldHook & Hold & H).
  apply bind_Some in H as (hs & Hhs & H).
  apply bind_Some in H as (s2 & Hm & H). simplify_eq.
  pose proof (fibers_kept_modify _ _ _ _ (with_hooks_identity _) Hm) as Hk.
  apply modify_inv in Hm as [_ ->].
  split_and!; first [done | simpl; by rewrite length_alter].
Qed.

Lemma run_component_keeps (c : Comp) (s s' : State) (result : Child) :
  run_component c s = Some (result, s') -> hooks_ok s s'.
Proof.
  revert s. induction c as [result'|initial k IH]; intros s H; simpl in H.
  - simplify_eq. apply hooks_ok_refl.
  - apply bind_Some in H as ([[st setter] s1] & Hu & H).
    eapply hooks_ok_trans; [by eapply useState_keeps|]. by eapply IH.
Qed.

Lemma updateDom_fresh (n : nat) (p : Props) :
  Forall (detached n) (updateDom n emptyProps p).
Proof.
  apply Forall_forall. intros op Hop. apply list_elem_of_In in Hop.
  apply in_updateDom in Hop as [H|[H|[H|H]]].
  - apply in_removedListeners in H as (key & [] & _).
  - apply in_clearedProperties in H as (key & [] & _).
  - apply in_assignedProperties in H as (key & _ & _ & _ & ->). simpl. lia.
  - apply in_addedListeners in H as (key & _ & _ & _ & ->). simpl. lia.
Qed.

Lemma detached_le (lo lo' : nat) (op : DomOp) : lo <= lo' -> detached lo' op -> detached lo op.
Proof. intros Hle. destruct op; simpl; try done; lia. Qed.

Lemma create_call_detached (t : option EType) (n : nat) (create : DomOp) :
  create_call t n = Some create -> detached n create.
Proof.
  unfold create_call. destruct (type_eq _ _); [intros; simplify_eq/=; lia|].
  destruct t as [[tag|c]|]; [destruct (valid_name tag)|..]; intros; simplify_eq/=; lia.
Qed.

Lemma create_call_any (t : option EType) (n m : nat) (create : DomOp) :
  create_call t n = Some create -> exists create', create_call t m = Some create'.
Proof.
  unfold create_call. destruct (type_eq _ _); [by eexists|].
  destruct t as [[tag|c]|]; [destruct (valid_name tag)|..]; intros; simplify_eq/=; by eexists.
Qed.

Lemma can_have_dom_create (f : Fiber) (n : nat) :
  can_have_dom f -> dom f = None -> exists create, create_call (type f) n = Some create.
Proof. intros Hc Hd. destruct (Hc Hd) as [create Hcreate]. by eapply create_call_any. Qed.

Lemma createDom_inv (f : Fiber) (s s' : State) (n : nat) :
  createDom f s = Some (n, s') ->
  exists p create ops, props f = Some p /\ n = domCount s /\
    create_call (type f) (domCount s) = Some create /\
    s' = emit ops (set_domCount (S (domCount s)) s) /\
    ops = create :: updateDom (domCount s) emptyProps p /\
    Forall (detached (domCount s)) ops.
Proof.
  unfold createDom. intros H. apply bind_Some in H as (create & Hcreate & H).
  apply bind_Some in H as (p & Hp & H). simplify_eq.
  eexists p, create, _. split_and!; try done.
  constructor; [by eapply create_call_detached|apply updateDom_fresh].
Qed.

(** What one unit of work does to the DOM, and how it hands the children to
    the reconciler. *)
Lemma updateHostComponent_inv (fiber : nat) (s s' : State) :
  updateHostComponent fiber s = Some s' ->
  exists f p cs s1,
    deref s fiber = Some f /\ props f = Some p /\ children p = Some cs /\
    reconcileChildren fiber (flat cs) s1 = Some s' /\
    ((exists d, dom f = Some d /\ s1 = s) \/
     (dom f = None /\
      exists create ops,
        create_call (type f) (domCount s) = Some create /\
        s1 = set_fibers (alter (with_dom (Some (domCount s))) fiber (fibers s))
               (emit ops (set_domCount (S (domCount s)) s)) /\
        ops = create :: updateDom (domCount s) emptyProps p /\
        Forall (detached (domCount s)) ops)).
Proof.
  unfold updateHostComponent. intros H.
  apply bind_Some in H as (f & Hf & H).
  apply bind_Some in H as (s1 & Hs1 & H).
  apply bind_Some in H as (p & Hp & H).
  apply bind_Some in H as (cs & Hcs & H).
  exists f, p, cs, s1. split_and!; try done.
  destruct (dom f) as [d|] eqn:Hd.
  - left. exists d. by simplify_eq.
  - right. split; [done|].
    apply bind_Some in Hs1 as ([n s0] & Hc & Hm).
    apply createDom_inv in Hc as (p' & create & ops & Hp' & -> & Hcreate & -> & Hops & Hdet).
    apply modify_inv in Hm as [_ ->]. simplify_eq.
    eexists create, _. split_and!; [done|reflexivity|reflexivity|done].
Qed.

Lemma updateHostComponent_can (fiber : nat) (s s' : State) (f : Fiber) :
  updateHostComponent fiber s = Some s' -> deref s fiber = Some f -> can_have_dom f.
Proof.
  intros H Hf Hd.
  apply updateHostComponent_inv in H as (f0 & p & cs & s1 & Hf0 & _ & _ & _ & Hs1).
  rewrite Hf in Hf0. simplify_eq.
  destruct Hs1 as [(d & Hd' & _)|(_ & create & _ & Hcreate & _)]; [congruence|].
  by eapply create_call_any.
Qed.

(** ** The next unit of work *)

Lemma next_sibling_up_climbs (fuel : nat) (s : State) (r : nat) (next : option nat) :
  next_sibling_up fuel s (Some r) = Some next -> climbs s r next.
Proof.
  revert r. induction fuel as [|fuel IH]; intros r H; simpl in H; [done|].
  apply bind_Some in H as (f & Hf & H).
  destruct (sibling f) as [sib|] eqn:Hsib.
  - simplify_eq. by eapply climbs_sibling.
  - destruct (parent f) as [p|] eqn:Hp.
    + eapply climbs_parent; [done..|]. by apply IH.
    + destruct fuel; simpl in H; simplify_eq; by eapply climbs_root.
Qed.

Lemma next_sibling_up_total (s : State) (r fuel : nat) :
  parents_older s -> r < length (fibers s) -> r < fuel ->
  is_Some (next_sibling_up fuel s (Some r)).
Proof.
  intros Hpo. revert fuel. induction (lt_wf r) as [r _ IH]. intros fuel Hr Hfuel.
  destruct fuel as [|fuel]; [lia|]. simpl.
  destruct (lookup_lt_is_Some_2 _ _ Hr) as [f Hf].
  unfold deref. rewrite Hf. simpl.
  destruct (sibling f) as [sib|]; [by eexists|].
  destruct (parent f) as [p|] eqn:Hp.
  - pose proof (Hpo r f p Hf Hp) as Hlt. apply IH; lia.
  - destruct fuel; by eexists.
Qed.

Lemma climbs_det (s : State) (r : nat) (n1 n2 : option nat) :
  climbs s r n1 -> climbs s r n2 -> n1 = n2.
Proof.
  intros Hc1. revert n2.
  induction Hc1 as [r f sib Hf Hs|r f p next Hf Hs Hp Hc IH|r f Hf Hs Hp];
    intros n2 Hc2; inversion Hc2; simplify_eq; eauto.
Qed.

(** ** One unit of work *)

Lemma sibling_chain_alter (g : Fiber -> Fiber) (r : nat) (h : list Fiber)
    (start : option nat) (l : list nat) :
  (forall f, sibling (g f) = sibling f) ->
  sibling_chain h start l -> sibling_chain (alter g r h) start l.
Proof.
  intros Hg. induction 1 as [|r' f l Hr Hch IH]; [constructor|].
  destruct (decide (r = r')) as [->|Hne].
  - econstructor; [by rewrite list_lookup_alter_eq, Hr|]. by rewrite Hg.
  - econstructor; [by rewrite list_lookup_alter_ne|done].
Qed.

Lemma old_children_alter (g : Fiber -> Fiber) (r : nat) (s s' : State) (w : Fiber)
    (olds : list nat) :
  (forall f, sibling (g f) = sibling f /\ child (g f) = child f /\
             alternate (g f) = alternate f) ->
  fibers s' = alter g r (fibers s) ->
  old_children s w olds -> old_children s' (g w) olds /\ old_children s' w olds.
Proof.
  intros Hg Hs'. unfold old_children.
  rewrite (proj2 (proj2 (Hg w))).
  destruct (alternate w) as [a|]; [|done].
  intros (af & Haf & Hch).
  assert (exists af', deref s' a = Some af' /\ child af' = child af) as (af' & Haf' & Hc).
  { unfold deref in *. rewrite Hs'. destruct (decide (r = a)) as [->|Hne].
    - rewrite list_lookup_alter_eq, Haf. simpl. eexists. split; [done|]. apply Hg.
    - rewrite list_lookup_alter_ne by done. by exists af. }
  assert (sibling_chain (fibers s') (child af') olds) as Hch'.
  { rewrite Hs', Hc. apply sibling_chain_alter; [|done]. intros f. apply Hg. }
  split; by exists af'.
Qed.

Lemma updateHostComponent_unfold (fiber : nat) (s : State) (f : Fiber) (p : Props)
    (cs : list Child) :
  deref s fiber = Some f -> props f = Some p -> children p = Some cs ->
  can_have_dom f ->
  updateHostComponent fiber s = reconcileChildren fiber (flat cs) (with_fresh_dom fiber f p s).
Proof.
  intros Hf Hp Hcs Hcan. unfold updateHostComponent, with_fresh_dom, createDom.
  rewrite Hf. cbn [mbind option_bind]. rewrite Hp.
  destruct (dom f) as [d|] eqn:Hd; cbn [mbind option_bind].
  - by rewrite Hcs.
  - destruct (can_have_dom_create f (domCount s) Hcan Hd) as [create ->].
    cbn [mbind option_bind].
    rewrite modify_Some by (simpl; by apply (deref_lt _ _ _ Hf)).
    cbn [mbind option_bind]. by rewrite Hcs.
Qed.

Lemma with_fresh_dom_deref (fiber : nat) (f : Fiber) (p : Props) (s : State) :
  deref s fiber = Some f -> can_have_dom f ->
  deref (with_fresh_dom fiber f p s) fiber =
    Some (match dom f with Some _ => f | None => with_dom (Some (domCount s)) f end).
Proof.
  intros Hf Hcan. unfold with_fresh_dom. destruct (dom f) eqn:Hd; [done|].
  destruct (can_have_dom_create f (domCount s) Hcan Hd) as [create ->].
  unfold deref in *. simpl. by rewrite list_lookup_alter_eq, Hf.
Qed.

Lemma with_fresh_dom_old_children (fiber : nat) (f : Fiber) (p : Props) (s : State)
    (olds : list nat) :
  old_children s f olds -> can_have_dom f ->
  old_children (with_fresh_dom fiber f p s)
    (match dom f with Some _ => f | None => with_dom (Some (domCount s)) f end) olds.
Proof.
  intros Hold Hcan. unfold with_fresh_dom. destruct (dom f) eqn:Hd; [done|].
  destruct (can_have_dom_create f (domCount s) Hcan Hd) as [create ->].
  eapply (old_children_alter (with_dom (Some (domCount s))) fiber s); [done|done|done].
Qed.

Lemma with_fresh_dom_parents (fiber : nat) (f : Fiber) (p : Props) (s : State) :
  parents_older s -> parents_older (with_fresh_dom fiber f p s).
Proof.
  intros Hpo. unfold with_fresh_dom. destruct (dom f); [done|].
  destruct (create_call _ _); [|done].
  intros r g q Hg Hq. unfold deref in Hg. simpl in Hg.
  destruct (decide (fiber = r)) as [->|Hne].
  - rewrite list_lookup_alter_eq in Hg.
    destruct (fibers s !! r) as [g0|] eqn:Hg0; simplify_eq/=. by eapply Hpo.
  - rewrite list_lookup_alter_ne in Hg by done. by eapply Hpo.
Qed.

Lemma step_ok_parents (wip n : nat) (s s' : State) :
  wip < length (fibers s) -> step_ok wip n s s' -> parents_older s -> parents_older s'.
Proof.
  intros Hw (Hk & _ & _ & _ & Hnew) Hpo r f p Hf Hp.
  destruct (decide (r < length (fibers s))) as [Hlt|Hge].
  - destruct (lookup_lt_is_Some_2 _ _ Hlt) as [f0 Hf0].
    destruct (Hk r f0 Hf0) as (f' & Hf' & (_ & _ & Hpar & _) & _).
    rewrite Hf in Hf'. simplify_eq. rewrite Hpar in Hp. by eapply Hpo.
  - rewrite (Hnew r f Hf) in Hp by lia. simplify_eq. lia.
Qed.

(** A host fiber with well-formed children is processed without fault. *)
Lemma updateHostComponent_total (fiber : nat) (s : State) (f : Fiber) (p : Props)
    (cs : list Child) (olds ds : list nat) :
  deref s fiber = Some f -> props f = Some p -> children p = Some cs ->
  Forall (fun c => child_truthy c = true) (flat cs) ->
  old_children s f olds -> fiber ∉ olds -> deletions s = Some ds ->
  can_have_dom f ->
  exists s',
    updateHostComponent fiber s = Some s' /\
    reconcile_inv (with_fresh_dom fiber f p s) fiber
      (match dom f with Some _ => f | None => with_dom (Some (domCount s)) f end)
      (flat cs) olds ds (length (flat cs) `max` length olds) s'.
Proof.
  intros Hf Hp Hcs Htruthy Hold Hfresh Hds Hcan.
  rewrite (updateHostComponent_unfold fiber s f p cs Hf Hp Hcs Hcan).
  apply reconcileChildren_inv; try done.
  - by apply with_fresh_dom_deref.
  - by apply with_fresh_dom_old_children.
  - unfold with_fresh_dom. destruct (dom f); [done|]. by destruct (create_call _ _).
Qed.

(** ** Function components *)

Lemma alter_with_hooks_twice (a b : option (list nat)) (w : nat) (h : list Fiber) :
  alter (with_hooks a) w (alter (with_hooks b) w h) = alter (with_hooks a) w h.
Proof.
  apply list_eq. intros i. destruct (decide (w = i)) as [->|Hne].
  - rewrite !list_lookup_alter_eq. by destruct (h !! i).
  - by rewrite !list_lookup_alter_ne.
Qed.

Lemma alter_with_hooks_same (w : nat) (h : list Fiber) (f : Fiber) :
  h !! w = Some f -> alter (with_hooks (hooks f)) w h = h.
Proof.
  intros Hf. apply list_eq. intros i. destruct (decide (w = i)) as [->|Hne].
  - rewrite list_lookup_alter_eq, Hf. by destruct f.
  - by rewrite list_lookup_alter_ne.
Qed.

Lemma run_component_total (c : Comp) (s : State) (w : nat) (f : Fiber) (hs : list nat) :
  wipFiber s = Some w -> deref s w = Some f -> hooks f = Some hs ->
  (forall a, alternate f = Some a -> a <> w /\ is_Some (deref s a) /\ hooks_valid s a) ->
  exists result s' hs',
    run_component c s = Some (result, s') /\
    fibers s' = alter (with_hooks (Some hs')) w (fibers s) /\
    (returns_truthy c -> child_truthy result = true).
Proof.
  revert s f hs. induction c as [result|initial k IH]; intros s f hs Hw Hf Hhs Halt.
  - exists result, s, hs. split_and!; [done| |by inversion 1].
    rewrite <- Hhs. symmetry. by apply alter_with_hooks_same.
  - assert (alternate_ok s f) as Hok.
    { intros a Ha. destruct (Halt a Ha) as (_ & [af Haf] & Hv).
      exists af. split; [done|]. intros hs' r Hhs' Hr.
      apply lookup_lt_is_Some_2. by eapply Hv. }
    simpl. rewrite (useState_computes initial s w f hs Hw Hf Hhs Hok).
    cbn [mbind option_bind].
    set (s1 := set_hookIndex _ _).
    destruct (IH (replay (pending s) (baseline initial s)) (length (hookStore s)) s1
                (with_hooks (Some (hs ++ [length (hookStore s)])) f)
                (hs ++ [length (hookStore s)]))
      as (result & s' & hs' & Hrun & Hfib & Htr); try done.
    + unfold deref, s1. simpl. unfold deref in Hf. by rewrite list_lookup_alter_eq, Hf.
    + intros a Ha. destruct (Halt a Ha) as (Hne & [af Haf] & Hv).
      assert (deref s1 a = Some af) as Haf1.
      { unfold deref, s1. simpl. by rewrite list_lookup_alter_ne. }
      split_and!; [done|by eexists|].
      intros af' hs'' i r Haf' Hhs'' Hr. rewrite Haf1 in Haf'. simplify_eq.
      unfold s1. simpl. rewrite length_app. simpl.
      pose proof (Hv af' hs'' i r Haf Hhs'' Hr). lia.
    + exists result, s', hs'. split_and!; [done| |].
      * rewrite Hfib. unfold s1. simpl. apply alter_with_hooks_twice.
      * intros Hrt. apply Htr. by inversion Hrt.
Qed.

Lemma updateFunctionComponent_total (components : nat -> option Props -> Comp)
    (fiber c : nat) (s : State) (f : Fiber) (olds ds : list nat) :
  deref s fiber = Some f ->
  (forall a, alternate f = Some a -> a <> fiber /\ is_Some (deref s a) /\ hooks_valid s a) ->
  returns_truthy (components c (props f)) ->
  old_children s f olds -> fiber ∉ olds -> deletions s = Some ds ->
  exists s' s3 hs result,
    updateFunctionComponent components fiber c s = Some s' /\
    run_component (components c (props f))
      (set_fibers (alter (with_hooks (Some [])) fiber (fibers s))
         (set_hookIndex 0 (set_wipFiber (Some fiber) s))) = Some (result, s3) /\
    fibers s3 = alter (with_hooks (Some hs)) fiber (fibers s) /\
    hooks_ok s s3 /\
    reconcile_inv s3 fiber (with_hooks (Some hs) f) [result] olds ds (1 `max` length olds) s'.
Proof.
  intros Hf Halt Htruthy Hold Hfresh Hds.
  unfold updateFunctionComponent.
  pose proof (deref_lt _ _ _ Hf) as Hlt.
  rewrite modify_Some by done. cbn [mbind option_bind].
  set (s2 := set_fibers _ _).
  assert (deref s2 fiber = Some (with_hooks (Some []) f)) as Hf2.
  { unfold deref, s2. simpl. unfold deref in Hf. by rewrite list_lookup_alter_eq, Hf. }
  rewrite Hf2. cbn [mbind option_bind].
  destruct (run_component_total (components c (props f)) s2 fiber
              (with_hooks (Some []) f) [])
    as (result & s3 & hs & Hrun & Hfib & Htr); try done.
  { intros a Ha. destruct (Halt a Ha) as (Hne & [af Haf] & Hv).
    assert (deref s2 a = Some af) as Haf2.
    { unfold deref, s2. simpl. by rewrite list_lookup_alter_ne. }
    split_and!; [done|by eexists|].
    intros af' hs' i r Haf' Hhs' Hr. rewrite Haf2 in Haf'. simplify_eq.
    by eapply (Hv af'). }
  change (props (with_hooks (Some []) f)) with (props f).
  rewrite Hrun. cbn [mbind option_bind].
  assert (fibers s3 = alter (with_hooks (Some hs)) fiber (fibers s)) as Hfib3.
  { rewrite Hfib. unfold s2. simpl. apply alter_with_hooks_twice. }
  assert (hooks_ok s s3) as Hok3.
  { eapply hooks_ok_trans; [|by eapply run_component_keeps].
    split_and!; try done. unfold s2. eapply fibers_kept_trans.
    - apply (fibers_kept_same s (set_hookIndex 0 (set_wipFiber (Some fiber) s))). done.
    - eapply fibers_kept_modify; [apply with_hooks_identity|]. by apply modify_Some.
    - unfold s2. simpl. by rewrite length_alter. }
  destruct (reconcileChildren_inv s3 fiber (with_hooks (Some hs) f) [result] olds ds)
    as (s' & Hs' & Hinv).
  - unfold deref. rewrite Hfib3. unfold deref in Hf. by rewrite list_lookup_alter_eq, Hf.
  - by eapply (old_children_alter (with_hooks (Some hs)) fiber s).
  - done.
  - constructor; [|done]. by apply Htr.
  - destruct Hok3 as (_ & _ & _ & _ & Hd & _). by rewrite Hd.
  - by exists s', s3, hs, result.
Qed.

Lemma parents_older_alter (g : Fiber -> Fiber) (r : nat) (s s' : State) :
  (forall f, parent (g f) = parent f) ->
  fibers s' = alter g r (fibers s) -> parents_older s -> parents_older s'.
Proof.
  intros Hg Hs' Hpo i f q Hf Hq. unfold deref in Hf. rewrite Hs' in Hf.
  destruct (decide (r = i)) as [->|Hne].
  - rewrite list_lookup_alter_eq in Hf.
    destruct (fibers s !! i) as [f0|] eqn:Hf0; simplify_eq/=.
    rewrite Hg in Hq. by eapply Hpo.
  - rewrite list_lookup_alter_ne in Hf by done. by eapply Hpo.
Qed.

Lemma updateFunctionComponent_inv (components : nat -> option Props -> Comp)
    (fiber c : nat) (s s' : State) :
  updateFunctionComponent components fiber c s = Some s' ->
  exists f s3 result,
    deref s fiber = Some f /\ hooks_ok s s3 /\
    run_component (components c (props f))
      (set_fibers (alter (with_hooks (Some [])) fiber (fibers s))
         (set_hookIndex 0 (set_wipFiber (Some fiber) s))) = Some (result, s3) /\
    reconcileChildren fiber [result] s3 = Some s'.
Proof.
  unfold updateFunctionComponent. intros H.
  apply bind_Some in H as (s2 & Hm & H).
  apply bind_Some in H as (fb & Hfb & H).
  apply bind_Some in H as ([result s3] & Hrun & H).
  pose proof (fibers_kept_modify _ _ _ _ (with_hooks_identity _) Hm) as Hk.
  apply modify_inv in Hm as [Hlt ->]. simpl in Hlt.
  destruct (lookup_lt_is_Some_2 _ _ Hlt) as [f Hf].
  assert (fb = with_hooks (Some []) f) as ->.
  { unfold deref in Hfb. simpl in Hfb. rewrite list_lookup_alter_eq, Hf in Hfb.
    by simplify_eq/=. }
  exists f, s3, result. split_and!; try done.
  eapply hooks_ok_trans; [|by eapply run_component_keeps].
  split_and!; try done. simpl. by rewrite length_alter.
Qed.

Lemma performUnitOfWork_inv (components : nat -> option Props -> Comp)
    (fiber : nat) (s s' : State) (next : option nat) :
  performUnitOfWork components fiber s = Some (next, s') ->
  exists f, deref s fiber = Some f /\ preorder_next s' fiber next /\
    match type f with
    | Some (TFun c) => updateFunctionComponent components fiber c s = Some s'
    | _ => updateHostComponent fiber s = Some s'
    end.
Proof.
  unfold performUnitOfWork. intros H.
  apply bind_Some in H as (f & Hf & H).
  apply bind_Some in H as (s1 & Hs1 & H).
  apply bind_Some in H as (f1 & Hf1 & H).
  exists f. split; [done|].
  destruct (child f1) as [ch|] eqn:Hch.
  - simplify_eq. split; [|by destruct (type f) as [[]|]]. exists f1. by rewrite Hch.
  - apply bind_Some in H as (nx & Hnx & H). simplify_eq.
    split; [|by destruct (type f) as [[]|]]. exists f1. rewrite Hch. split; [done|].
    by eapply next_sibling_up_climbs.
Qed.

Lemma performUnitOfWork_total (components : nat -> option Props -> Comp)
    (fiber : nat) (s s1 : State) (f : Fiber) :
  deref s fiber = Some f ->
  match type f with
  | Some (TFun c) => updateFunctionComponent components fiber c s = Some s1
  | _ => updateHostComponent fiber s = Some s1
  end ->
  fiber < length (fibers s1) -> parents_older s1 ->
  exists next, performUnitOfWork components fiber s = Some (next, s1).
Proof.
  intros Hf Hup Hlt Hpo. unfold performUnitOfWork. rewrite Hf. cbn [mbind option_bind].
  assert (match type f with
          | Some (TFun c) => updateFunctionComponent components fiber c s
          | _ => updateHostComponent fiber s
          end = Some s1) as ->.
  { by destruct (type f) as [[]|]. }
  cbn [mbind option_bind].
  destruct (lookup_lt_is_Some_2 _ _ Hlt) as [f1 Hf1].
  unfold deref at 1. rewrite Hf1. cbn [mbind option_bind].
  destruct (child f1); [by eexists|].
  destruct (next_sibling_up_total s1 fiber (S (length (fibers s1))) Hpo Hlt) as [nx Hnx];
    [lia|].
  rewrite Hnx. by eexists.
Qed.

(** What one unit of work does to the dom of its fiber and to the DOM. *)
Lemma performUnitOfWork_dom (components : nat -> option Props -> Comp)
    (fiber : nat) (s s' : State) (next : option nat) :
  performUnitOfWork components fiber s = Some (next, s') ->
  exists f f', deref s fiber = Some f /\ deref s' fiber = Some f' /\
    ((exists d, dom f = Some d /\ dom f' = Some d /\
        domLog s' = domLog s /\ domCount s' = domCount s) \/
     (exists c, dom f = None /\ type f = Some (TFun c) /\ dom f' = None /\
        domLog s' = domLog s /\ domCount s' = domCount s) \/
     (exists p create, dom f = None /\ (forall c, type f <> Some (TFun c)) /\
        props f = Some p /\ create_call (type f) (domCount s) = Some create /\
        dom f' = Some (domCount s) /\
        domLog s' = domLog s ++ create :: updateDom (domCount s) emptyProps p /\
        domCount s' = S (domCount s))).
Proof.
  intros H. apply performUnitOfWork_inv in H as (f & Hf & _ & Hup).
  exists f.
  assert (forall c, type f = Some (TFun c) ->
            updateFunctionComponent components fiber c s = Some s' ->
            exists f', deref s' fiber = Some f' /\ dom f' = dom f /\
              domLog s' = domLog s /\ domCount s' = domCount s) as Hfun.
  { intros c Hty Hc.
    apply updateFunctionComponent_inv in Hc as (f0 & s3 & result & Hf0 & Hok & _ & Hrec).
    apply reconcileChildren_keeps in Hrec as (Hk & Hg & _).
    destruct Hok as (Hk3 & _ & Hlog & Hcount & _).
    destruct (Hk3 fiber f Hf) as (f3 & Hf3 & _ & Hd3).
    destruct (Hk fiber f3 Hf3) as (f' & Hf' & _ & Hd').
    destruct Hg as (_ & _ & _ & _ & _ & _ & Hc' & Hl').
    exists f'. split_and!; congruence. }
  assert ((forall c, type f <> Some (TFun c)) ->
            updateHostComponent fiber s = Some s' ->
            exists p f', props f = Some p /\ deref s' fiber = Some f' /\
              dom f' = Some (from_option id (domCount s) (dom f)) /\
              (dom f = None -> exists create,
                 create_call (type f) (domCount s) = Some create /\
                 domLog s' = domLog s ++ create :: updateDom (domCount s) emptyProps p) /\
              (is_Some (dom f) -> domLog s' = domLog s) /\
              domCount s' = match dom f with Some _ => domCount s | None => S (domCount s) end)
    as Hhost.
  { intros _ Hh.
    apply updateHostComponent_inv in Hh as (f0 & p & cs & s1 & Hf0 & Hp & Hcs & Hrec & Hs1).
    rewrite Hf in Hf0. simplify_eq.
    apply reconcileChildren_keeps in Hrec as (Hk & Hg & _).
    destruct Hg as (_ & _ & _ & _ & _ & _ & Hc' & Hl').
    exists p. destruct Hs1 as [(d & Hd & ->)|(Hd & create & ops & Hcreate & -> & -> & _)].
    - destruct (Hk fiber f0 Hf) as (f' & Hf' & _ & Hd').
      exists f'. rewrite Hd. simpl. split_and!; congruence.
    - assert (deref (set_fibers (alter (with_dom (Some (domCount s))) fiber (fibers s))
                       (emit (create :: updateDom (domCount s) emptyProps p)
                          (set_domCount (S (domCount s)) s))) fiber =
              Some (with_dom (Some (domCount s)) f0)) as Hf1.
      { unfold deref in *. simpl. by rewrite list_lookup_alter_eq, Hf. }
      destruct (Hk fiber _ Hf1) as (f' & Hf' & _ & Hd').
      exists f'. rewrite Hd. split_and!; try done.
      intros _. by exists create. }
  destruct (type f) as [[tag|c]|] eqn:Hty.
  - destruct Hhost as (p & f' & Hp & Hf' & Hd' & Hnew & Hold & Hc'); [done|done|].
    exists f'. split_and!; try done.
    destruct (dom f) as [d|] eqn:Hd; [left|right; right].
    + exists d. split_and!; try done. by apply Hold.
    + destruct (Hnew eq_refl) as (create & Hcreate & Hl'). by exists p, create.
  - destruct (Hfun c eq_refl Hup) as (f' & Hf' & Hd' & Hl' & Hc').
    exists f'. split_and!; try done.
    destruct (dom f) as [d|] eqn:Hd; [left|right; left].
    + by exists d.
    + by exists c.
  - destruct Hhost as (p & f' & Hp & Hf' & Hd' & Hnew & Hold & Hc'); [done|done|].
    exists f'. split_and!; try done.
    destruct (dom f) as [d|] eqn:Hd; [left|right; right].
    + exists d. split_and!; try done. by apply Hold.
    + destruct (Hnew eq_refl) as (create & Hcreate & Hl'). by exists p, create.
Qed.

Lemma type_eq_true (a b : option EType) : type_eq a b = true -> a = b.
Proof.
  destruct a as [[x|x]|], b as [[y|y]|]; simpl; try done.
  - by intros ->%String.eqb_eq.
  - by intros ->%Nat.eqb_eq.
Qed.

Lemma reconciled_fields (s0 : State) (wip : nat) (els : list Child) (olds : list nat)
    (k : nat) (e : Child) (nf : Fiber) :
  els !! k = Some e -> reconciled s0 wip els olds k = Some nf ->
  type nf = elem_type e /\ props nf = elem_props e /\ parent nf = Some wip.
Proof.
  unfold reconciled. intros -> H. simpl in H.
  destruct (olds !! k) as [o|]; [|by simplify_eq].
  destruct (old_at s0 olds k) as [f|]; [|by simplify_eq].
  destruct (type_eq (elem_type e) (type f)) eqn:Hty; simplify_eq; [|done].
  apply type_eq_true in Hty. by rewrite Hty.
Qed.

Lemma reconciled_childless (s0 : State) (wip : nat) (els : list Child) (olds : list nat)
    (k : nat) (nf : Fiber) :
  reconciled s0 wip els olds k = Some nf -> child nf = None.
Proof.
  unfold reconciled. intros Hnf.
  destruct (els !! k) as [e|]; simplify_eq/=.
  repeat case_match; done.
Qed.

Lemma with_fresh_dom_length (fiber : nat) (f : Fiber) (p : Props) (s : State) :
  length (fibers (with_fresh_dom fiber f p s)) = length (fibers s).
Proof.
  unfold with_fresh_dom. destruct (dom f); [done|].
  destruct (create_call _ _); [|done]. simpl. apply length_alter.
Qed.

(** The reconciler has made the child fibers when its loop ends. *)
Lemma reconcile_inv_children_made (s0 : State) (wip : nat) (w : Fiber) (els : list Child)
    (olds ds : list nat) (s' : State) :
  reconcile_inv s0 wip w els olds ds (length els `max` length olds) s' ->
  children_made (length (fibers s0)) wip els s'.
Proof.
  intros Hinv. split_and!.
  - rewrite (inv_length _ _ _ _ _ _ _ _ Hinv). lia.
  - eexists. split; [apply (inv_wip _ _ _ _ _ _ _ _ Hinv)|].
    intros Hne. destruct els as [|e els']; [done|]. simpl.
    destruct (length olds); done.
  - intros k e Hk. pose proof (lookup_lt_Some _ _ _ Hk) as Hlt.
    destruct (reconciled_is_Some s0 wip els olds k Hlt) as [nf Hnf].
    pose proof (inv_new _ _ _ _ _ _ _ _ Hinv k nf) as Hnew.
    replace ((length els `max` length olds) `min` length els) with (length els) in Hnew by lia.
    eexists. split; [apply Hnew; [lia|done]|].
    destruct (reconciled_fields _ _ _ _ _ _ _ Hk Hnf) as (? & ? & ?).
    pose proof (reconciled_childless _ _ _ _ _ _ Hnf).
    by split_and!.
Qed.

(** C7.  A unit of work that returns has handed the children of the fiber
    to the reconciler (the flattened [props.children] of a host fiber, the
    one value returned by a function component), has created a dom for the
    fiber only if it is a host fiber that had none, and returns the fiber
    that follows it in depth-first pre-order: its child if it has one, else
    the sibling of the nearest of the fiber and its ancestors that has one,
    else nothing.  And it does return, with the child fibers made: on a
    host fiber that has a node or a type [document] makes one for, and
    whose children are truthy, it leaves one new fiber per child, with the
    type and props of the child, chained as siblings under the fiber, and
    returns the first of them; on a function component that returns a
    truthy value it leaves one new fiber for that value and returns it;
    this in a store where parents are older than their children. *)
Theorem performUnitOfWork_preorder (components : nat -> option Props -> Comp) :
  (forall (fiber : nat) (s s' : State) (next : option nat),
     performUnitOfWork components fiber s = Some (next, s') ->
     preorder_next s' fiber next /\
     exists f f', deref s fiber = Some f /\ deref s' fiber = Some f' /\
       ((exists d, dom f = Some d /\ dom f' = Some d /\
           domLog s' = domLog s /\ domCount s' = domCount s) \/
        (exists c, dom f = None /\ type f = Some (TFun c) /\ dom f' = None /\
           domLog s' = domLog s /\ domCount s' = domCount s) \/
        (exists p create, dom f = None /\ (forall c, type f <> Some (TFun c)) /\
           props f = Some p /\ create_call (type f) (domCount s) = Some create /\
           dom f' = Some (domCount s) /\
           domLog s' = domLog s ++ create :: updateDom (domCount s) emptyProps p /\
           domCount s' = S (domCount s))) /\
       match type f with
       | Some (TFun c) =>
           exists s3 result,
             run_component (components c (props f))
               (set_fibers (alter (with_hooks (Some [])) fiber (fibers s))
                  (set_hookIndex 0 (set_wipFiber (Some fiber) s))) = Some (result, s3) /\
             reconcileChildren fiber [result] s3 = Some s'
       | _ =>
           exists p cs, props f = Some p /\ children p = Some cs /\
             reconcileChildren fiber (flat cs) (with_fresh_dom fiber f p s) = Some s'
       end) /\
  (forall (fiber : nat) (s : State) (f : Fiber) (p : Props) (cs : list Child)
          (olds ds : list nat),
     deref s fiber = Some f -> (forall c, type f <> Some (TFun c)) ->
     props f = Some p -> children p = Some cs ->
     Forall (fun c => child_truthy c = true) (flat cs) ->
     old_children s f olds -> fiber ∉ olds -> deletions s = Some ds ->
     parents_older s -> can_have_dom f ->
     exists next s',
       performUnitOfWork components fiber s = Some (next, s') /\
       children_made (length (fibers s)) fiber (flat cs) s' /\
       (flat cs <> [] -> next = Some (length (fibers s)))) /\
  (forall (fiber c : nat) (s : State) (f : Fiber) (olds ds : list nat),
     deref s fiber = Some f -> type f = Some (TFun c) ->
     (forall a, alternate f = Some a ->
        a <> fiber /\ is_Some (deref s a) /\ hooks_valid s a) ->
     returns_truthy (components c (props f)) ->
     old_children s f olds -> fiber ∉ olds -> deletions s = Some ds ->
     parents_older s ->
     exists s' s3 result,
       performUnitOfWork components fiber s = Some (Some (length (fibers s)), s') /\
       run_component (components c (props f))
         (set_fibers (alter (with_hooks (Some [])) fiber (fibers s))
            (set_hookIndex 0 (set_wipFiber (Some fiber) s))) = Some (result, s3) /\
       children_made (length (fibers s)) fiber [result] s').
Proof.
  split_and!.
  - intros fiber s s' next H.
    pose proof (performUnitOfWork_dom _ _ _ _ _ H) as (f & f' & Hf & Hf' & Hdom).
    apply performUnitOfWork_inv in H as (f0 & Hf0 & Hnext & Hup).
    rewrite Hf in Hf0. simplify_eq.
    split; [done|]. exists f0, f'. split_and!; try done.
    assert (updateHostComponent fiber s = Some s' ->
            exists p cs, props f0 = Some p /\ children p = Some cs /\
              reconcileChildren fiber (flat cs) (with_fresh_dom fiber f0 p s) = Some s')
      as Hhost.
    { intros Hup'. pose proof Hup' as Hup2.
      apply updateHostComponent_inv in Hup2
        as (f1 & p & cs & s1 & Hf1 & Hp & Hcs & _ & Hs1).
      rewrite Hf in Hf1. simplify_eq. exists p, cs. split_and!; try done.
      rewrite (updateHostComponent_unfold fiber s f1 p cs) in Hup'; try done.
      by eapply updateHostComponent_can. }
    destruct (type f0) as [[tag|c]|] eqn:Hty; [by apply Hhost| |by apply Hhost].
    apply updateFunctionComponent_inv in Hup as (f1 & s3 & result & Hf1 & _ & Hrun & Hrec).
    rewrite Hf in Hf1. simplify_eq. by exists s3, result.
  - intros fiber s f p cs olds ds Hf Hty Hp Hcs Htruthy Hold Hfresh Hds Hpo Hcan.
    destruct (updateHostComponent_total fiber s f p cs olds ds) as (s' & Hs' & Hinv);
      try done.
    pose proof Hs' as Hrec.
    rewrite (updateHostComponent_unfold fiber s f p cs Hf Hp Hcs Hcan) in Hrec.
    pose proof (reconcileChildren_keeps _ _ _ _ Hrec) as Hok.
    pose proof (with_fresh_dom_deref fiber f p s Hf Hcan) as Hf1.
    pose proof (deref_lt _ _ _ Hf1) as Hlt1.
    destruct (performUnitOfWork_total components fiber s s' f) as [next Hnext]; try done.
    + destruct (type f) as [[]|]; try done. by destruct (Hty f0).
    + destruct Hok as (_ & _ & Hle & _). lia.
    + eapply step_ok_parents; [done|done|]. by apply with_fresh_dom_parents.
    + pose proof (reconcile_inv_children_made _ _ _ _ _ _ _ Hinv) as Hmade.
      rewrite with_fresh_dom_length in Hmade.
      exists next, s'. split_and!; [done|done|].
      intros Hne. destruct Hmade as (_ & (f' & Hf' & Hchild) & _).
      apply performUnitOfWork_inv in Hnext as (_ & _ & (f2 & Hf2 & Hnx) & _).
      rewrite Hf' in Hf2. simplify_eq. by rewrite (Hchild Hne) in Hnx.
  - intros fiber c s f olds ds Hf Hty Halt Htruthy Hold Hfresh Hds Hpo.
    destruct (updateFunctionComponent_total components fiber c s f olds ds)
      as (s' & s3 & hs & result & Hs' & Hrun & Hfib & Hok3 & Hinv); try done.
    pose proof Hs' as Hup.
    apply updateFunctionComponent_inv in Hup as (f1 & s3' & result' & Hf1 & Hok' & _ & Hrec).
    pose proof (reconcileChildren_keeps _ _ _ _ Hrec) as Hok.
    pose proof (deref_lt _ _ _ Hf) as Hlt.
    destruct Hok' as (Hk' & Hlen' & _).
    destruct (performUnitOfWork_total components fiber s s' f) as [next Hnext]; try done.
    + by rewrite Hty.
    + destruct Hok as (_ & _ & Hle & _). lia.
    + eapply step_ok_parents; [|done|]; [lia|].
      intros r g q Hg Hq.
      assert (exists g0, deref s r = Some g0 /\ parent g0 = parent g) as (g0 & Hg0 & Hpar).
      { pose proof (deref_lt _ _ _ Hg) as Hr. rewrite Hlen' in Hr.
        destruct (lookup_lt_is_Some_2 _ _ Hr) as [g0 Hg0]. exists g0. split; [done|].
        destruct (Hk' r g0 Hg0) as (g' & Hg' & (_ & _ & Hpar & _) & _).
        rewrite Hg in Hg'. by simplify_eq. }
      eapply Hpo; [done|]. by rewrite Hpar.
    + pose proof (reconcile_inv_children_made _ _ _ _ _ _ _ Hinv) as Hmade.
      assert (length (fibers s3) = length (fibers s)) as Hlen3.
      { rewrite Hfib. apply length_alter. }
      rewrite Hlen3 in Hmade.
      exists s', s3, result. split_and!; [|done|done].
      destruct Hmade as (_ & (f' & Hf' & Hchild) & _).
      pose proof (performUnitOfWork_inv _ _ _ _ _ Hnext) as (_ & _ & (f2 & Hf2 & Hnx) & _).
      rewrite Hf' in Hf2. simplify_eq. rewrite Hchild in Hnx by done.
      rewrite Hnext. by rewrite Hnx.
Qed.

(** ** The work loop and the commit *)

Lemma unit_log (components : nat -> option Props -> Comp) (fiber : nat)
    (s s' : State) (next : option nat) :
  performUnitOfWork components fiber s = Some (next, s') ->
  exists ops, domLog s' = domLog s ++ ops /\ Forall (detached (domCount s)) ops /\
    domCount s <= domCount s'.
Proof.
  intros H.
  pose proof (performUnitOfWork_dom _ _ _ _ _ H) as (f & f' & _ & _ & Hdom).
  destruct Hdom as [(d & _ & _ & Hl & Hc)|[(c & _ & _ & _ & Hl & Hc)
                    |(p & create & _ & _ & _ & Hcreate & _ & Hl & Hc)]].
  - exists []. rewrite app_nil_r. split_and!; [done|constructor|lia].
  - exists []. rewrite app_nil_r. split_and!; [done|constructor|lia].
  - eexists. split_and!; [done| |lia].
    constructor; [by eapply create_call_detached|apply updateDom_fresh].
Qed.

Lemma work_log (components : nat -> option Props -> Comp) (deadline : list Z)
    (s s1 : State) :
  work components deadline s = Some s1 ->
  exists ops, domLog s1 = domLog s ++ ops /\ Forall (detached (domCount s)) ops /\
    domCount s <= domCount s1.
Proof.
  revert s. induction deadline as [|t deadline IH]; intros s H; simpl in H.
  - destruct (nextUnitOfWork s) as [fiber|];
      [|simplify_eq; exists []; by rewrite app_nil_r].
    apply bind_Some in H as ([next s2] & Hunit & H). simplify_eq.
    apply unit_log in Hunit as (ops & ? & ? & ?). by exists ops.
  - destruct (nextUnitOfWork s) as [fiber|];
      [|simplify_eq; exists []; by rewrite app_nil_r].
    apply bind_Some in H as ([next s2] & Hunit & H).
    apply unit_log in Hunit as (ops & Hlog & Hdet & Hle).
    destruct (t <? 1)%Z; [simplify_eq; by exists ops|].
    apply IH in H as (ops' & Hlog' & Hdet' & Hle'). simpl in *.
    exists (ops ++ ops'). split_and!.
    + rewrite Hlog', Hlog. by rewrite app_assoc.
    + apply Forall_app. split; [done|].
      eapply Forall_impl; [done|]. intros op. by apply detached_le.
    + lia.
Qed.

Lemma emit_nil (s : State) : emit [] s = s.
Proof. unfold emit. rewrite app_nil_r. by destruct s. Qed.

Lemma emit_emit (ops ops' : list DomOp) (s : State) :
  emit ops' (emit ops s) = emit (ops ++ ops') s.
Proof. unfold emit. simpl. by rewrite app_assoc. Qed.

Lemma commitWork_emits (fuel : nat) (fiber : option nat) (s s' : State) :
  commitWork fuel fiber s = Some s' -> exists ops, s' = emit ops s.
Proof.
  revert fiber s s'. induction fuel as [|fuel IH]; intros fiber s s' H.
  - destruct fiber; simpl in H; simplify_eq. exists []. by rewrite emit_nil.
  - destruct fiber as [r|]; simpl in H.
    2:{ simplify_eq. exists []. by rewrite emit_nil. }
    apply bind_Some in H as (f & Hf & H).
    apply bind_Some in H as (domParentFiber & Hdpf & H).
    apply bind_Some in H as (domParent & Hdp & H).
    apply bind_Some in H as (s1 & Hs1 & H).
    apply bind_Some in H as (s2 & Hs2 & H).
    assert (exists ops, s1 = emit ops s) as [ops1 ->].
    { unfold appendChild in Hs1.
      destruct (effectTag f) as [[]|], (dom f) as [d|]; simpl in Hs1;
        try destruct (type_eq (type domParentFiber) _); simplify_eq;
        first [ by eexists | by (exists []; rewrite emit_nil) | idtac ].
      apply bind_Some in Hs1 as (a & Ha & Hs1).
      apply bind_Some in Hs1 as (af & Haf & Hs1).
      apply bind_Some in Hs1 as (prev & Hprev & Hs1).
      apply bind_Some in Hs1 as (nxt & Hnxt & Hs1). simplify_eq. by eexists. }
    apply IH in Hs2 as [ops2 ->]. apply IH in H as [ops3 ->].
    exists (ops1 ++ ops2 ++ ops3). by rewrite !emit_emit, app_assoc.
Qed.

Lemma commitRoot_inv (s s' : State) :
  commitRoot s = Some s' ->
  exists w ops, wipRoot s = Some w /\
    s' = set_wipRoot None (set_currentRoot (Some w) (emit ops s)).
Proof.
  unfold commitRoot. intros H.
  apply bind_Some in H as (w & Hw & H).
  apply bind_Some in H as (wf & Hwf & H).
  apply bind_Some in H as (s1 & Hs1 & H). simplify_eq.
  apply commitWork_emits in Hs1 as [ops ->].
  exists w, ops. simpl. by rewrite Hw.
Qed.

Lemma ready_to_commit_true (s : State) :
  ready_to_commit s = true <-> nextUnitOfWork s = None /\ is_Some (wipRoot s).
Proof.
  unfold ready_to_commit.
  rewrite andb_true_iff, negb_true_iff, bool_decide_eq_false, bool_decide_eq_true.
  by rewrite <- eq_None_not_Some.
Qed.


(** * The children handed to the reconciler *)

Lemma flat_app (a b : list Child) : flat (a ++ b) = flat a ++ flat b.
Proof. unfold flat. apply flat_map_app. Qed.

Lemma flat_array (items post : list Child) : flat (Arr items :: post) = items ++ flat post.
Proof. reflexivity. Qed.

(** C10.  A host fiber, one that has a node or a type [document] makes a
    node for, hands its children to the reconciler with one level of arrays
    opened: the entries of an array among them get a fiber each, at
    consecutive positions after those of the children before the array.
    A function component hands over the one value it returned, and gets at
    most one child fiber; when that value is an array, the one child fiber
    stands for the array itself and has no type. *)
Theorem host_children_are_flattened :
  (forall (fiber : nat) (s : State) (f : Fiber) (p : Props)
          (pre items post : list Child) (olds ds : list nat),
     deref s fiber = Some f -> props f = Some p ->
     children p = Some (pre ++ Arr items :: post) ->
     Forall (fun c => child_truthy c = true) (flat (pre ++ Arr items :: post)) ->
     old_children s f olds -> fiber ∉ olds -> deletions s = Some ds ->
     can_have_dom f ->
     exists s',
       updateHostComponent fiber s = Some s' /\
       length (fibers s') =
         length (fibers s) + (length (flat pre) + length items + length (flat post)) /\
       forall j item, items !! j = Some item ->
         exists nf, deref s' (length (fibers s) + (length (flat pre) + j)) = Some nf /\
           type nf = elem_type item /\ props nf = elem_props item /\
           parent nf = Some fiber) /\
  (forall (components : nat -> option Props -> Comp) (fiber c : nat) (s s' : State),
     updateFunctionComponent components fiber c s = Some s' ->
     length (fibers s') <= length (fibers s) + 1) /\
  (forall (components : nat -> option Props -> Comp) (fiber c : nat) (s : State)
          (f : Fiber) (items : list Child) (ds : list nat),
     deref s fiber = Some f -> alternate f = None -> deletions s = Some ds ->
     components c (props f) = Return (Arr items) ->
     exists s' nf,
       updateFunctionComponent components fiber c s = Some s' /\
       length (fibers s') = length (fibers s) + 1 /\
       deref s' (length (fibers s)) = Some nf /\
       type nf = None /\ props nf = None /\ parent nf = Some fiber).
Proof.
  split_and!.
  - intros fiber s f p pre items post olds ds Hf Hp Hcs Htruthy Hold Hfresh Hds Hcan.
    destruct (updateHostComponent_total fiber s f p _ olds ds Hf Hp Hcs Htruthy Hold Hfresh Hds
                Hcan) as (s' & Hs' & Hinv).
    exists s'. split; [done|].
    pose proof (inv_length _ _ _ _ _ _ _ _ Hinv) as Hlen.
    rewrite with_fresh_dom_length in Hlen.
    rewrite flat_app, flat_array in *. rewrite !length_app in *.
    split; [lia|].
    intros j item Hitem.
    assert ((flat pre ++ items ++ flat post) !! (length (flat pre) + j) = Some item) as Hk.
    { rewrite lookup_app_r by lia.
      replace (length (flat pre) + j - length (flat pre)) with j by lia.
      rewrite lookup_app_l by (by eapply lookup_lt_Some). done. }
    pose proof (lookup_lt_Some _ _ _ Hk) as Hklt. rewrite !length_app in Hklt.
    destruct (reconciled_is_Some (with_fresh_dom fiber f p s) fiber
                (flat pre ++ items ++ flat post) olds (length (flat pre) + j))
      as [nf Hnf]; [by rewrite !length_app|].
    pose proof (inv_new _ _ _ _ _ _ _ _ Hinv (length (flat pre) + j) nf) as Hnew.
    rewrite with_fresh_dom_length, !length_app in Hnew.
    eexists. split; [apply Hnew; [lia|done]|].
    destruct (reconciled_fields _ _ _ _ _ _ _ Hk Hnf) as (? & ? & ?). done.
  - intros components fiber c s s' H.
    apply updateFunctionComponent_inv in H as (f & s3 & result & _ & Hok & _ & Hrec).
    apply reconcileChildren_keeps in Hrec as (_ & _ & _ & Hle & _).
    destruct Hok as (_ & Hlen & _). simpl in Hle. lia.
  - intros components fiber c s f items ds Hf Halt Hds Hc.
    destruct (updateFunctionComponent_total components fiber c s f [] ds)
      as (s' & s3 & hs & result & Hs' & Hrun & Hfib & Hok & Hinv); try done.
    + intros a Ha. congruence.
    + rewrite Hc. by constructor.
    + unfold old_children. by rewrite Halt.
    + apply not_elem_of_nil.
    + assert (length (fibers s3) = length (fibers s)) as Hlen3.
      { rewrite Hfib. apply length_alter. }
      assert (result = Arr items) as ->.
      { rewrite Hc in Hrun. simpl in Hrun. by simplify_eq. }
      pose proof (inv_length _ _ _ _ _ _ _ _ Hinv) as Hlen. simpl in Hlen.
      pose proof (inv_new _ _ _ _ _ _ _ _ Hinv 0 (placement_fiber fiber (Arr items))) as Hnew.
      simpl in Hnew. rewrite Hlen3, Nat.add_0_r in Hnew.
      eexists s', _. split_and!; [done|lia|apply Hnew; [lia|done]|done..].
Qed.

(** * Renders and re-renders *)

Lemma strict_eq_refl (v : Val) : v <> VNaN -> strict_eq v v = true.
Proof.
  destruct v; simpl; try done.
  - intros _. by destruct b.
  - intros _. apply Z.eqb_refl.
  - intros _. apply String.eqb_refl.
  - intros _. apply Nat.eqb_refl.
  - intros _. apply Nat.eqb_refl.
  - intros _. apply String.eqb_refl.
Qed.

Lemma assoc_In (l : list (string * Val)) (key : string) :
  assoc l key = VUndef \/ exists k, In (k, assoc l key) l.
Proof.
  induction l as [|[k v] l IH]; simpl; [by left|].
  destruct (String.eqb key k).
  - right. exists k. by left.
  - destruct IH as [IH|[k' IH]]; [by left|]. right. exists k'. by right.
Qed.

Lemma isNew_same (p : Props) (key : string) : no_NaN p -> isNew p p key = false.
Proof.
  intros Hp. unfold isNew, get. apply negb_false_iff, strict_eq_refl.
  destruct (existsb _ _); [|by destruct (inherited key)].
  destruct (assoc_In (attrs p) key) as [->|[k Hk]]; [done|]. by eapply Hp.
Qed.

Lemma filter_none {A : Type} (f : A -> bool) (l : list A) :
  (forall x, In x l -> f x = false) -> List.filter f l = [].
Proof.
  induction l as [|a l IH]; intros H; simpl; [done|].
  rewrite (H a) by (by left). apply IH. intros x Hx. apply H. by right.
Qed.

Lemma has_key_In (p : Props) (key : string) :
  In key (Object_keys p) -> has_key p key = true.
Proof.
  intros Hin. unfold has_key, has_own. apply orb_true_iff. left.
  apply existsb_exists. exists key. split; [done|apply String.eqb_refl].
Qed.

Lemma updateDom_same (d : nat) (p : Props) : no_NaN p -> updateDom d p p = [].
Proof.
  intros Hp. unfold updateDom, removedListeners, clearedProperties,
    assignedProperties, addedListeners.
  rewrite !filter_none; [done|..].
  - intros key _. by apply isNew_same.
  - intros key _. by apply isNew_same.
  - intros key Hin. apply filter_In in Hin as [Hin _].
    unfold isGone. by rewrite has_key_In.
  - intros key Hin. apply filter_In in Hin as [Hin _].
    by rewrite has_key_In, isNew_same.
Qed.


(** The commit never reads the pending deletions: it walks the fibers under
    the work-in-progress root only. *)
Lemma dom_parent_set_deletions (fuel : nat) (d : option (list nat)) (s : State)
    (p : option nat) :
  dom_parent fuel (set_deletions d s) p = dom_parent fuel s p.
Proof.
  revert p. induction fuel as [|fuel IH]; intros p; simpl; [done|].
  destruct p as [r|]; simpl; [|done].
  change (deref (set_deletions d s) r) with (deref s r).
  destruct (deref s r) as [f|]; simpl; [|done].
  destruct (dom f); [done|apply IH].
Qed.

Lemma commitWork_set_deletions (fuel : nat) (d : option (list nat)) :
  forall (start : option nat) (s : State),
    commitWork fuel start (set_deletions d s) = set_deletions d <$> commitWork fuel start s.
Proof.
  induction fuel as [|fuel IH]; intros start s; [by destruct start|].
  destruct start as [r|]; [|done]. cbn [commitWork].
  change (deref (set_deletions d s) r) with (deref s r).
  change (length (fibers (set_deletions d s))) with (length (fibers s)).
  destruct (deref s r) as [f|]; [|done]. cbn [mbind option_bind].
  rewrite dom_parent_set_deletions.
  destruct (dom_parent (S (length (fibers s))) s (parent f)) as [dpf|]; [|done].
  cbn [mbind option_bind].
  destruct (dom dpf) as [dp|]; [|done]. cbn [mbind option_bind].
  assert (forall (o : option State) (k : State -> option State),
            (forall s1, k (set_deletions d s1) = set_deletions d <$> k s1) ->
            (set_deletions d <$> o) ≫= k = set_deletions d <$> (o ≫= k)) as Hbind.
  { intros [s1|] k Hk; simpl; [apply Hk|done]. }
  match goal with
  | |- ?lhs ≫= ?k = _ =>
      replace lhs with (set_deletions d <$>
        match effectTag f, dom f with
        | Some PLACEMENT, Some d0 => appendChild dpf dp d0 s
        | Some UPDATE, Some d0 =>
            a ← alternate f; af ← deref s a; prev ← props af; next ← props f;
            Some (emit (updateDom d0 prev next) s)
        | Some DELETION, d0 => d' ← d0; Some (emit [RemoveChild dp d'] s)
        | _, _ => Some s
        end)
  end.
  - apply Hbind. intros s1. rewrite IH. apply Hbind. intros s2. apply IH.
  - destruct (effectTag f) as [[]|], (dom f) as [d0|]; try done.
    { unfold appendChild. by destruct (type_eq _ _). }
    change (deref (set_deletions d s)) with (deref s).
    destruct (alternate f) as [a|]; [|done]. simpl.
    destruct (deref s a) as [af|]; [|done]. simpl.
    destruct (props af); [|done]. simpl. by destruct (props f).
Qed.

Lemma commitRoot_set_deletions (d : option (list nat)) (s : State) :
  commitRoot (set_deletions d s) = set_deletions d <$> commitRoot s.
Proof.
  unfold commitRoot.
  change (wipRoot (set_deletions d s)) with (wipRoot s).
  destruct (wipRoot s) as [w|]; [|done]. cbn [mbind option_bind].
  change (deref (set_deletions d s) w) with (deref s w).
  destruct (deref s w) as [wf|]; [|done]. cbn [mbind option_bind].
  change (length (fibers (set_deletions d s))) with (length (fibers s)).
  rewrite commitWork_set_deletions.
  by destruct (commitWork (length (fibers s)) (child wf) s).
Qed.

(** C1 (the code at the failing input).  The commit goes the same way
    whatever the pending deletions are, which it never reads.  So when the
    list [h1, h2] is rendered, then the list [h1]: the old [h2] fiber,
    which owns the DOM node 4, is tagged DELETION and put on the pending
    deletions, yet the second pass makes no call at all on the DOM, and so
    removes nothing. *)
Theorem deletion_is_never_committed :
  (forall (d : option (list nat)) (s : State),
     commitRoot (set_deletions d s) = set_deletions d <$> commitRoot s) /\
  exists s1 s2 old,
    render_twice list_of_two list_of_one = Some (s1, s2) /\
    deletions s2 = Some [3] /\
    deref s2 3 = Some old /\ type old = Some (THost "h2") /\
    effectTag old = Some DELETION /\ dom old = Some 4 /\
    In (AppendChild 1 4) (domLog s1) /\
    domLog s2 = domLog s1 /\ removals (domLog s2) = [].
Proof.
  split; [apply commitRoot_set_deletions|].
  eexists _, _, _. split_and!; [by vm_compute|by vm_compute..| |by vm_compute|by vm_compute].
  vm_compute. tauto.
Qed.

Lemma reconcileChildren_same_types (s : State) (wip : nat) (w : Fiber)
    (els : list Child) (olds ds : list nat) :
  deref s wip = Some w -> old_children s w olds -> wip ∉ olds ->
  Forall (fun c => child_truthy c = true) els -> deletions s = Some ds ->
  length olds = length els ->
  (forall k, k < length els -> same_type_at s els olds k = true) ->
  exists s',
    reconcileChildren wip els s = Some s' /\
    deletions s' = Some ds /\
    length (fibers s') = length (fibers s) + length els /\
    forall k e o fo,
      els !! k = Some e -> olds !! k = Some o -> deref s o = Some fo ->
      deref s' o = Some fo /\
      exists nf, deref s' (length (fibers s) + k) = Some nf /\
        effectTag nf = Some UPDATE /\ dom nf = dom fo /\ alternate nf = Some o /\
        type nf = type fo /\ props nf = elem_props e.
Proof.
  intros Hw Hold Hfresh Htruthy Hds Hlen Hsame.
  destruct (reconcileChildren_inv _ _ _ _ _ _ Hw Hold Hfresh Htruthy Hds) as (s' & Hs' & Hinv).
  destruct Hinv as [Hl Hnew Holds Hdel _ _ _].
  replace ((length els `max` length olds) `min` length els) with (length els) in * by lia.
  exists s'. split_and!; try done.
  - rewrite Hdel. f_equal.
    assert (unmatched s els olds (length els `max` length olds) = []) as ->.
    { apply elem_of_nil_inv. intros o Ho.
      apply elem_of_unmatched in Ho as (k & Hk & Hok & Hst).
      apply lookup_lt_Some in Hok. rewrite Hsame in Hst by lia. done. }
    by rewrite app_nil_r.
  - intros k e o fo He Ho Hfo.
    pose proof (lookup_lt_Some _ _ _ He) as Hk.
    pose proof (Hsame k Hk) as Hst.
    split.
    + rewrite (Holds k o fo Ho Hfo), Hst. by rewrite andb_false_r.
    + unfold same_type_at, old_at in Hst. rewrite He, Ho in Hst. simpl in Hst.
      rewrite Hfo in Hst.
      eexists. split.
      * apply (Hnew k); [done|]. unfold reconciled, old_at. rewrite He, Ho. simpl.
        by rewrite Hfo, Hst.
      * done.
Qed.

(** * Whole renders of host elements *)

(** ** Induction on host elements and on trees *)

Lemma host_element_induction (P : Child -> Prop) :
  (forall tag attrs cs, tag_ok tag (flat cs) -> no_NaN (mkProps attrs (Some cs)) ->
     Forall host_element (flat cs) -> Forall P (flat cs) ->
     P (Elem (THost tag) (mkProps attrs (Some cs)))) ->
  forall e, host_element e -> P e.
Proof.
  intros Hstep. fix IH 2. intros e He. destruct He as [tag attrs cs Htag Hnan Hcs].
  apply Hstep; [done|done|done|]. clear Htag.
  induction Hcs as [|c l Hc Hl IHl]; constructor; [by apply IH|done].
Qed.

Lemma sibling_chain_frame (h h' : list Fiber) (start : option nat) (refs : list nat) :
  sibling_chain h start refs ->
  (forall i, i ∈ refs -> h' !! i = h !! i) ->
  sibling_chain h' start refs.
Proof.
  induction 1 as [|r f l Hr Hch IH]; intros Hsame; [constructor|].
  econstructor.
  - rewrite Hsame; [done|]. by left.
  - apply IH. intros i Hi. apply Hsame. by right.
Qed.

Lemma tree_frame (h h' : list Fiber) (lo hi : nat) :
  (forall i, lo <= i < hi -> h' !! i = h !! i) ->
  forall r e, tree h lo hi r e -> h' !! r = h !! r -> tree h' lo hi r e.
Proof.
  intros Hsame. fix IH 3. intros r e Ht Hr.
  destruct Ht as [r f tag attrs cs d refs Hf Hty Hp Hd Hch Hb Hkids].
  eapply tree_node with (f := f) (refs := refs); try done.
  - by rewrite Hr.
  - apply (sibling_chain_frame h); [done|].
    intros i Hi. apply Hsame. by eapply Forall_forall in Hb.
  - clear Hch. revert Hb.
    induction Hkids as [|c e' refs' l' Hc Hrest IHk]; intros Hb; constructor.
    + apply IH; [done|]. apply Hsame. by inversion Hb.
    + apply IHk. by inversion Hb.
Qed.

Lemma tree_weaken (h : list Fiber) (lo hi lo' hi' : nat) :
  lo' <= lo -> hi <= hi' ->
  forall r e, tree h lo hi r e -> tree h lo' hi' r e.
Proof.
  intros Hlo Hhi. fix IH 3. intros r e Ht.
  destruct Ht as [r f tag attrs cs d refs Hf Hty Hp Hd Hch Hb Hkids].
  eapply tree_node with (f := f) (refs := refs); try done.
  - eapply Forall_impl; [done|]. simpl. intros c Hc. lia.
  - clear Hch Hb. induction Hkids as [|c e' refs' l' Hc Hrest IHk]; constructor; [|done].
    by apply IH.
Qed.

(** ** Units of work, one after the other *)

Lemma run_units_add (components : nat -> option Props -> Comp) (a b : nat) (s : State) :
  run_units components (a + b) s = run_units components a s ≫= run_units components b.
Proof.
  revert s. induction a as [|a IH]; intros s; simpl; [done|].
  destruct (nextUnitOfWork s) as [fiber|] eqn:Hn.
  - destruct (performUnitOfWork components fiber s) as [[next s1]|]; simpl; [apply IH|done].
  - simpl. destruct b; simpl; [done|]. by rewrite Hn.
Qed.

Lemma run_units_done (components : nat -> option Props -> Comp) (k : nat) (s : State) :
  nextUnitOfWork s = None -> run_units components k s = Some s.
Proof. intros Hn. destruct k; simpl; [done|]. by rewrite Hn. Qed.

Lemma run_units_more (components : nat -> option Props -> Comp) (k k' : nat) (s s' : State) :
  run_units components k s = Some s' -> nextUnitOfWork s' = None -> k <= k' ->
  run_units components k' s = Some s'.
Proof.
  intros Hk Hn Hle. replace k' with (k + (k' - k)) by lia.
  rewrite run_units_add, Hk. simpl. by apply run_units_done.
Qed.

Lemma work_run_units (components : nat -> option Props -> Comp) (deadline : list Z)
    (s : State) :
  work components deadline s = run_units components (units_of deadline) s.
Proof.
  revert s. induction deadline as [|t deadline IH]; intros s; simpl.
  - destruct (nextUnitOfWork s) as [fiber|]; [|done].
    by destruct (performUnitOfWork components fiber s) as [[next s1]|].
  - destruct (t <? 1)%Z; simpl.
    + destruct (nextUnitOfWork s) as [fiber|]; [|done].
      by destruct (performUnitOfWork components fiber s) as [[next s1]|].
    + destruct (nextUnitOfWork s) as [fiber|]; [|done].
      destruct (performUnitOfWork components fiber s) as [[next s1]|]; simpl; [|done].
      apply IH.
Qed.

(** ** What stays true while other fibers are processed *)

Lemma links_kept_refl (s : State) : links_kept s s.
Proof. intros i f Hf. by exists f. Qed.

Lemma links_kept_trans (s1 s2 s3 : State) :
  links_kept s1 s2 -> links_kept s2 s3 -> links_kept s1 s3.
Proof.
  intros H12 H23 i f Hf.
  destruct (H12 i f Hf) as (f2 & Hf2 & ? & ?).
  destruct (H23 i f2 Hf2) as (f3 & Hf3 & ? & ?).
  exists f3. split_and!; congruence.
Qed.

Lemma climbs_kept (s s' : State) (r : nat) (next : option nat) :
  links_kept s s' -> climbs s r next -> climbs s' r next.
Proof.
  intros Hk. induction 1 as [r f sib Hf Hs|r f p next Hf Hs Hp Hc IH|r f Hf Hs Hp];
    destruct (Hk r f Hf) as (f' & Hf' & Hs' & Hp').
  - apply (climbs_sibling s' r f' sib); congruence.
  - apply (climbs_parent s' r f' p next); congruence.
  - apply (climbs_root s' r f'); congruence.
Qed.

Lemma processed_links_kept (s s' : State) (again : bool) (r : nat) (e : Child) :
  processed s s' again r e -> links_kept s s'.
Proof.
  intros [Hlen Hframe (f & f' & Hf & Hf' & Hs & Hp & _) _ _ _ _ _] i g Hg.
  destruct (decide (i = r)) as [->|Hne].
  - rewrite Hf in Hg. simplify_eq. by exists f'.
  - exists g. split; [|done]. unfold deref in *. rewrite Hframe; [done| |done].
    by eapply lookup_lt_Some.
Qed.

Lemma fresh_frame (s s' : State) (R : nat) (again : bool) (r : nat) (e : Child) (p : nat) :
  fresh s R again r e p ->
  fibers s' !! r = fibers s !! r ->
  (forall i, i < R -> fibers s' !! i = fibers s !! i) ->
  fresh s' R again r e p.
Proof.
  intros (f & Hf & Hty & Hp & Hpar & Hch & Hmode) Hr Hold.
  exists f. unfold deref in *. rewrite Hr. split_and!; try done.
  destruct again; [|done].
  destruct Hmode as (Htag & o & fo & Halt & Ho & Hfo & Hd & Ht).
  split; [done|]. exists o, fo. split_and!; try done.
  - by rewrite Hold.
  - apply (tree_frame (fibers s)); [|done|by apply Hold].
    intros i Hi. apply Hold. lia.
Qed.

Lemma ready_frame (s s' : State) (again : bool) (i r : nat) :
  ready s again i -> i <> r ->
  length (fibers s) <= length (fibers s') ->
  (forall j, j < length (fibers s) -> j <> r -> fibers s' !! j = fibers s !! j) ->
  (forall f, deref s r = Some f ->
     exists f', deref s' r = Some f' /\ props f' = props f /\ type f' = type f /\
       (is_Some (dom f) -> is_Some (dom f'))) ->
  ready s' again i.
Proof.
  intros (f & p & pf & Hf & Hd & Hp & Hpf & Hpd & Hc & Hs & Hmode) Hne Hlen Hframe Hr.
  assert (forall j g, deref s j = Some g ->
            exists g', deref s' j = Some g' /\ props g' = props g /\ type g' = type g /\
              (is_Some (dom g) -> is_Some (dom g'))) as Hany.
  { intros j g Hg. destruct (decide (j = r)) as [->|Hjr]; [by apply Hr|].
    exists g. split_and!; try done. unfold deref in *. rewrite Hframe; [done| |done].
    by eapply lookup_lt_Some. }
  destruct (Hany p pf Hpf) as (pf' & Hpf' & _ & Hpt' & Hpd').
  exists f, p, pf'. split_and!; try done.
  - unfold deref in *. rewrite Hframe; [done| |done]. by eapply lookup_lt_Some.
  - destruct Hpd as [Hpd Hpt]. split; [by apply Hpd'|by rewrite Hpt'].
  - intros c Hcc. specialize (Hc c Hcc). lia.
  - intros c Hcc. specialize (Hs c Hcc). lia.
  - destruct again; [|done].
    destruct Hmode as (Htag & o & fo & pr & Ho & Hfo & Hpo & Hpr & Hnan).
    split; [done|]. destruct (Hany o fo Hfo) as (fo' & Hfo' & Hpo' & _).
    exists o, fo', pr. split_and!; try done. congruence.
Qed.

(** ** The unit of work on a fiber whose children are host elements *)

Lemma host_element_truthy (els : list Child) :
  Forall host_element els -> Forall (fun c => child_truthy c = true) els.
Proof. intros H. eapply Forall_impl; [done|]. by intros c [tag attrs cs _ _ _]. Qed.

Lemma tree_inv (h : list Fiber) (lo hi r : nat) (e : Child) :
  tree h lo hi r e ->
  exists f d refs cs,
    h !! r = Some f /\ type f = elem_type e /\ props f = elem_props e /\
    dom f = Some d /\ elem_props e ≫= children = Some cs /\
    sibling_chain h (child f) refs /\ Forall (fun c => lo <= c < hi) refs /\
    Forall2 (tree h lo hi) refs (flat cs).
Proof.
  intros [r' f tag attrs cs d refs Hf Hty Hp Hd Hch Hb Hkids].
  by exists f, d, refs, cs.
Qed.

Lemma type_eq_refl (t : option EType) : type_eq t t = true.
Proof.
  destruct t as [[tag|c]|]; simpl; [apply String.eqb_refl|apply Nat.eqb_refl|done].
Qed.

Lemma old_forest_same_types (s base : State) (R : nat) (r : nat) (f : Fiber)
    (els : list Child) (olds : list nat) :
  old_forest s R true f els olds ->
  (forall i, i < R -> fibers base !! i = fibers s !! i) ->
  length olds = length els /\
  forall k, k < length els -> same_type_at base els olds k = true.
Proof.
  intros (o & fo & _ & _ & _ & _ & Hb & Hkids & _) Hsame.
  split; [by eapply Forall2_length|].
  intros k Hk.
  destruct (lookup_lt_is_Some_2 _ _ Hk) as [e He].
  destruct (Forall2_lookup_r _ _ _ _ _ Hkids He) as (ok & Hok & Ht).
  apply tree_inv in Ht as (fk & d & refs & cs & Hfk & Hty & _).
  unfold same_type_at, old_at, deref. rewrite He, Hok. simpl.
  rewrite Hsame, Hfk; [|by eapply Forall_lookup_1 in Hb].
  rewrite Hty. apply type_eq_refl.
Qed.

Lemma with_fresh_dom_frame (fiber : nat) (f : Fiber) (p : Props) (s : State) (i : nat) :
  i <> fiber -> fibers (with_fresh_dom fiber f p s) !! i = fibers s !! i.
Proof.
  intros Hne. unfold with_fresh_dom. destruct (dom f); [done|].
  destruct (create_call _ _); [|done]. simpl. by rewrite list_lookup_alter_ne.
Qed.

Lemma with_fresh_dom_roots (fiber : nat) (f : Fiber) (p : Props) (s : State) :
  same_roots s (with_fresh_dom fiber f p s).
Proof.
  unfold with_fresh_dom, same_roots. destruct (dom f); [done|].
  by destruct (create_call _ _).
Qed.

Lemma with_fresh_dom_log (fiber : nat) (f : Fiber) (p : Props) (s : State) :
  is_Some (dom f) -> domLog (with_fresh_dom fiber f p s) = domLog s.
Proof. intros [d Hd]. unfold with_fresh_dom. by rewrite Hd. Qed.

Lemma old_forest_children (s : State) (R : nat) (again : bool) (f : Fiber)
    (els : list Child) (olds : list nat) (r : nat) :
  old_forest s R again f els olds -> R <= r ->
  old_children s f olds /\ (r ∉ olds) /\ (length els `max` length olds) = length els.
Proof.
  unfold old_forest, old_children. destruct again.
  - intros (o & fo & -> & Ho & Hfo & Hch & Hb & Hkids & _) Hr. split_and!.
    + by exists fo.
    + intros Hin. eapply Forall_forall in Hb; [|done]. lia.
    + apply Forall2_length in Hkids. lia.
  - intros [-> ->] _. split_and!; [done|apply not_elem_of_nil|simpl; lia].
Qed.

(** The fiber made for the element at position [k] of a render of the same
    tree again: an UPDATE of the old fiber of that position. *)
Lemma reconciled_again (s base : State) (R r : nat) (f : Fiber) (els : list Child)
    (olds : list nat) (k : nat) (e : Child) :
  old_forest s R true f els olds ->
  (forall i, i < R -> fibers base !! i = fibers s !! i) ->
  els !! k = Some e ->
  exists o fo, olds !! k = Some o /\ o < R /\ deref s o = Some fo /\
    tree (fibers s) 0 R o e /\ type fo = elem_type e /\
    reconciled base r els olds k = Some (update_fiber r o fo e).
Proof.
  intros (o0 & fo0 & _ & _ & _ & _ & Hb & Hkids & _) Hsame He.
  destruct (Forall2_lookup_r _ _ _ _ _ Hkids He) as (o & Ho & Ht).
  pose proof Ht as Ht'.
  apply tree_inv in Ht' as (fo & d & refs & cs & Hfo & Hty & _).
  assert (o < R) as HoR.
  { by eapply Forall_lookup_1 in Hb. }
  exists o, fo. split_and!; try done.
  unfold reconciled, old_at, deref. rewrite He, Ho. simpl.
  rewrite Hsame, Hfo by done. by rewrite Hty, type_eq_refl.
Qed.

Lemma reconciled_first (base : State) (r : nat) (els : list Child) (k : nat) (e : Child) :
  els !! k = Some e -> reconciled base r els [] k = Some (placement_fiber r e).
Proof. intros He. unfold reconciled. by rewrite He. Qed.

Lemma unmatched_none (s0 : State) (els : list Child) (olds : list nat) (i : nat) :
  (forall k, k < length olds -> same_type_at s0 els olds k = true) ->
  unmatched s0 els olds i = [].
Proof.
  intros Hall. apply elem_of_nil_inv. intros o Ho.
  apply elem_of_unmatched in Ho as (k & _ & Hk & Hst).
  rewrite Hall in Hst; [done|]. by eapply lookup_lt_Some.
Qed.

(** One unit of work on a fiber that has a dom or gets one, under which the
    reconciler makes one fresh fiber per child element. *)
Lemma unit_expands (components : nat -> option Props -> Comp) (s : State)
    (R : nat) (again : bool) (r : nat) (f : Fiber) (attrs : list (string * Val))
    (cs : list Child) (olds ds : list nat) :
  deref s r = Some f ->
  (forall c, type f <> Some (TFun c)) ->
  props f = Some (mkProps attrs (Some cs)) ->
  child f = None ->
  Forall host_element (flat cs) ->
  old_forest s R again f (flat cs) olds ->
  R <= r ->
  deletions s = Some ds ->
  parents_older s ->
  can_have_dom f ->
  exists next s1,
    performUnitOfWork components r s = Some (next, s1) /\
    preorder_next s1 r next /\
    expanded s s1 R again r f (flat cs).
Proof.
  intros Hf Hty Hp Hchild Hels Hforest HR Hds Hpo Hcan.
  set (p := mkProps attrs (Some cs)) in *.
  destruct (old_forest_children _ _ _ _ _ _ r Hforest HR) as (Hold & Hfresh & Hmax).
  destruct (updateHostComponent_total r s f p cs olds ds) as (s1 & Hup & Hinv);
    try done; [by apply host_element_truthy|].
  rewrite Hmax in Hinv.
  set (base := with_fresh_dom r f p s) in *.
  pose proof (deref_lt _ _ _ Hf) as Hr.
  assert (length (fibers base) = length (fibers s)) as Hlen by apply with_fresh_dom_length.
  assert (forall i, i <> r -> fibers base !! i = fibers s !! i) as Hbase.
  { intros i Hi. by apply with_fresh_dom_frame. }
  assert (forall k, k < length olds -> same_type_at base (flat cs) olds k = true) as Hsame.
  { intros k Hk. destruct again; [|destruct Hforest as [_ ->]; simpl in Hk; lia].
    destruct (old_forest_same_types s base R r f _ _ Hforest) as [Hl Hall].
    - intros i Hi. apply Hbase. lia.
    - apply Hall. lia. }
  assert (forall i, i < length (fibers s) -> i <> r -> fibers s1 !! i = fibers s !! i)
    as Hframe.
  { intros i Hi Hne. rewrite <- Hbase by done.
    destruct (decide (i ∈ olds)) as [Hin|Hnin].
    - apply list_elem_of_lookup_1 in Hin as [j Hj].
      destruct (lookup_lt_is_Some_2 (fibers base) i) as [fi Hfi]; [lia|].
      pose proof (inv_old _ _ _ _ _ _ _ _ Hinv j i fi Hj Hfi) as Hi1.
      rewrite Hsame in Hi1 by (eapply lookup_lt_Some; exact Hj).
      rewrite andb_false_r in Hi1. unfold deref in Hi1. by rewrite Hi1.
    - apply (inv_frame _ _ _ _ _ _ _ _ Hinv); [lia|done|done]. }
  pose proof Hup as Hrec.
  rewrite (updateHostComponent_unfold r s f p cs Hf Hp eq_refl Hcan) in Hrec.
  pose proof (reconcileChildren_keeps _ _ _ _ Hrec) as Hok.
  assert (parents_older s1) as Hpo1.
  { eapply step_ok_parents; [|done|by apply with_fresh_dom_parents]. fold base. lia. }
  assert (length (fibers s1) = length (fibers s) + length (flat cs)) as Hlen1.
  { rewrite (inv_length _ _ _ _ _ _ _ _ Hinv), Hlen. lia. }
  destruct (performUnitOfWork_total components r s s1 f) as [next Hnext]; try done.
  { destruct (type f) as [[]|]; try done. by destruct (Hty f0). }
  { lia. }
  exists next, s1. split; [done|].
  split; [by apply performUnitOfWork_inv in Hnext as (f' & _ & Hn & _)|].
  split; try done.
  - pose proof (inv_wip _ _ _ _ _ _ _ _ Hinv) as Hw. rewrite Hlen in Hw.
    eexists. split; [exact Hw|].
    destruct (length (flat cs)) as [|m] eqn:Hm; simpl.
    + destruct (dom f) as [d|] eqn:Hd; simpl; by split_and!.
    + destruct (dom f) as [d|] eqn:Hd; simpl; by split_and!.
  - intros j e He. pose proof (lookup_lt_Some _ _ _ He) as Hj.
    assert (forall nf, reconciled base r (flat cs) olds j = Some nf ->
              deref s1 (length (fibers s) + j) =
                Some (with_sibling (if (S j <? length (flat cs))%nat
                                    then Some (length (fibers s) + S j) else None) nf))
      as Hnew.
    { intros nf Hnf. pose proof (inv_new _ _ _ _ _ _ _ _ Hinv j nf) as Hn.
      rewrite Nat.min_id, Hlen in Hn. by apply Hn. }
    destruct again.
    + destruct (reconciled_again s base R r f _ _ j e Hforest) as
        (o & fo & Ho & HoR & Hfo & Ht & Htyo & Hrc); [|done|].
      { intros i Hi. apply Hbase. lia. }
      specialize (Hnew _ Hrc). split; [|eexists; split; [exact Hnew|done]].
      eexists. split; [exact Hnew|]. split_and!; try done.
      exists o, fo. split_and!; try done.
      * unfold deref. rewrite Hframe; [done|lia|lia].
      * apply (tree_frame (fibers s)); [|done|apply Hframe; lia].
        intros i Hi. apply Hframe; lia.
    + destruct Hforest as [Halt ->].
      specialize (Hnew _ (reconciled_first base r _ j e He)).
      split; [|eexists; split; [exact Hnew|done]].
      eexists. split; [exact Hnew|]. by split_and!.
  - destruct (with_fresh_dom_roots r f p s) as (Hd & Hw & Hc). fold base in Hd, Hw, Hc.
    destruct (inv_globals _ _ _ _ _ _ _ _ Hinv) as (_ & _ & Hc1 & Hw1 & _).
    split_and!; try congruence.
    rewrite (inv_deletions _ _ _ _ _ _ _ _ Hinv), unmatched_none by done.
    rewrite app_nil_r. congruence.
  - intros Hd. destruct (inv_globals _ _ _ _ _ _ _ _ Hinv) as (_ & _ & _ & _ & _ & _ & _ & Hl).
    rewrite Hl. by apply with_fresh_dom_log.
Qed.

(** ** The children of a fiber, one subtree after the other *)

Lemma sibling_chain_kept (s s' : State) (start : option nat) (l : list nat) :
  links_kept s s' -> sibling_chain (fibers s) start l -> sibling_chain (fibers s') start l.
Proof.
  intros Hk. induction 1 as [|r f l Hr Hch IH]; [constructor|].
  destruct (Hk r f Hr) as (f' & Hf' & Hs & _).
  econstructor; [exact Hf'|]. by rewrite Hs.
Qed.

Lemma same_roots_trans (s1 s2 s3 : State) :
  same_roots s1 s2 -> same_roots s2 s3 -> same_roots s1 s3.
Proof. unfold same_roots. intros (? & ? & ?) (? & ? & ?). split_and!; congruence. Qed.

Section Forest.

Variable components : nat -> option Props -> Comp.
Variables (s1 : State) (R : nat) (again : bool) (r L : nat) (els : list Child).
Variables (next : option nat) (ds : list nat).

Hypothesis Hlen : length (fibers s1) = L + length els.
Hypothesis HrL : r < L.
Hypothesis HRr : R <= r.
Hypothesis Hfresh : forall j e, els !! j = Some e ->
  fresh s1 R again (L + j) e r /\
  exists g, deref s1 (L + j) = Some g /\
    sibling g = if (S j <? length els)%nat then Some (L + S j) else None.
Hypothesis Hdom : els <> [] -> exists f1, deref s1 r = Some f1 /\ takes_children f1.
Hypothesis Hclimb : climbs s1 r next.
Hypothesis Hds : deletions s1 = Some ds.
Hypothesis Hpo : parents_older s1.
Hypothesis Hall : Forall (processes components) els.

Lemma forest_start : forest s1 s1 again L els 0.
Proof.
  split; try done.
  - apply links_kept_refl.
  - intros i e Hi. lia.
  - intros i Hi. lia.
Qed.

Lemma forest_step (sj : State) (j : nat) :
  forest s1 sj again L els j -> j < length els ->
  nextUnitOfWork sj = Some (L + j) ->
  exists k sj',
    run_units components k sj = Some sj' /\
    nextUnitOfWork sj' = cursor_at L els next (S j) /\
    forest s1 sj' again L els (S j).
Proof.
  intros [Hl Hframe Hlinks Htrees Hready Hroots Hpoj Hlog] Hj Hnext.
  destruct (lookup_lt_is_Some_2 _ _ Hj) as [e He].
  destruct (Hfresh j e He) as (Hfr & g & Hg & Hsib).
  assert (deref sj (L + j) = Some g) as Hgj.
  { unfold deref in *. rewrite Hframe; [done|]. right. lia. }
  destruct Hdom as (f1 & Hf1 & Hd1); [by intros ->|].
  assert (deref sj r = Some f1) as Hf1j.
  { unfold deref in *. rewrite Hframe; [done|]. left. lia. }
  assert (parent g = Some r) as Hpar.
  { destruct Hfr as (g' & Hg' & _ & _ & Hp & _). rewrite Hg in Hg'. by simplify_eq. }
  destruct (proj1 (Forall_lookup _ _) Hall j e He sj R (L + j) r again
              (cursor_at L els next (S j)) ds) as (k & sj' & Hrun & Hcur & Hproc); try done.
  - apply (fresh_frame s1); [done| |].
    + apply Hframe. right. lia.
    + intros i Hi. apply Hframe. left. lia.
  - lia.
  - by exists f1.
  - intros f c Hf Hc. rewrite Hgj in Hf. simplify_eq. rewrite Hsib in Hc.
    destruct (S j <? length els)%nat eqn:Hlt; [|done]. apply Nat.ltb_lt in Hlt.
    simplify_eq. lia.
  - unfold cursor_at. destruct (S j <? length els)%nat.
    + by apply (climbs_sibling sj (L + j) g).
    + apply (climbs_parent sj (L + j) g r); try done. by apply (climbs_kept s1).
  - destruct Hroots as (Hdel & _). congruence.
  - exists k, sj'. split_and!; try done.
    destruct Hproc as [Hl' Hframe' Hlinks' Htree' Hready' Hroots' Hpo' Hlog'].
    split.
    + lia.
    + intros i Hi. rewrite Hframe'; [apply Hframe|lia..]. lia.
    + eapply links_kept_trans; [done|].
      by eapply processed_links_kept, (Build_processed sj sj' again (L + j) e).
    + intros i e' Hi He'. destruct (decide (i = j)) as [->|Hne].
      * rewrite He in He'. simplify_eq.
        apply (tree_weaken (fibers sj') (length (fibers sj)) (length (fibers sj')));
          [lia|lia|done].
      * assert (tree (fibers sj) (L + length els) (length (fibers sj)) (L + i) e') as Ht.
        { apply Htrees; [lia|done]. }
        apply (tree_weaken (fibers sj') (L + length els) (length (fibers sj))); [lia|lia|].
        apply (tree_frame (fibers sj)); [|done|].
        -- intros i' Hi'. apply Hframe'; lia.
        -- apply Hframe'; lia.
    + intros i Hi.
      destruct (decide (i = L + j \/ length (fibers sj) <= i)) as [Hnew|Hold].
      * apply Hready'. lia.
      * apply (ready_frame sj sj' again i (L + j)); [|lia|lia|done|].
        -- apply Hready. lia.
        -- intros f Hf. destruct Hlinks' as (f0 & f' & Hf0 & Hf' & _ & _ & Hp' & Ht' & Hd').
           rewrite Hf in Hf0. simplify_eq. exists f'. by split_and!.
    + by eapply same_roots_trans.
    + done.
    + intros Ha. rewrite Hlog', Hlog; done.
Qed.

Lemma forest_all (d : nat) : forall (sj : State) (j : nat),
  j + d = length els ->
  forest s1 sj again L els j ->
  nextUnitOfWork sj = cursor_at L els next j ->
  exists k s',
    run_units components k sj = Some s' /\
    nextUnitOfWork s' = next /\
    forest s1 s' again L els (length els).
Proof.
  induction d as [|d IH]; intros sj j Hj Hf Hcur.
  - replace j with (length els) in * by lia.
    exists 0, sj. split_and!; try done.
    unfold cursor_at in Hcur. by rewrite Nat.ltb_irrefl in Hcur.
  - assert (j < length els) as Hlt by lia.
    unfold cursor_at in Hcur. rewrite (proj2 (Nat.ltb_lt _ _) Hlt) in Hcur.
    destruct (forest_step sj j Hf Hlt Hcur) as (k1 & sj' & Hrun1 & Hcur' & Hf').
    destruct (IH sj' (S j)) as (k2 & s' & Hrun2 & Hnext & Hfin); [lia|done|done|].
    exists (k1 + k2), s'. split_and!; try done.
    by rewrite run_units_add, Hrun1.
Qed.

End Forest.

Lemma expanded_links_kept (s s1 : State) (R : nat) (again : bool) (r : nat) (f : Fiber)
    (els : list Child) :
  deref s r = Some f -> expanded s s1 R again r f els -> links_kept s s1.
Proof.
  intros Hf [_ Hframe (f1 & Hf1 & Hs & Hp & _) _ _ _ _] i g Hg.
  destruct (decide (i = r)) as [->|Hne].
  - rewrite Hf in Hg. simplify_eq. by exists f1.
  - exists g. split; [|done]. unfold deref in *. rewrite Hframe; [done| |done].
    by eapply lookup_lt_Some.
Qed.

Lemma expanded_chain (s s1 : State) (R : nat) (again : bool) (r : nat) (f : Fiber)
    (els : list Child) :
  expanded s s1 R again r f els ->
  sibling_chain (fibers s1) (head (seq (length (fibers s)) (length els)))
    (seq (length (fibers s)) (length els)).
Proof.
  intros [_ _ _ Hch _ _ _].
  assert (forall d k, k + d = length els ->
            sibling_chain (fibers s1) (head (seq (length (fibers s) + k) d))
              (seq (length (fibers s) + k) d)) as Hgen.
  { induction d as [|d IH]; intros k Hk; [constructor|].
    assert (k < length els) as Hlt by lia.
    destruct (lookup_lt_is_Some_2 _ _ Hlt) as [e He].
    destruct (Hch k e He) as (_ & g & Hg & Hsib).
    simpl. econstructor; [exact Hg|]. rewrite Hsib.
    specialize (IH (S k)). rewrite Nat.add_succ_r in IH.
    destruct d as [|d'].
    - rewrite (proj2 (Nat.ltb_ge _ _)) by lia. constructor.
    - rewrite (proj2 (Nat.ltb_lt _ _)) by lia. rewrite Nat.add_succ_r. apply IH. lia. }
  specialize (Hgen (length els) 0). rewrite Nat.add_0_r in Hgen. by apply Hgen.
Qed.

(** The fiber under the cursor gets its children, and the subtrees of its
    children are processed one after the other; the cursor is then where
    the climb from the fiber leads. *)
Lemma subtree_processed (components : nat -> option Props -> Comp) (s : State)
    (R : nat) (again : bool) (r : nat) (f : Fiber) (attrs : list (string * Val))
    (cs : list Child) (olds ds : list nat) (next : option nat) :
  nextUnitOfWork s = Some r ->
  deref s r = Some f ->
  (forall c, type f <> Some (TFun c)) ->
  props f = Some (mkProps attrs (Some cs)) ->
  child f = None ->
  Forall host_element (flat cs) ->
  Forall (processes components) (flat cs) ->
  old_forest s R again f (flat cs) olds ->
  R <= r ->
  deletions s = Some ds ->
  parents_older s ->
  climbs s r next ->
  can_have_dom f ->
  (flat cs <> [] -> type_eq (type f) (Some (THost "TEXT_ELEMENT")) = false) ->
  exists k s' f1,
    run_units components k s = Some s' /\
    nextUnitOfWork s' = next /\
    length (fibers s) + length (flat cs) <= length (fibers s') /\
    (forall i, i < length (fibers s) -> i <> r -> fibers s' !! i = fibers s !! i) /\
    deref s' r = Some f1 /\
    (sibling f1 = sibling f /\ parent f1 = parent f /\ props f1 = props f /\
     type f1 = type f /\ alternate f1 = alternate f /\ effectTag f1 = effectTag f /\
     dom f1 = Some (from_option id (domCount s) (dom f)) /\
     child f1 = head (seq (length (fibers s)) (length (flat cs)))) /\
    sibling_chain (fibers s') (child f1) (seq (length (fibers s)) (length (flat cs))) /\
    Forall2 (tree (fibers s') (length (fibers s)) (length (fibers s')))
      (seq (length (fibers s)) (length (flat cs))) (flat cs) /\
    (forall i, length (fibers s) <= i < length (fibers s') -> ready s' again i) /\
    same_roots s s' /\ parents_older s' /\
    (again = true -> domLog s' = domLog s).
Proof.
  intros Hnext Hf Hty Hp Hchild Hels Hall Hforest HR Hds Hpo Hclimb Hcan Htext.
  destruct (unit_expands components s R again r f attrs cs olds ds)
    as (next1 & s1 & Hperf & Hpre & Hexp); try done.
  pose proof (expanded_links_kept _ _ _ _ _ _ _ Hf Hexp) as Hlinks.
  pose proof (expanded_chain _ _ _ _ _ _ _ Hexp) as Hchain.
  destruct Hexp as [Hlen Hframe (f1 & Hf1 & Hfields) Hch Hroots Hpo1 Hlog].
  pose proof (deref_lt _ _ _ Hf) as Hr.
  set (L := length (fibers s)) in *.
  set (s1' := set_nextUnitOfWork next1 s1).
  assert (run_units components 1 s = Some s1') as Hrun1.
  { simpl. by rewrite Hnext, Hperf. }
  assert (climbs s1 r next) as Hclimb1 by by apply (climbs_kept s).
  assert (next1 = cursor_at L (flat cs) next 0) as Hcur.
  { destruct Hpre as (f1' & Hf1' & Hpre). rewrite Hf1 in Hf1'. simplify_eq.
    destruct Hfields as (_ & _ & _ & _ & _ & _ & _ & Hc). rewrite Hc in Hpre.
    unfold cursor_at. destruct (length (flat cs)) as [|m]; simpl in *.
    - by eapply climbs_det.
    - by rewrite Nat.add_0_r. }
  destruct (forest_all components s1' R again r L (flat cs) next ds) with
    (d := length (flat cs)) (sj := s1') (j := 0)
    as (k & s' & Hrun & Hnext' & [Hl' Hframe' Hlinks' Htrees Hready Hroots' Hpo' Hlog']);
    try done.
  - intros Hne. exists f1. split; [done|].
    destruct Hfields as (_ & _ & _ & Hft & _ & _ & Hfd & _).
    split; [rewrite Hfd; by eexists|rewrite Hft; by apply Htext].
  - apply (climbs_kept s1); [|done]. intros i g Hg. by exists g.
  - destruct Hroots as (Hd & _). simpl. congruence.
  - by apply (forest_start s1' R again r L (flat cs)).
  - assert (deref s' r = Some f1) as Hf1'.
    { unfold deref in *. rewrite Hframe'; [done|]. left. lia. }
    destruct Hfields as (Hfs & Hfp & Hfpr & Hft & Hfa & Hfe & Hfd & Hfc).
    exists (1 + k), s', f1. split_and!; try done.
    + by rewrite run_units_add, Hrun1.
    + simpl in Hl'. lia.
    + intros i Hi Hne. rewrite Hframe'; [by apply Hframe|]. left. lia.
    + rewrite Hfc. by apply (sibling_chain_kept s1').
    + apply Forall2_same_length_lookup_2; [by rewrite length_seq|].
      intros i c e Hc He. pose proof (lookup_lt_Some _ _ _ He) as Hi.
      rewrite lookup_seq_lt in Hc by done. simplify_eq.
      apply (tree_weaken (fibers s') (L + length (flat cs)) (length (fibers s'))); [lia|lia|].
      by apply Htrees.
    + intros i Hi. apply Hready. simpl in Hl'. lia.
    + by eapply same_roots_trans.
    + intros Ha. rewrite Hlog' by done. simpl. apply Hlog.
      unfold old_forest in Hforest. rewrite Ha in Hforest.
      by destruct Hforest as (_ & _ & _ & _ & _ & _ & _ & _ & Hd).
Qed.

(** ** Every host element gets processed *)

Lemma fresh_old_forest (s : State) (R : nat) (again : bool) (r p : nat) (f : Fiber)
    (tag : string) (attrs : list (string * Val)) (cs : list Child) :
  fresh s R again r (Elem (THost tag) (mkProps attrs (Some cs))) p ->
  deref s r = Some f ->
  exists olds, old_forest s R again f (flat cs) olds.
Proof.
  intros (f' & Hf' & _ & _ & _ & _ & Hmode) Hf. rewrite Hf in Hf'. simplify_eq.
  destruct again.
  - destruct Hmode as (_ & o & fo & Halt & Ho & Hfo & Hd & Ht).
    apply tree_inv in Ht as (fo' & d & refs & cs' & Hfo' & _ & _ & Hdo & Hcs & Hch & Hb & Hk).
    unfold deref in Hfo. rewrite Hfo in Hfo'. simpl in Hcs. simplify_eq.
    exists refs, o, fo'. split_and!; try done.
    + eapply Forall_impl; [done|]. simpl. intros c Hc. lia.
    + rewrite Hd, Hdo. by eexists.
  - destruct Hmode as (Halt & _). by exists [].
Qed.

Lemma tag_ok_create (tag : string) (cs : list Child) (n : nat) :
  tag_ok tag cs -> exists create, create_call (Some (THost tag)) n = Some create.
Proof.
  unfold tag_ok, create_call. simpl. destruct (String.eqb tag "TEXT_ELEMENT"); [by eexists|].
  intros ->. by eexists.
Qed.

Lemma tag_ok_children (tag : string) (cs : list Child) :
  tag_ok tag cs -> cs <> [] ->
  type_eq (Some (THost tag)) (Some (THost "TEXT_ELEMENT")) = false.
Proof.
  unfold tag_ok. simpl. destruct (String.eqb tag "TEXT_ELEMENT"); [|done]. by intros ->.
Qed.

Lemma host_element_processes (components : nat -> option Props -> Comp) (e : Child) :
  host_element e -> processes components e.
Proof.
  apply host_element_induction. intros tag attrs cs Htagok Hnan Hcs IH.
  intros s R r p again next ds Hnext Hfresh HR Hpdom Hsib Hclimb Hds Hpo.
  pose proof Hfresh as (f & Hf & Hty & Hp & Hpar & Hch & Hmode). simpl in Hty, Hp.
  destruct (fresh_old_forest _ _ _ _ _ _ _ _ _ Hfresh Hf) as [olds Hforest].
  destruct (subtree_processed components s R again r f attrs cs olds ds next)
    as (k & s' & f1 & Hrun & Hnext' & Hlen & Hframe & Hf1 & Hfields & Hchain & Htrees &
        Hready & Hroots & Hpo' & Hlog); try done;
    [by rewrite Hty|lia|intros _; rewrite Hty; by eapply tag_ok_create
    |rewrite Hty; by apply tag_ok_children|].
  destruct Hfields as (Hfs & Hfp & Hfpr & Hft & Hfa & Hfe & Hfd & Hfc).
  pose proof (deref_lt _ _ _ Hf) as Hr.
  exists k, s'. split_and!; try done. split; try done.
  - lia.
  - exists f, f1. split_and!; try done; rewrite Hfd; by eexists.
  - eapply tree_node with (f := f1) (refs := seq (length (fibers s)) (length (flat cs)));
      try done; try congruence.
    apply Forall_forall. intros c Hc. apply elem_of_seq in Hc. lia.
  - intros i [->|Hi]; [|by apply Hready].
    destruct Hpdom as (pf & Hpf & Hpd).
    pose proof (Hpo r f p Hf Hpar) as Hpr.
    exists f1, p, pf. split_and!.
    + done.
    + rewrite Hfd. by eexists.
    + congruence.
    + unfold deref in *. rewrite Hframe; [done|lia|lia].
    + done.
    + intros c Hc. rewrite Hfc in Hc.
      destruct (length (flat cs)) as [|m]; simpl in Hc; simplify_eq. lia.
    + intros c Hc. rewrite Hfs in Hc. specialize (Hsib f c Hf Hc). lia.
    + destruct again.
      * destruct Hmode as (Htag & o & fo & Halt & Ho & Hfo & Hd & Ht).
        split; [congruence|].
        apply tree_inv in Ht as (fo' & d & refs & cs' & Hfo' & _ & Hpo0 & _).
        unfold deref in Hfo. rewrite Hfo in Hfo'. simplify_eq. simpl in Hpo0.
        exists o, fo', (mkProps attrs (Some cs)). split_and!; try done; try congruence.
        unfold deref. rewrite Hframe; [done|lia|lia].
      * destruct Hmode as (_ & _ & Htag). congruence.
Qed.

(** ** The commit of a processed tree *)

Lemma dom_parent_at (fuel : nat) (s : State) (p : nat) (pf : Fiber) (dp : nat) :
  deref s p = Some pf -> dom pf = Some dp ->
  dom_parent (S fuel) s (Some p) = Some pf.
Proof. intros Hpf Hdp. simpl. rewrite Hpf. simpl. by rewrite Hdp. Qed.

(** The commit of fibers that are all ready goes through; in a render of
    the same tree again it makes no call on the DOM. *)
Lemma commitWork_ready (again : bool) (lo : nat) (fuel : nat) :
  forall (s : State) (start : option nat),
    (forall i, lo <= i < length (fibers s) -> ready s again i) ->
    (forall c, start = Some c ->
       lo <= c < length (fibers s) /\ length (fibers s) - c <= fuel) ->
    exists ops, commitWork fuel start s = Some (emit ops s) /\
      (again = true -> ops = []).
Proof.
  induction fuel as [|fuel IH]; intros s start Hready Hstart.
  - destruct start as [c|]; [destruct (Hstart c eq_refl); lia|].
    exists []. by rewrite emit_nil.
  - destruct start as [c|]; [|exists []; by rewrite emit_nil].
    destruct (Hstart c eq_refl) as [Hc Hfuel].
    destruct (Hready c Hc)
      as (f & p & pf & Hf & [d Hd] & Hp & Hpf & [[dp Hdp] Hpt] & Hch & Hsib & Hmode).
    assert (exists ops1,
              match effectTag f, dom f with
              | Some PLACEMENT, Some d => appendChild pf dp d s
              | Some UPDATE, Some d =>
                  a ← alternate f; af ← deref s a; prev ← props af; next ← props f;
                  Some (emit (updateDom d prev next) s)
              | Some DELETION, d => d' ← d; Some (emit [RemoveChild dp d'] s)
              | _, _ => Some s
              end = Some (emit ops1 s) /\ (again = true -> ops1 = [])) as (ops1 & Hs1 & Hops1).
    { rewrite Hd. destruct again.
      - destruct Hmode as (-> & o & fo & pr & -> & Hfo & Hpr & -> & Hnan).
        cbn [mbind option_bind]. rewrite Hfo. cbn [mbind option_bind]. rewrite Hpr.
        cbn [mbind option_bind]. rewrite updateDom_same by done. by exists [].
      - rewrite Hmode. unfold appendChild. rewrite Hpt. eexists. split; [done|]. done. }
    destruct (IH (emit ops1 s) (child f)) as (ops2 & Hs2 & Hops2).
    { exact Hready. }
    { intros c' Hc'. specialize (Hch c' Hc'). simpl. lia. }
    destruct (IH (emit ops2 (emit ops1 s)) (sibling f)) as (ops3 & Hs3 & Hops3).
    { exact Hready. }
    { intros c' Hc'. specialize (Hsib c' Hc'). simpl. lia. }
    exists (ops1 ++ ops2 ++ ops3). split.
    + cbn [commitWork]. rewrite Hf. cbn [mbind option_bind].
      rewrite Hp, (dom_parent_at (length (fibers s)) s p pf dp Hpf Hdp).
      cbn [mbind option_bind]. rewrite Hdp. cbn [mbind option_bind].
      rewrite Hs1. cbn [mbind option_bind]. rewrite Hs2. cbn [mbind option_bind].
      rewrite Hs3. by rewrite !emit_emit, app_assoc.
    + intros Ha. by rewrite Hops1, Hops2, Hops3.
Qed.

(** ** A whole render, from [render] to the commit *)

Lemma render_fields (e : Child) (c : nat) (s : State) :
  fibers (render e c s) =
    fibers s ++ [mkFiber None (Some (mkProps [] (Some [e]))) (Some c) None None None
                   (currentRoot s) None None] /\
  nextUnitOfWork (render e c s) = Some (length (fibers s)) /\
  wipRoot (render e c s) = Some (length (fibers s)) /\
  deletions (render e c s) = Some [] /\
  currentRoot (render e c s) = currentRoot s /\
  domLog (render e c s) = domLog s.
Proof. done. Qed.

Lemma at_rest_parents (s : State) (again : bool) (e : Child) :
  at_rest s again e -> parents_older s.
Proof. destruct again; [by intros (_ & _ & ? & _)|by intros (_ & _ & _ & ?)]. Qed.

Lemma at_rest_old_forest (s : State) (again : bool) (e : Child) (c : nat) (f0 : Fiber) :
  at_rest s again e ->
  alternate f0 = currentRoot s -> is_Some (dom f0) ->
  exists olds,
    old_forest (render e c s) (length (fibers s)) again f0 [e] olds.
Proof.
  intros Hrest Halt Hd. destruct (render_fields e c s) as (Hfib & _).
  destruct again.
  - destruct Hrest as (_ & _ & _ & R0 & rf & c0 & Hcur & Hrf & Hch & Ht).
    assert (forall i, i < length (fibers s) -> fibers (render e c s) !! i = fibers s !! i)
      as Hold.
    { intros i Hi. rewrite Hfib. by apply lookup_app_l. }
    pose proof Ht as Ht'. apply tree_inv in Ht' as (f' & _ & _ & _ & Hc0 & _).
    apply lookup_lt_Some in Hc0.
    exists [c0], R0, rf. split_and!.
    + congruence.
    + by apply (deref_lt _ _ _ Hrf).
    + unfold deref in *. rewrite Hold; [done|]. by eapply lookup_lt_Some.
    + apply (sibling_chain_frame (fibers s)); [done|].
      intros i Hi. apply Hold. apply list_elem_of_singleton in Hi. by subst.
    + by repeat constructor.
    + repeat constructor. apply (tree_frame (fibers s)); [|done|by apply Hold].
      intros i Hi. apply Hold. lia.
    + done.
  - destruct Hrest as (_ & _ & Hcur & _). exists []. split; [congruence|done].
Qed.

(** [render], the units of work and the commit, for a host element: the
    tree gets committed, and rendering the committed tree again makes no
    call on the DOM. *)
Lemma render_commits (components : nat -> option Props -> Comp) (e : Child) (c : nat)
    (s : State) (again : bool) :
  host_element e -> at_rest s again e ->
  exists N s',
    (forall deadline, N <= units_of deadline ->
       workLoop components deadline (render e c s) = Some s') /\
    committed s' e /\
    (again = true -> domLog s' = domLog s) /\
    length (fibers s) + 1 < length (fibers s') /\
    (forall i, i < length (fibers s) -> fibers s' !! i = fibers s !! i) /\
    (forall i, length (fibers s) < i < length (fibers s') -> ready s' again i).
Proof.
  intros He Hrest.
  destruct (render_fields e c s) as (Hfib & Hnext & Hwip & Hdel & Hcur & Hlog0).
  set (s0 := render e c s) in *. set (R := length (fibers s)) in *.
  set (f0 := mkFiber None (Some (mkProps [] (Some [e]))) (Some c) None None None
               (currentRoot s) None None) in *.
  assert (deref s0 R = Some f0) as Hf0.
  { unfold deref. rewrite Hfib. by rewrite lookup_app_r, Nat.sub_diag by done. }
  assert (flat [e] = [e]) as Hflat by by destruct He.
  destruct (at_rest_old_forest s again e c f0 Hrest) as [olds Hforest]; [done|by eexists|].
  fold s0 R in Hforest.
  assert (parents_older s0) as Hpo0.
  { intros r f p Hf Hp. unfold deref in Hf. rewrite Hfib in Hf.
    apply lookup_app_Some in Hf as [Hf|[_ Hf]].
    - by apply (at_rest_parents s again e Hrest r f p).
    - destruct (r - length (fibers s)); simpl in Hf; [|done]. by simplify_eq. }
  destruct (subtree_processed components s0 R again R f0 [] [e] olds [] None)
    as (k & s1 & f1 & Hrun & Hnext1 & Hlen & Hframe & Hf1 & Hfields & Hchain & Htrees &
        Hready & Hroots & Hpo1 & Hlog); try done.
  { by rewrite Hflat; constructor. }
  { rewrite Hflat. constructor; [by apply host_element_processes|constructor]. }
  { by rewrite Hflat. }
  { by apply (climbs_root s0 R f0). }
  assert (length (fibers s0) = S R) as Hlen0.
  { rewrite Hfib, length_app. simpl. lia. }
  destruct Hfields as (_ & _ & _ & _ & _ & _ & _ & Hfc).
  rewrite Hflat, Hlen0 in *. cbn [length seq head] in *.
  destruct Hroots as (Hdel1 & Hwip1 & Hcur1).
  destruct (commitWork_ready again (S R) (length (fibers s1)) s1 (Some (S R)))
    as (ops & Hcommit & Hops).
  { intros i Hi. apply Hready. lia. }
  { intros c' Hc'. simplify_eq. lia. }
  exists k, (set_wipRoot None (set_currentRoot (Some R) (emit ops s1))).
  split_and!.
  - intros deadline Hk. unfold workLoop. rewrite work_run_units.
    rewrite (run_units_more components k (units_of deadline) s0 s1) by done.
    cbn [mbind option_bind].
    rewrite (proj2 (ready_to_commit_true s1)); [|split; [done|rewrite Hwip1, Hwip; by eexists]].
    unfold commitRoot. rewrite Hwip1, Hwip. cbn [mbind option_bind].
    rewrite Hf1. cbn [mbind option_bind]. rewrite Hfc, Hcommit. cbn [mbind option_bind].
    simpl. by rewrite Hwip1, Hwip.
  - split_and!; try done.
    exists R, f1, (S R). split_and!; try done.
    inversion Htrees as [|? ? ? ? Ht _]; subst.
    apply (tree_weaken (fibers s1) (S R) (length (fibers s1))); [lia|done|done].
  - intros Ha. simpl. rewrite Hops, app_nil_r by done. rewrite Hlog by done. done.
  - simpl. lia.
  - intros i Hi. simpl. rewrite Hframe; [|lia|lia]. rewrite Hfib. by apply lookup_app_l.
  - intros i Hi. apply Hready. simpl in Hi. lia.
Qed.

(** A host element is rendered into an empty page, and rendered again once
    committed: the second pass makes no call on the DOM, and every fiber it
    makes under its root is an UPDATE. *)
Lemma render_again_is_silent (components : nat -> option Props -> Comp) (e : Child)
    (c c' n : nat) :
  host_element e ->
  exists N s1 s2,
    (forall d1, N <= units_of d1 ->
       workLoop components d1 (render e c (initialState n)) = Some s1) /\
    (forall d2, N <= units_of d2 ->
       workLoop components d2 (render e c' s1) = Some s2) /\
    domLog s2 = domLog s1 /\
    length (fibers s1) < length (fibers s2) /\
    forall i f, length (fibers s1) < i -> deref s2 i = Some f ->
      effectTag f = Some UPDATE.
Proof.
  intros He.
  destruct (render_commits components e c (initialState n) false He)
    as (N1 & s1 & Hrun1 & Hcom1 & _).
  { by split_and!. }
  destruct (render_commits components e c' s1 true He Hcom1)
    as (N2 & s2 & Hrun2 & Hcom2 & Hlog & Hlen & Hold & Hready).
  exists (N1 `max` N2), s1, s2. split_and!.
  - intros d1 Hd1. apply Hrun1. lia.
  - intros d2 Hd2. apply Hrun2. lia.
  - by apply Hlog.
  - lia.
  - intros i f Hi Hf. pose proof (deref_lt _ _ _ Hf) as Hlt.
    destruct (Hready i) as (f' & p & pf & Hf' & _ & _ & _ & _ & _ & _ & Htag & _); [lia|].
    rewrite Hf in Hf'. by simplify_eq.
Qed.

Lemma simple_element_induction (P : Child -> Prop) :
  (forall tag attrs cs, tag_ok tag cs -> no_NaN (mkProps attrs (Some cs)) ->
     Forall simple_element cs -> Forall P cs ->
     P (Elem (THost tag) (mkProps attrs (Some cs)))) ->
  forall e, simple_element e -> P e.
Proof.
  intros Hstep. fix IH 2. intros e He. destruct He as [tag attrs cs Htag Hnan Hcs].
  apply Hstep; [done|done|done|]. clear Hnan Htag.
  induction Hcs as [|c l Hc Hl IHl]; [constructor|].
  constructor; [by apply IH|done].
Qed.

Lemma flat_simple (cs : list Child) : Forall simple_element cs -> flat cs = cs.
Proof.
  induction 1 as [|c l Hc Hl IH]; [done|].
  unfold flat in *. simpl. rewrite IH. by destruct Hc.
Qed.

Lemma simple_element_host (e : Child) : simple_element e -> host_element e.
Proof.
  revert e. apply simple_element_induction. intros tag attrs cs Htag Hnan Hcs IH.
  constructor; [|done|]; by rewrite flat_simple.
Qed.

Lemma list_of_two_simple : simple_element list_of_two.
Proof.
  assert (forall v, no_NaN (mkProps [("nodeValue", VStr v)] (Some []))) as Htext.
  { intros v key w [H|[]]. injection H as _ <-. discriminate. }
  assert (forall cs, no_NaN (mkProps [] (Some cs))) as Hnone.
  { intros cs key w []. }
  assert (forall tag v, valid_name tag = true -> String.eqb tag "TEXT_ELEMENT" = false ->
            simple_element (createElement (THost tag) None [Prim (VStr v)]))
    as Hleaf.
  { intros tag v Hv Hne.
    apply simple_element_intro; [unfold tag_ok; by rewrite Hne|apply Hnone|].
    constructor; [|constructor].
    apply simple_element_intro; [reflexivity|apply Htext|constructor]. }
  apply simple_element_intro; [reflexivity|apply Hnone|].
  constructor; [by apply Hleaf|].
  constructor; [by apply Hleaf|constructor].
Qed.

Lemma list_of_two_host_element : host_element list_of_two.
Proof. apply simple_element_host, list_of_two_simple. Qed.

(** * Rendering the same tree again *)

(** A component in the manner of the demo's [App] makes its click handler
    anew on every run: when the same element is rendered again the fibers
    are all UPDATEs, and yet the listener is taken off and put on again. *)
Lemma rerender_reattaches_listener :
  exists s1 s2,
    idle counter_app [plenty] (render (createElement (TFun 0) None []) 0 (initialState 1))
      = Some s1 /\
    idle counter_app [plenty] (render (createElement (TFun 0) None []) 0 s1) = Some s2 /\
    new_tags (length (fibers s1)) s2 = repeat (Some UPDATE) 4 /\
    domLog s2 = domLog s1 ++
      [RemoveEventListener 1 "click" (VFun 0); AddEventListener 1 "click" (VFun 1)].
Proof.
  eexists _, _. split_and!.
  - vm_compute. reflexivity.
  - vm_compute. reflexivity.
  - vm_compute. reflexivity.
  - vm_compute. reflexivity.
Qed.


(** * The theorems at work on concrete states *)

Lemma reconcile_ready_old_children (w : Fiber) :
  deref reconcile_ready 3 = Some w -> old_children reconcile_ready w [1; 2].
Proof.
  intros Hw. vm_compute in Hw. injection Hw as <-.
  eexists. split; [reflexivity|]. repeat econstructor.
Qed.

Lemma reconcile_ready_parents : parents_older reconcile_ready.
Proof.
  intros [|[|[|[|r]]]] f p Hf Hp; vm_compute in Hf; simplify_eq; simpl in Hp;
    simplify_eq; lia.
Qed.

Lemma not_in_1_2 : 3 ∉ [1; 2].
Proof. intros H. apply list_elem_of_In in H. simpl in H. lia. Qed.


Lemma reconcileChildren_by_position_witness :
  exists s',
    reconcileChildren 3
      [createElement (THost "h1") None []; createElement (THost "p") None [];
       createElement (THost "span") None []] reconcile_ready = Some s' /\
    length (fibers s') = 7 /\ deletions s' = Some [2].
Proof.
  destruct (reconcileChildren_by_position reconcile_ready 3
              (mkFiber None
                 (Some (mkProps [] (Some [Arr [createElement (THost "h1") None [];
                                               createElement (THost "p") None []]])))
                 (Some 0) None None None (Some 0) None None)
              [createElement (THost "h1") None []; createElement (THost "p") None [];
               createElement (THost "span") None []] [1; 2] [])
    as (s' & w' & Hs' & Hlen & _ & _ & _ & _ & _ & _ & _ & Hdel).
  - reflexivity.
  - by apply reconcile_ready_old_children.
  - apply not_in_1_2.
  - repeat constructor.
  - reflexivity.
  - exists s'. split_and!; [exact Hs'|exact Hlen|exact Hdel].
Defined.



Lemma performUnitOfWork_preorder_witness :
  exists next s',
    performUnitOfWork no_components 3 reconcile_ready = Some (next, s') /\
    children_made 4 3
      [createElement (THost "h1") None []; createElement (THost "p") None []] s' /\
    next = Some 4.
Proof.
  destruct (proj1 (proj2 (performUnitOfWork_preorder no_components)) 3 reconcile_ready
           (mkFiber None
              (Some (mkProps [] (Some [Arr [createElement (THost "h1") None [];
                                            createElement (THost "p") None []]])))
              (Some 0) None None None (Some 0) None None)
           (mkProps [] (Some [Arr [createElement (THost "h1") None [];
                                   createElement (THost "p") None []]]))
           [Arr [createElement (THost "h1") None []; createElement (THost "p") None []]]
           [1; 2] []) as (next & s' & Hunit & Hmade & Hnext).
  - reflexivity.
  - intros c Hc. discriminate Hc.
  - reflexivity.
  - reflexivity.
  - repeat constructor.
  - by apply reconcile_ready_old_children.
  - apply not_in_1_2.
  - reflexivity.
  - apply reconcile_ready_parents.
  - intros Hd. discriminate Hd.
  - exists next, s'. split_and!; [exact Hunit|exact Hmade|].
    apply Hnext. discriminate.
Defined.

Lemma render_and_setState_reset_deletions_witness :
  exists s', setState 0 increment mid_render = Some s' /\ deletions s' = Some [] /\
    wipRoot s' = Some 2 /\ nextUnitOfWork s' = Some 2.
Proof.
  assert (exists s', setState 0 increment mid_render = Some s') as [s' Hs'].
  { eexists. reflexivity. }
  destruct (proj2 render_and_setState_reset_deletions 0 increment mid_render s' Hs')
    as (Hd & Hw & Hn & _).
  exists s'. split_and!; [exact Hs'|exact Hd|exact Hw|exact Hn].
Defined.

Lemma host_children_are_flattened_witness :
  exists s',
    updateHostComponent 3 reconcile_ready = Some s' /\
    length (fibers s') = 6 /\
    exists nf, deref s' 5 = Some nf /\ type nf = Some (THost "p").
Proof.
  destruct (proj1 host_children_are_flattened 3 reconcile_ready
              (mkFiber None
                 (Some (mkProps [] (Some [Arr [createElement (THost "h1") None [];
                                               createElement (THost "p") None []]])))
                 (Some 0) None None None (Some 0) None None)
              (mkProps [] (Some [Arr [createElement (THost "h1") None [];
                                      createElement (THost "p") None []]]))
              [] [createElement (THost "h1") None []; createElement (THost "p") None []] []
              [1; 2] [])
    as (s' & Hs' & Hlen & Hitems).
  - reflexivity.
  - reflexivity.
  - reflexivity.
  - repeat constructor.
  - by apply reconcile_ready_old_children.
  - apply not_in_1_2.
  - reflexivity.
  - intros Hd. discriminate Hd.
  - exists s'. split_and!; [exact Hs'|exact Hlen|].
    destruct (Hitems 1 (createElement (THost "p") None [])) as (nf & Hnf & Hty & _);
      [reflexivity|].
    exists nf. split; [exact Hnf|exact Hty].
Defined.

(** * Further properties of the code *)

(** ** The DOM adapter: [createDom] and the passes of [updateDom] *)

Lemma get_emptyProps (key : string) :
  get emptyProps key = if inherited key then VBuiltin key else VUndef.
Proof. reflexivity. Qed.

Lemma strict_eq_emptyProps (key : string) (v : Val) :
  strict_eq (get emptyProps key) v = false <-> v <> get emptyProps key.
Proof.
  rewrite get_emptyProps. destruct (inherited key).
  - destruct v; simpl; try (split; done).
    rewrite String.eqb_neq. split; intros H; congruence.
  - destruct v; simpl; split; done.
Qed.

Lemma updateDom_from_nothing (d : nat) (p : Props) (op : DomOp) :
  In op (updateDom d emptyProps p) <->
  (exists key, In key (Object_keys p) /\ isProperty key = true /\
     get p key <> get emptyProps key /\ op = SetProperty d key (get p key)) \/
  (exists key, In key (Object_keys p) /\ isEvent key = true /\
     get p key <> get emptyProps key /\
     op = AddEventListener d (eventType key) (get p key)).
Proof.
  rewrite in_updateDom, in_removedListeners, in_clearedProperties,
    in_assignedProperties, in_addedListeners.
  split.
  - intros [(key & [] & _)|[(key & [] & _)|[H|H]]];
      destruct H as (key & Hin & Hk & Hnew & ->); [left|right]; exists key;
      split_and!; try done; by apply strict_eq_emptyProps.
  - intros [H|H]; destruct H as (key & Hin & Hk & Hdef & ->);
      [right; right; left|right; right; right]; exists key;
      split_and!; try done; by apply strict_eq_emptyProps.
Qed.



(** X2.  A handler that [prev] and [next] both have under the same key, with
    different values, is swapped by [updateDom]: the old function is taken
    off the event of the key, and later in the same call the new one is put
    on it. *)
Theorem updateDom_swaps_changed_handler (d : nat) (prev next : Props) (key : string) :
  In key (Object_keys prev) -> In key (Object_keys next) -> isEvent key = true ->
  strict_eq (get prev key) (get next key) = false ->
  exists before between after,
    updateDom d prev next =
      before ++ RemoveEventListener d (eventType key) (get prev key) ::
      between ++ AddEventListener d (eventType key) (get next key) :: after.
Proof.
  intros Hprev Hnext Hev Hnew.
  assert (In (RemoveEventListener d (eventType key) (get prev key))
            (removedListeners d prev next)) as Hrem.
  { apply in_removedListeners. exists key. split_and!; try done. by right. }
  assert (In (AddEventListener d (eventType key) (get next key))
            (addedListeners d prev next)) as Hadd.
  { apply in_addedListeners. by exists key. }
  apply in_split in Hrem as (a & b & Hrem). apply in_split in Hadd as (c & e & Hadd).
  exists a, (b ++ clearedProperties d prev next ++ assignedProperties d prev next ++ c), e.
  unfold updateDom. rewrite Hrem, Hadd. by rewrite <- !app_assoc.
Qed.

Lemma updateDom_swaps_changed_handler_witness :
  exists before between after,
    updateDom 1 (mkProps [("onClick", VFun 0)] (Some []))
      (mkProps [("onClick", VFun 1)] (Some [])) =
      before ++ RemoveEventListener 1 "click" (VFun 0) ::
      between ++ AddEventListener 1 "click" (VFun 1) :: after.
Proof.
  apply (updateDom_swaps_changed_handler 1 (mkProps [("onClick", VFun 0)] (Some []))
           (mkProps [("onClick", VFun 1)] (Some [])) "onClick").
  - by left.
  - by left.
  - reflexivity.
  - reflexivity.
Defined.

(** X3.  [updateDom] assigns a property of the node in two cases only, and
    in each of them: the empty string to a key of [prev], no handler and
    not [children], that [next] lacks, as an own key and as a key inherited
    from [Object.prototype]; and its value in [next] to such a key of
    [next] whose value is not [===] to the one [prev] gives, which for a
    key [prev] does not have is the inherited property or [undefined].  It
    adds a listener exactly for the handlers of [next] whose value is not
    [===] to the one in [prev], under the event of the key and with the
    new value. *)
Theorem updateDom_assigns_what_changed (d : nat) (prev next : Props) :
  (forall name v, In (SetProperty d name v) (updateDom d prev next) <->
     isProperty name = true /\
     ((In name (Object_keys prev) /\ lacks next name /\ v = VStr "") \/
      (In name (Object_keys next) /\ strict_eq (get prev name) (get next name) = false /\
       v = get next name))) /\
  (forall ev h, In (AddEventListener d ev h) (updateDom d prev next) <->
     exists key, In key (Object_keys next) /\ isEvent key = true /\
       strict_eq (get prev key) (get next key) = false /\
       ev = eventType key /\ h = get next key) /\
  (forall key, In key (map fst (attrs prev)) -> In (key, get prev key) (attrs prev)) /\
  (forall key, ~ In key (map fst (attrs prev)) ->
     get prev key = if inherited key then VBuiltin key else VUndef).
Proof.
  split_and!.
  - intros name v. rewrite in_updateDom, in_removedListeners, in_clearedProperties,
      in_assignedProperties, in_addedListeners. split.
    + intros [H|[H|[H|H]]]; destruct H as (key & Hin & Hk & Hc & Hop); try discriminate;
        inversion Hop; subst; (split; [done|]); [left|right]; [|done].
      by rewrite <- has_key_lacks.
    + intros [Hp [(Hin & Hgone & ->)|(Hin & Hnew & ->)]].
      * right; left. exists name. by rewrite has_key_lacks.
      * right; right; left. by exists name.
  - intros ev h. rewrite in_updateDom, in_removedListeners, in_clearedProperties,
      in_assignedProperties, in_addedListeners. split.
    + intros [H|[H|[H|H]]]; destruct H as (key & Hin & Hk & Hc & Hop); try discriminate.
      inversion Hop; subst. by exists key.
    + intros (key & Hin & Hk & Hnew & -> & ->). right; right; right. by exists key.
  - intros key Hin. unfold get.
    rewrite (proj2 (existsb_eqb_In key (map fst (attrs prev))) Hin).
    induction (attrs prev) as [|[k v] l IH]; [done|]. simpl in *.
    destruct (String.eqb key k) eqn:Hk.
    + apply String.eqb_eq in Hk. subst. by left.
    + apply String.eqb_neq in Hk. right. apply IH. destruct Hin as [Hin|Hin]; [|done].
      by subst.
  - intros key Hnin. unfold get.
    destruct (existsb _ _) eqn:He; [|done]. by apply existsb_eqb_In in He.
Qed.

(** ** The reconciler on children that are not elements *)

Lemma reconcile_step_falsy (wip : nat) (els : list Child) (i : nat)
    (old prev : option nat) (s : State) (c : Child)
    (old' nf : option nat) (s' : State) :
  els !! i = Some c -> child_truthy c = false ->
  reconcile_step wip els i old prev s = Some (old', nf, s') -> nf = None.
Proof.
  intros Hc Hfalse. unfold reconcile_step. rewrite Hc. cbn [mbind option_bind].
  rewrite Hfalse. intros H.
  apply bind_Some in H as (o & Ho & H).
  destruct o as [[o f]|]; cbn [mbind option_bind] in H.
  - apply bind_Some in H as (s2 & Hs2 & H).
    apply bind_Some in H as (s3 & Hs3 & H). by simplify_eq.
  - apply bind_Some in H as (s3 & Hs3 & H). by simplify_eq.
Qed.

Lemma reconcile_step_no_left_sibling (wip : nat) (els : list Child) (i : nat)
    (old : option nat) (s : State) (e : Child) :
  els !! S i = Some e -> child_truthy e = true ->
  reconcile_step wip els (S i) old None s = None.
Proof.
  intros He Htrue. unfold reconcile_step. rewrite He. cbn [mbind option_bind].
  rewrite Htrue.
  destruct old as [o|]; cbn [mbind option_bind].
  - destruct (deref s o) as [f|]; cbn [mbind option_bind]; [|done].
    destruct (type_eq (elem_type e) (type f)); simpl.
    + done.
    + destruct (modify o _ _) as [s1|]; cbn [mbind option_bind]; [|done].
      by destruct (deletions s1).
  - done.
Qed.

Lemma reconcile_loop_null_then_child (wip : nat) (pre : list Child) (c e : Child)
    (post : list Child) :
  child_truthy c = false -> child_truthy e = true ->
  forall (d fuel i : nat) (old prev : option nat) (s : State),
    i + d = length pre ->
    reconcile_loop fuel wip (pre ++ c :: e :: post) i old prev s = None.
Proof.
  intros Hc He.
  assert (length (pre ++ c :: e :: post) = length pre + S (S (length post))) as Hlen.
  { rewrite length_app. simpl. lia. }
  assert (forall fuel old s,
            reconcile_loop fuel wip (pre ++ c :: e :: post) (S (length pre)) old None s = None)
    as Hlast.
  { intros fuel old s. destruct fuel as [|fuel]; simpl.
    - rewrite Hlen. by rewrite (proj2 (Nat.ltb_lt _ _)) by lia.
    - rewrite Hlen. rewrite (proj2 (Nat.ltb_lt _ _)) by lia. simpl.
      rewrite (reconcile_step_no_left_sibling wip _ (length pre) old s e); [done| |done].
      rewrite lookup_app_r by lia.
      by replace (S (length pre) - length pre) with 1 by lia. }
  induction d as [|d IH]; intros fuel i old prev s Hi.
  - replace i with (length pre) by lia.
    destruct fuel as [|fuel]; simpl; rewrite Hlen, (proj2 (Nat.ltb_lt _ _)) by lia;
      simpl; [done|].
    destruct (reconcile_step wip (pre ++ c :: e :: post) (length pre) old prev s)
      as [[[old' nf] s']|] eqn:Hstep; cbn [mbind option_bind]; [|done].
    apply (reconcile_step_falsy _ _ _ _ _ _ c) in Hstep as ->; [apply Hlast| |done].
    rewrite lookup_app_r by lia. by rewrite Nat.sub_diag.
  - destruct fuel as [|fuel]; simpl; rewrite Hlen, (proj2 (Nat.ltb_lt _ _)) by lia;
      simpl; [done|].
    destruct (reconcile_step wip (pre ++ c :: e :: post) i old prev s)
      as [[[old' nf] s']|]; cbn [mbind option_bind]; [|done].
    apply IH. lia.
Qed.

Lemma reconcileChildren_null_then_child (wip : nat) (pre : list Child) (c e : Child)
    (post : list Child) (s : State) :
  child_truthy c = false -> child_truthy e = true ->
  reconcileChildren wip (pre ++ c :: e :: post) s = None.
Proof.
  intros Hc He. unfold reconcileChildren.
  destruct (deref s wip) as [w|]; cbn [mbind option_bind]; [|done].
  destruct (alternate w) as [a|]; cbn [mbind option_bind].
  - destruct (deref s a) as [af|]; cbn [mbind option_bind]; [|done].
    by apply (reconcile_loop_null_then_child wip pre c e post Hc He (length pre)).
  - by apply (reconcile_loop_null_then_child wip pre c e post Hc He (length pre)).
Qed.

(** X4.  A child that is falsy where the reconciler reads it ([null], or a
    hole left by an empty array entry) makes no fiber, and the reconciler
    then has no left sibling to link the next element to: whenever a falsy
    entry is directly followed by a truthy one, [reconcileChildren]
    throws, whatever the fibers are, and so does the unit of work on a host
    fiber whose flattened children contain such a pair. *)
Theorem null_child_before_another_throws (components : nat -> option Props -> Comp)
    (pre : list Child) (c e : Child) (post : list Child) :
  child_truthy c = false -> child_truthy e = true ->
  (forall (wip : nat) (s : State),
     reconcileChildren wip (pre ++ c :: e :: post) s = None) /\
  (forall (fiber : nat) (s : State) (f : Fiber) (p : Props) (cs : list Child),
     deref s fiber = Some f -> (forall g, type f <> Some (TFun g)) ->
     props f = Some p -> children p = Some cs ->
     flat cs = pre ++ c :: e :: post ->
     performUnitOfWork components fiber s = None).
Proof.
  intros Hc He. split.
  - intros wip s. by apply reconcileChildren_null_then_child.
  - intros fiber s f p cs Hf Hty Hp Hcs Hflat.
    unfold performUnitOfWork. rewrite Hf. cbn [mbind option_bind].
    assert (updateHostComponent fiber s = None) as Hup.
    { unfold updateHostComponent. rewrite Hf. cbn [mbind option_bind].
      destruct (match dom f with
                | Some _ => Some s
                | None => '(n, s') ← createDom f s; modify fiber (with_dom (Some n)) s'
                end) as [s1|]; cbn [mbind option_bind]; [|done].
      rewrite Hp. cbn [mbind option_bind]. rewrite Hcs. cbn [mbind option_bind].
      rewrite Hflat. by apply reconcileChildren_null_then_child. }
    destruct (type f) as [[tag|g]|]; [by rewrite Hup|by destruct (Hty g)|by rewrite Hup].
Qed.

Lemma null_child_before_another_throws_witness :
  performUnitOfWork no_components 0
    (mkState
       [mkFiber (Some (THost "div"))
          (Some (mkProps [] (Some [Prim VNull; createElement (THost "p") None []])))
          None None None None None (Some PLACEMENT) None]
       [] (Some 0) None (Some 0) (Some []) None 0 1 []) = None.
Proof.
  apply (proj2 (null_child_before_another_throws no_components []
                  (Prim VNull) (createElement (THost "p") None []) [] eq_refl eq_refl)
           0 _
           (mkFiber (Some (THost "div"))
              (Some (mkProps [] (Some [Prim VNull; createElement (THost "p") None []])))
              None None None None None (Some PLACEMENT) None)
           (mkProps [] (Some [Prim VNull; createElement (THost "p") None []]))
           [Prim VNull; createElement (THost "p") None []]);
    [reflexivity|intros g H; discriminate H|reflexivity|reflexivity|reflexivity].
Defined.

(** ** The scheduler: idle periods *)

Lemma workLoop_units (components : nat -> option Props -> Comp) (deadline : list Z)
    (s : State) :
  workLoop components deadline s =
    s1 ← run_units components (units_of deadline) s;
    if ready_to_commit s1 then commitRoot s1 else Some s1.
Proof. unfold workLoop. by rewrite work_run_units. Qed.

Lemma not_ready_without_root (s : State) : wipRoot s = None -> ready_to_commit s = false.
Proof.
  intros Hw. destruct (ready_to_commit s) eqn:Hr; [|done].
  apply ready_to_commit_true in Hr as [_ [w Hw']]. congruence.
Qed.

Lemma not_ready_with_cursor (s : State) :
  is_Some (nextUnitOfWork s) -> ready_to_commit s = false.
Proof.
  intros [r Hn]. destruct (ready_to_commit s) eqn:Hr; [|done].
  apply ready_to_commit_true in Hr as [Hn' _]. congruence.
Qed.

Lemma run_units_split (components : nat -> option Props -> Comp) (a b : nat) (s : State) :
  (s1 ← run_units components (a + b) s;
   if ready_to_commit s1 then commitRoot s1 else Some s1) =
  (s1 ← run_units components a s;
   if ready_to_commit s1 then commitRoot s1 else Some s1) ≫=
  (fun s2 => s3 ← run_units components b s2;
             if ready_to_commit s3 then commitRoot s3 else Some s3).
Proof.
  rewrite run_units_add.
  destruct (run_units components a s) as [s1|]; cbn [mbind option_bind]; [|done].
  destruct (nextUnitOfWork s1) as [r|] eqn:Hnext.
  - by rewrite not_ready_with_cursor by by eexists.
  - rewrite (run_units_done components b s1 Hnext). cbn [mbind option_bind].
    destruct (ready_to_commit s1) eqn:Hready; cbn [mbind option_bind].
    + destruct (commitRoot s1) as [s2|] eqn:Hcommit; cbn [mbind option_bind]; [|done].
      apply commitRoot_inv in Hcommit as (w & ops & Hw & ->).
      rewrite run_units_done by done. cbn [mbind option_bind].
      by rewrite not_ready_without_root.
    + rewrite (run_units_done components b s1 Hnext). cbn [mbind option_bind].
      by rewrite Hready.
Qed.

Lemma idle_None (components : nat -> option Props -> Comp) (deadlines : list (list Z)) :
  foldl (fun acc deadline => s' ← acc; workLoop components deadline s') None deadlines = None.
Proof. induction deadlines as [|d ds IH]; simpl; [done|apply IH]. Qed.

Lemma idle_cons (components : nat -> option Props -> Comp) (d : list Z)
    (ds : list (list Z)) (s : State) :
  idle components (d :: ds) s = workLoop components d s ≫= idle components ds.
Proof.
  unfold idle. simpl.
  destruct (workLoop components d s) as [s1|]; cbn [mbind option_bind]; [done|].
  apply idle_None.
Qed.

Lemma units_of_repeat (n : nat) : units_of (repeat 1%Z n) = S n.
Proof. induction n as [|n IH]; simpl; [done|by rewrite IH]. Qed.

Lemma idle_units (components : nat -> option Props -> Comp) (ds : list (list Z)) :
  forall (d : list Z) (s : State),
    idle components (d :: ds) s =
      s1 ← run_units components (units_of d + list_sum (map units_of ds)) s;
      if ready_to_commit s1 then commitRoot s1 else Some s1.
Proof.
  induction ds as [|d' ds IH]; intros d s.
  - rewrite idle_cons, workLoop_units. cbn [map list_sum foldr]. rewrite Nat.add_0_r.
    by destruct (run_units components (units_of d) s ≫= _).
  - rewrite idle_cons, workLoop_units. cbn [map list_sum foldr].
    rewrite run_units_split.
    destruct (run_units components (units_of d) s ≫= _) as [s2|];
      cbn [mbind option_bind]; [|done].
    apply IH.
Qed.

(** X5.  Slicing the work into idle periods does not change what it comes
    to: a sequence of idle periods leaves the state that one idle period
    leaves which allows as many units of work as they all do together.
    (An idle period allows one unit more than its deadline answers with a
    millisecond or more left, before the first answer below that.) *)
Theorem idle_periods_add_up (components : nat -> option Props -> Comp)
    (d : list Z) (ds : list (list Z)) (whole : list Z) (s : State) :
  units_of whole = units_of d + list_sum (map units_of ds) ->
  idle components (d :: ds) s = workLoop components whole s.
Proof. intros Hw. by rewrite idle_units, workLoop_units, Hw. Qed.

Lemma idle_periods_add_up_witness :
  idle no_components [[5%Z; 0%Z]; [0%Z]; [7%Z; 7%Z]]
    (render list_of_two 0 (initialState 1)) =
  workLoop no_components [1%Z; 1%Z; 1%Z; 1%Z; 1%Z]
    (render list_of_two 0 (initialState 1)).
Proof. by apply idle_periods_add_up. Defined.

Lemma workLoop_at_rest (components : nat -> option Props -> Comp) (d : list Z) (s : State) :
  nextUnitOfWork s = None -> wipRoot s = None -> workLoop components d s = Some s.
Proof.
  intros Hnext Hwip. rewrite workLoop_units, run_units_done by done.
  cbn [mbind option_bind]. by rewrite not_ready_without_root.
Qed.

(** X6.  The commit is not made twice: when an idle period ends with a null
    cursor, no work-in-progress root is left, and every later idle period
    leaves the state as it is, until [render] or a setter is called. *)
Theorem idle_after_the_work_is_done (components : nat -> option Props -> Comp)
    (d : list Z) (s s' : State) :
  workLoop components d s = Some s' -> nextUnitOfWork s' = None ->
  wipRoot s' = None /\
  forall ds, idle components ds s' = Some s'.
Proof.
  intros Hrun Hnext.
  assert (wipRoot s' = None) as Hwip.
  { unfold workLoop in Hrun. apply bind_Some in Hrun as (s1 & _ & Hrun).
    destruct (ready_to_commit s1) eqn:Hready.
    - by apply commitRoot_inv in Hrun as (w & ops & _ & ->).
    - simplify_eq. destruct (wipRoot s') as [w|] eqn:Hw; [|done].
      assert (ready_to_commit s' = true) as Hr; [|congruence].
      apply ready_to_commit_true. split; [done|]. by eexists. }
  split; [done|].
  intros ds. induction ds as [|d' ds IH]; [done|].
  rewrite idle_cons, workLoop_at_rest by done. apply IH.
Qed.

Lemma idle_after_the_work_is_done_witness :
  exists s',
    workLoop no_components plenty (render list_of_two 0 (initialState 1)) = Some s' /\
    wipRoot s' = None /\ idle no_components [plenty; plenty] s' = Some s'.
Proof.
  assert (exists s', workLoop no_components plenty
                       (render list_of_two 0 (initialState 1)) = Some s' /\
                     nextUnitOfWork s' = None) as (s' & Hs' & Hn).
  { eexists. split; vm_compute; reflexivity. }
  destruct (idle_after_the_work_is_done no_components plenty _ s' Hs' Hn) as [Hw Hidle].
  exists s'. split_and!; [exact Hs'|exact Hw|apply Hidle].
Defined.

(** ** What a unit of work leaves alone *)

Lemma tagged_or_same_refl (f : Fiber) : tagged_or_same f f.
Proof. by left. Qed.

Lemma tagged_or_same_trans (f1 f2 f3 : Fiber) :
  tagged_or_same f1 f2 -> tagged_or_same f2 f3 -> tagged_or_same f1 f3.
Proof. intros [->| ->] [->| ->]; [by left|by right|by right|by right]. Qed.

Lemma quiet_refl (L wip : nat) (s : State) : quiet L wip s s.
Proof.
  split_and!; [done| |done]. intros i f _ _ Hf. exists f. split; [done|by left].
Qed.

Lemma quiet_trans (L wip : nat) (s1 s2 s3 : State) :
  quiet L wip s1 s2 -> quiet L wip s2 s3 -> quiet L wip s1 s3.
Proof.
  intros (Hl1 & Hk1 & Hc1) (Hl2 & Hk2 & Hc2). split_and!; [lia| |by auto].
  intros i f Hi Hne Hf.
  destruct (Hk1 i f Hi Hne Hf) as (f2 & Hf2 & Ht2).
  destruct (Hk2 i f2 Hi Hne Hf2) as (f3 & Hf3 & Ht3).
  exists f3. split; [done|]. by eapply tagged_or_same_trans.
Qed.

Lemma quiet_same_fibers (L wip : nat) (s s' : State) :
  fibers s' = fibers s -> quiet L wip s s'.
Proof.
  intros Heq. split_and!.
  - by rewrite Heq.
  - intros i f _ _ Hf. exists f. unfold deref in *. rewrite Heq. split; [done|by left].
  - intros _ Hc i f Hi Hf. unfold deref in Hf. rewrite Heq in Hf. by apply (Hc i f).
Qed.

Lemma quiet_alloc (L wip : nat) (f : Fiber) (s : State) :
  L <= length (fibers s) ->
  child f = None -> sibling f = None -> parent f = Some wip ->
  quiet L wip s (alloc f s).2.
Proof.
  intros HL Hch Hsib Hpar. unfold alloc. simpl. split_and!.
  - simpl. rewrite length_app. lia.
  - intros i g Hi _ Hg. exists g. unfold deref in *. simpl.
    rewrite lookup_app_l by lia. split; [done|by left].
  - intros Hw Hc i g Hi Hg. unfold deref in Hg. simpl in Hg.
    destruct (decide (i < length (fibers s))) as [Hlt|Hge].
    + rewrite lookup_app_l in Hg by done. by apply (Hc i g).
    + rewrite lookup_app_r in Hg by lia.
      destruct (i - length (fibers s)) as [|d]; simpl in Hg; [|done]. simplify_eq.
      rewrite Hch, Hsib, Hpar. split_and!; intros c Hcc; by simplify_eq.
Qed.

Lemma quiet_modify (L wip j : nat) (g : Fiber -> Fiber) (s s' : State) :
  modify j g s = Some s' ->
  j = wip \/ L <= j \/ (forall f, g f = with_effectTag (Some DELETION) f) ->
  (forall f, (forall c, child (g f) = Some c -> child f = Some c \/ L <= c) /\
             (forall c, sibling (g f) = Some c -> sibling f = Some c \/ L <= c) /\
             parent (g f) = parent f) ->
  quiet L wip s s'.
Proof.
  intros Hm Hj Hg. apply modify_inv in Hm as [Hlt ->]. split_and!.
  - simpl. by rewrite length_alter.
  - intros i f Hi Hne Hf. unfold deref in *. simpl.
    destruct (decide (j = i)) as [->|Hji].
    + rewrite list_lookup_alter_eq, Hf. simpl. eexists. split; [done|].
      destruct Hj as [->|[Hj|Hj]]; [done|lia|]. right. apply Hj.
    + rewrite list_lookup_alter_ne by done. exists f. split; [done|by left].
  - intros _ Hc i f' Hi Hf'. unfold deref in Hf'. simpl in Hf'.
    destruct (decide (j = i)) as [->|Hji].
    + rewrite list_lookup_alter_eq in Hf'.
      destruct (fibers s !! i) as [f|] eqn:Hf; simplify_eq/=.
      destruct (Hc i f Hi Hf) as (Hcc & Hcs & Hcp).
      destruct (Hg f) as (Hgc & Hgs & Hgp). split_and!.
      * intros c Hcg. destruct (Hgc c Hcg) as [H|H]; [by apply Hcc|done].
      * intros c Hcg. destruct (Hgs c Hcg) as [H|H]; [by apply Hcs|done].
      * intros p Hp. rewrite Hgp in Hp. by apply Hcp.
    + rewrite list_lookup_alter_ne in Hf' by done. by apply (Hc i f').
Qed.

Lemma links_of_with_effectTag (L : nat) (t : option EffectTag) (f : Fiber) :
  (forall c, child (with_effectTag t f) = Some c -> child f = Some c \/ L <= c) /\
  (forall c, sibling (with_effectTag t f) = Some c -> sibling f = Some c \/ L <= c) /\
  parent (with_effectTag t f) = parent f.
Proof. split_and!; [by left|by left|done]. Qed.

Lemma links_of_with_hooks (L : nat) (h : option (list nat)) (f : Fiber) :
  (forall c, child (with_hooks h f) = Some c -> child f = Some c \/ L <= c) /\
  (forall c, sibling (with_hooks h f) = Some c -> sibling f = Some c \/ L <= c) /\
  parent (with_hooks h f) = parent f.
Proof. split_and!; [by left|by left|done]. Qed.

Lemma links_of_with_dom (L : nat) (d : option nat) (f : Fiber) :
  (forall c, child (with_dom d f) = Some c -> child f = Some c \/ L <= c) /\
  (forall c, sibling (with_dom d f) = Some c -> sibling f = Some c \/ L <= c) /\
  parent (with_dom d f) = parent f.
Proof. split_and!; [by left|by left|done]. Qed.

Lemma links_of_with_child (L : nat) (n : option nat) (f : Fiber) :
  (forall c, n = Some c -> L <= c) ->
  (forall c, child (with_child n f) = Some c -> child f = Some c \/ L <= c) /\
  (forall c, sibling (with_child n f) = Some c -> sibling f = Some c \/ L <= c) /\
  parent (with_child n f) = parent f.
Proof. intros Hn. split_and!; [|by left|done]. intros c Hc. right. by apply Hn. Qed.

Lemma links_of_with_sibling (L : nat) (n : option nat) (f : Fiber) :
  (forall c, n = Some c -> L <= c) ->
  (forall c, child (with_sibling n f) = Some c -> child f = Some c \/ L <= c) /\
  (forall c, sibling (with_sibling n f) = Some c -> sibling f = Some c \/ L <= c) /\
  parent (with_sibling n f) = parent f.
Proof. intros Hn. split_and!; [by left| |done]. intros c Hc. right. by apply Hn. Qed.

(** One turn of the reconciler, whatever the state it starts from. *)
Lemma reconcile_step_quiet (L wip : nat) (els : list Child) (i : nat)
    (old prev old' prev' : option nat) (s s' : State) :
  reconcile_step wip els i old prev s = Some (old', prev', s') ->
  L <= length (fibers s) ->
  (forall p, prev = Some p -> L <= p) ->
  quiet L wip s s' /\ (forall p, prev' = Some p -> L <= p).
Proof.
  unfold reconcile_step. intros H HL Hprev.
  set (element := els !! i ≫= λ c, if child_truthy c then Some c else None) in H.
  destruct (match old with Some o => _ | None => Some None end) as [oldf|]; [|done].
  cbn [mbind option_bind] in H.
  match type of H with
  | (let '(_, _) := ?X in _) = _ => destruct X as [newFiber s1] eqn:H1
  end.
  apply bind_Some in H as (s2 & H2 & H).
  apply bind_Some in H as (s3 & H3 & H). simplify_eq.
  assert (quiet L wip s s1 /\ (forall p, prev' = Some p -> L <= p)) as [Hq1 Hnew].
  { destruct oldf as [[o f]|], element as [e|];
      try destruct (type_eq (elem_type e) (type f));
      unfold alloc in H1; simpl in H1; simplify_eq;
      first [ split; [by apply (quiet_alloc L wip _ s)|by intros p [= <-]]
            | split; [apply quiet_refl|done] ]. }
  assert (quiet L wip s1 s2) as Hq2.
  { destruct oldf as [[o f]|]; [|simplify_eq; apply quiet_refl].
    destruct (match element with Some e => _ | None => false end);
      [simplify_eq; apply quiet_refl|].
    apply bind_Some in H2 as (sa & Ha & H2).
    apply bind_Some in H2 as (dl & Hd & H2). simplify_eq.
    eapply quiet_trans.
    - eapply quiet_modify; [done|right; right; done|].
      intros g. apply links_of_with_effectTag.
    - by apply quiet_same_fibers. }
  assert (quiet L wip s2 s') as Hq3.
  { destruct (i =? 0)%nat.
    - eapply quiet_modify; [done|by left|]. intros g. by apply links_of_with_child.
    - destruct element; [|simplify_eq; apply quiet_refl].
      apply bind_Some in H3 as (p & Hp & H3).
      eapply quiet_modify; [done|right; left; by apply Hprev|].
      intros g. by apply links_of_with_sibling. }
  split; [|done]. eapply quiet_trans; [done|]. by eapply quiet_trans.
Qed.

Lemma reconcile_loop_quiet (L wip : nat) (els : list Child) (fuel : nat) :
  forall (i : nat) (old prev : option nat) (s s' : State),
    reconcile_loop fuel wip els i old prev s = Some s' ->
    L <= length (fibers s) ->
    (forall p, prev = Some p -> L <= p) ->
    quiet L wip s s'.
Proof.
  induction fuel as [|fuel IH]; intros i old prev s s' H HL Hprev; simpl in H.
  - destruct (_ || _); [done|]. simplify_eq. apply quiet_refl.
  - destruct (_ || _); [|simplify_eq; apply quiet_refl].
    apply bind_Some in H as ([[old' prev'] s1] & Hstep & H).
    apply (reconcile_step_quiet L) in Hstep as [Hq Hprev']; [|done|done].
    eapply quiet_trans; [done|]. eapply IH; [done| |done].
    destruct Hq as (Hlen & _). lia.
Qed.

Lemma reconcileChildren_quiet (L wip : nat) (els : list Child) (s s' : State) :
  reconcileChildren wip els s = Some s' -> L <= length (fibers s) -> quiet L wip s s'.
Proof.
  unfold reconcileChildren. intros H HL.
  apply bind_Some in H as (w & Hw & H).
  apply bind_Some in H as (old & Hold & H).
  by eapply reconcile_loop_quiet.
Qed.

Lemma useState_quiet (L w : nat) (initial : Val) (s s' : State) (v : Val) (r : nat) :
  useState initial s = Some (v, r, s') -> wipFiber s = Some w ->
  quiet L w s s' /\ wipFiber s' = Some w.
Proof.
  unfold useState. intros H Hw. rewrite Hw in H. cbn [mbind option_bind] in H.
  apply bind_Some in H as (f & Hf & H).
  apply bind_Some in H as (oldHook & Hold & H).
  apply bind_Some in H as (hs & Hhs & H).
  apply bind_Some in H as (s2 & Hm & H). simplify_eq.
  pose proof (quiet_modify L w w _ _ _ Hm (or_introl eq_refl)
                (fun g => links_of_with_hooks L _ g)) as Hq.
  apply modify_inv in Hm as [_ ->]. split; [|done].
  eapply quiet_trans; [|eapply quiet_trans; [exact Hq|]]; by apply quiet_same_fibers.
Qed.

Lemma run_component_quiet (L w : nat) (c : Comp) :
  forall (s s' : State) (result : Child),
    run_component c s = Some (result, s') -> wipFiber s = Some w -> quiet L w s s'.
Proof.
  induction c as [result'|initial k IH]; intros s s' result H Hw; simpl in H.
  - simplify_eq. apply quiet_refl.
  - apply bind_Some in H as ([[st setter] s1] & Hu & H).
    apply (useState_quiet L w) in Hu as [Hq Hw1]; [|done].
    eapply quiet_trans; [done|]. by eapply IH.
Qed.

Lemma updateFunctionComponent_quiet (components : nat -> option Props -> Comp)
    (L fiber c : nat) (s s' : State) :
  updateFunctionComponent components fiber c s = Some s' ->
  L <= length (fibers s) -> quiet L fiber s s'.
Proof.
  unfold updateFunctionComponent. intros H HL.
  apply bind_Some in H as (s2 & Hm & H).
  apply bind_Some in H as (fb & Hfb & H).
  apply bind_Some in H as ([result s3] & Hrun & H).
  pose proof (quiet_modify L fiber fiber _ _ _ Hm (or_introl eq_refl)
                (fun g => links_of_with_hooks L _ g)) as Hq2.
  assert (wipFiber s2 = Some fiber) as Hw.
  { by apply modify_inv in Hm as [_ ->]. }
  pose proof (run_component_quiet L fiber _ _ _ _ Hrun Hw) as Hq3.
  assert (quiet L fiber s s3) as Hq.
  { eapply quiet_trans; [|eapply quiet_trans; [exact Hq2|exact Hq3]].
    by apply quiet_same_fibers. }
  eapply quiet_trans; [done|]. eapply reconcileChildren_quiet; [done|].
  destruct Hq as (Hlen & _). lia.
Qed.

Lemma updateHostComponent_quiet (L fiber : nat) (s s' : State) :
  updateHostComponent fiber s = Some s' ->
  L <= length (fibers s) -> quiet L fiber s s'.
Proof.
  unfold updateHostComponent. intros H HL.
  apply bind_Some in H as (f & Hf & H).
  apply bind_Some in H as (s1 & Hs1 & H).
  apply bind_Some in H as (p & Hp & H).
  apply bind_Some in H as (cs & Hcs & H).
  assert (quiet L fiber s s1) as Hq.
  { destruct (dom f) as [d|]; [simplify_eq; apply quiet_refl|].
    apply bind_Some in Hs1 as ([n sa] & Hcreate & Hm).
    apply createDom_inv in Hcreate as (p' & create & ops & _ & _ & _ & -> & _).
    apply (quiet_trans L fiber s (emit ops (set_domCount (S (domCount s)) s)));
      [by apply quiet_same_fibers|].
    eapply quiet_modify; [done|by left|]. intros g. apply links_of_with_dom. }
  eapply quiet_trans; [done|]. eapply reconcileChildren_quiet; [done|].
  destruct Hq as (Hlen & _). lia.
Qed.

Lemma performUnitOfWork_quiet (components : nat -> option Props -> Comp)
    (L fiber : nat) (s s' : State) (next : option nat) :
  performUnitOfWork components fiber s = Some (next, s') ->
  L <= length (fibers s) -> quiet L fiber s s'.
Proof.
  intros H HL. apply performUnitOfWork_inv in H as (f & Hf & _ & Hup).
  destruct (type f) as [[tag|c]|];
    first [by eapply updateHostComponent_quiet | by eapply updateFunctionComponent_quiet].
Qed.

Lemma with_fresh_dom_identity (fiber : nat) (f : Fiber) (p : Props) (s : State) :
  deref s fiber = Some f ->
  forall i g, deref s i = Some g ->
    exists g', deref (with_fresh_dom fiber f p s) i = Some g' /\ same_identity g g'.
Proof.
  intros Hf i g Hg. destruct (decide (i = fiber)) as [->|Hne].
  - rewrite Hf in Hg. simplify_eq. unfold with_fresh_dom.
    destruct (dom g); [exists g; split; [done|apply same_identity_refl]|].
    destruct (create_call _ _); [|exists g; split; [done|apply same_identity_refl]].
    unfold deref in *. simpl. rewrite list_lookup_alter_eq, Hf. by eexists.
  - exists g. unfold deref. rewrite with_fresh_dom_frame by done.
    split; [done|apply same_identity_refl].
Qed.

Lemma same_identity_trans (f1 f2 f3 : Fiber) :
  same_identity f1 f2 -> same_identity f2 f3 -> same_identity f1 f3.
Proof. unfold same_identity. intros (? & ? & ? & ?) (? & ? & ? & ?). split_and!; congruence. Qed.

Lemma fibers_kept_parents (s s' : State) :
  fibers_kept s s' -> length (fibers s') = length (fibers s) ->
  parents_older s -> parents_older s'.
Proof.
  intros Hk Hlen Hpo r g q Hg Hq.
  pose proof (deref_lt _ _ _ Hg) as Hr. rewrite Hlen in Hr.
  destruct (lookup_lt_is_Some_2 _ _ Hr) as [g0 Hg0].
  destruct (Hk r g0 Hg0) as (g' & Hg' & (_ & _ & Hpar & _) & _).
  rewrite Hg in Hg'. simplify_eq. eapply Hpo; [done|]. by rewrite <- Hpar.
Qed.

(** What a unit of work keeps of every fiber, and of the roots. *)
Lemma performUnitOfWork_identity (components : nat -> option Props -> Comp)
    (fiber : nat) (s s' : State) (next : option nat) :
  performUnitOfWork components fiber s = Some (next, s') ->
  (forall i f, deref s i = Some f ->
     exists f', deref s' i = Some f' /\ same_identity f f') /\
  currentRoot s' = currentRoot s /\ wipRoot s' = wipRoot s /\
  (parents_older s -> parents_older s').
Proof.
  intros H. apply performUnitOfWork_inv in H as (f & Hf & _ & Hup).
  pose proof (deref_lt _ _ _ Hf) as Hlt.
  assert (forall c, type f = Some (TFun c) ->
            updateFunctionComponent components fiber c s = Some s' ->
            (forall i g, deref s i = Some g ->
               exists g', deref s' i = Some g' /\ same_identity g g') /\
            currentRoot s' = currentRoot s /\ wipRoot s' = wipRoot s /\
            (parents_older s -> parents_older s')) as Hfun.
  { intros c Hty Hc.
    apply updateFunctionComponent_inv in Hc as (f0 & s3 & result & Hf0 & Hok & _ & Hrec).
    pose proof (reconcileChildren_keeps _ _ _ _ Hrec) as Hstep.
    destruct Hok as (Hk3 & Hlen3 & _ & _ & _ & _ & Hc3 & Hw3).
    pose proof Hstep as (Hk & Hg & _).
    destruct Hg as (_ & _ & Hc' & Hw' & _).
    split_and!; try congruence.
    - intros i g Hg. destruct (Hk3 i g Hg) as (g3 & Hg3 & Hid3 & _).
      destruct (Hk i g3 Hg3) as (g' & Hg' & Hid' & _).
      exists g'. split; [done|]. by eapply same_identity_trans.
    - intros Hpo. eapply step_ok_parents; [|done|by eapply fibers_kept_parents]. lia. }
  assert ((forall c, type f <> Some (TFun c)) ->
            updateHostComponent fiber s = Some s' ->
            (forall i g, deref s i = Some g ->
               exists g', deref s' i = Some g' /\ same_identity g g') /\
            currentRoot s' = currentRoot s /\ wipRoot s' = wipRoot s /\
            (parents_older s -> parents_older s')) as Hhost.
  { intros _ Hh. pose proof Hh as Hh'.
    apply updateHostComponent_inv in Hh' as (f0 & p & cs & s1 & Hf0 & Hp & Hcs & _).
    rewrite Hf in Hf0. simplify_eq.
    rewrite (updateHostComponent_unfold fiber s f0 p cs Hf Hp Hcs) in Hh
      by (by eapply updateHostComponent_can).
    pose proof (reconcileChildren_keeps _ _ _ _ Hh) as Hstep.
    pose proof Hstep as (Hk & Hg & _).
    destruct Hg as (_ & _ & Hc' & Hw' & _).
    destruct (with_fresh_dom_roots fiber f0 p s) as (_ & Hw1 & Hc1).
    split_and!; try congruence.
    - intros i g Hg. destruct (with_fresh_dom_identity fiber f0 p s Hf i g Hg)
        as (g1 & Hg1 & Hid1).
      destruct (Hk i g1 Hg1) as (g' & Hg' & Hid' & _).
      exists g'. split; [done|]. by eapply same_identity_trans.
    - intros Hpo. eapply step_ok_parents; [|done|by apply with_fresh_dom_parents].
      by rewrite with_fresh_dom_length. }
  destruct (type f) as [[tag|c]|] eqn:Hty; [apply Hhost|by apply (Hfun c)|apply Hhost];
    done.
Qed.



(** ** A render that is abandoned for another *)

Lemma climbs_in_region (L : nat) (s : State) (r : nat) (next : option nat) :
  region_closed L s -> climbs s r next -> L <= r -> forall n, next = Some n -> L <= n.
Proof.
  intros Hc. induction 1 as [r f sib Hf Hs|r f p next Hf Hs Hp Hcl IH|r f Hf Hs Hp];
    intros Hr n Hn.
  - simplify_eq. destruct (Hc r f Hr Hf) as (_ & Hsib & _). by apply Hsib.
  - apply IH; [|done]. destruct (Hc r f Hr Hf) as (_ & _ & Hpar). by apply Hpar.
  - done.
Qed.

Lemma performUnitOfWork_cursor (components : nat -> option Props -> Comp)
    (L r : nat) (s s' : State) (next : option nat) :
  performUnitOfWork components r s = Some (next, s') ->
  L <= r -> region_closed L s' -> forall n, next = Some n -> L <= n.
Proof.
  intros H Hr Hc n Hn. apply performUnitOfWork_inv in H as (f & _ & (f' & Hf' & Hnext) & _).
  destruct (child f') as [c|] eqn:Hch.
  - simplify_eq. destruct (Hc r f' Hr Hf') as (Hchild & _). by apply Hchild.
  - by eapply climbs_in_region.
Qed.

(** The units of work of a render whose fibers start at [L] leave the
    older fibers alone, but for tags. *)
Lemma run_units_old_kept (components : nat -> option Props -> Comp) (L k : nat) :
  forall (s s' : State),
    run_units components k s = Some s' ->
    L <= length (fibers s) -> region_closed L s ->
    (forall r, nextUnitOfWork s = Some r -> L <= r) ->
    (forall i f, i < L -> deref s i = Some f ->
       exists f', deref s' i = Some f' /\ tagged_or_same f f') /\
    length (fibers s) <= length (fibers s').
Proof.
  induction k as [|k IH]; intros s s' H HL Hc Hcur; simpl in H.
  - simplify_eq. split; [|done]. intros i f _ Hf. exists f. split; [done|by left].
  - destruct (nextUnitOfWork s) as [r|] eqn:Hnext.
    2:{ simplify_eq. split; [|done]. intros i f _ Hf. exists f. split; [done|by left]. }
    apply bind_Some in H as ([next s1] & Hunit & H).
    pose proof (Hcur r eq_refl) as Hr.
    pose proof (performUnitOfWork_quiet components L r s s1 next Hunit HL)
      as (Hlen & Hothers & Hclosed).
    specialize (Hclosed Hr Hc).
    destruct (IH (set_nextUnitOfWork next s1) s' H) as [Hkept Hlen']; [simpl; lia|done| |].
    { intros n Hn. simpl in Hn.
      by eapply (performUnitOfWork_cursor components L r s s1 next). }
    split; [|simpl in Hlen'; lia].
    intros i f Hi Hf. destruct (Hothers i f Hi) as (f1 & Hf1 & Ht1); [lia|done|].
    destruct (Hkept i f1 Hi Hf1) as (f' & Hf' & Ht').
    exists f'. split; [done|]. by eapply tagged_or_same_trans.
Qed.

Lemma run_units_roots (components : nat -> option Props -> Comp) (k : nat) :
  forall (s s' : State),
    run_units components k s = Some s' ->
    currentRoot s' = currentRoot s /\ (parents_older s -> parents_older s').
Proof.
  induction k as [|k IH]; intros s s' H; simpl in H.
  - by simplify_eq.
  - destruct (nextUnitOfWork s) as [r|]; [|by simplify_eq].
    apply bind_Some in H as ([next s1] & Hunit & H).
    apply performUnitOfWork_identity in Hunit as (_ & Hcur & _ & Hpo).
    destruct (IH _ _ H) as [Hcur' Hpo']. simpl in Hcur'. split; [congruence|].
    intros Hp. apply Hpo'. by apply Hpo.
Qed.

Lemma sibling_chain_tagged (h h' : list Fiber) (start : option nat) (refs : list nat) :
  sibling_chain h start refs ->
  (forall i f, i ∈ refs -> h !! i = Some f ->
     exists f', h' !! i = Some f' /\ tagged_or_same f f') ->
  sibling_chain h' start refs.
Proof.
  induction 1 as [|r f l Hr Hch IH]; intros Hk; [constructor|].
  destruct (Hk r f) as (f' & Hf' & Ht); [by left|done|].
  econstructor; [exact Hf'|].
  replace (sibling f') with (sibling f) by by destruct Ht as [->| ->].
  apply IH. intros i g Hi. apply Hk. by right.
Qed.

Lemma tree_tagged (h h' : list Fiber) (lo hi : nat) :
  (forall i f, i < hi -> h !! i = Some f ->
     exists f', h' !! i = Some f' /\ tagged_or_same f f') ->
  forall r e, tree h lo hi r e -> r < hi -> tree h' lo hi r e.
Proof.
  intros Hk. fix IH 3. intros r e Ht Hr.
  destruct Ht as [r f tag attrs cs d refs Hf Hty Hp Hd Hch Hb Hkids].
  destruct (Hk r f Hr Hf) as (f' & Hf' & Htag).
  assert (type f' = type f /\ props f' = props f /\ dom f' = dom f /\ child f' = child f)
    as (Hty' & Hp' & Hd' & Hc') by by destruct Htag as [->| ->].
  eapply tree_node with (f := f') (refs := refs) (d := d);
    [done|congruence|congruence|congruence| |done|].
  - rewrite Hc'. apply (sibling_chain_tagged h); [done|].
    intros i g Hi. apply Hk. eapply Forall_forall in Hb; [|done]. lia.
  - clear Hch. revert Hb.
    induction Hkids as [|c e' refs' l' Hc Hrest IHk]; intros Hb; constructor.
    + apply IH; [done|]. inversion Hb; subst. lia.
    + apply IHk. by inversion Hb.
Qed.

Lemma render_region (e : Child) (c : nat) (s : State) :
  region_closed (length (fibers s)) (render e c s).
Proof.
  intros i f Hi Hf. unfold deref in Hf.
  destruct (render_fields e c s) as (Hfib & _). rewrite Hfib in Hf.
  rewrite lookup_app_r in Hf by done.
  destruct (i - length (fibers s)); simpl in Hf; [|done]. by simplify_eq.
Qed.

Lemma render_parents (e : Child) (c : nat) (s : State) :
  parents_older s -> parents_older (render e c s).
Proof.
  intros Hpo r f p Hf Hp. unfold deref in Hf.
  destruct (render_fields e c s) as (Hfib & _). rewrite Hfib in Hf.
  apply lookup_app_Some in Hf as [Hf|[_ Hf]]; [by apply (Hpo r f p)|].
  destruct (r - length (fibers s)); simpl in Hf; [|done]. by simplify_eq.
Qed.

(** The state in which an abandoned render leaves the page is one in which
    [render] starts as from rest. *)
Lemma at_rest_abandoned (components : nat -> option Props -> Comp) (e e1 : Child)
    (c1 k : nat) (s s1 : State) (again : bool) :
  at_rest s again e ->
  run_units components k (render e1 c1 s) = Some s1 ->
  at_rest (set_nextUnitOfWork None (set_wipRoot None s1)) again e.
Proof.
  intros Hrest Hrun.
  destruct (render_fields e1 c1 s) as (Hfib & Hnext & _ & _ & Hcur & _).
  destruct (run_units_roots components k _ _ Hrun) as [Hcur1 Hpo1].
  pose proof (Hpo1 (render_parents e1 c1 s (at_rest_parents s again e Hrest))) as Hpo.
  destruct again; unfold at_rest in *.
  - destruct Hrest as (_ & _ & _ & R & rf & c & HR & Hrf & Hch & Ht).
    destruct (run_units_old_kept components (length (fibers s)) k _ _ Hrun)
      as [Hkept Hlen].
    + rewrite Hfib, length_app. simpl. lia.
    + apply render_region.
    + intros r Hr. rewrite Hnext in Hr. by simplify_eq.
    + assert (forall i f, i < length (fibers s) -> fibers s !! i = Some f ->
                exists f', fibers s1 !! i = Some f' /\ tagged_or_same f f') as Hk.
      { intros i f Hi Hf. apply (Hkept i f Hi). unfold deref. rewrite Hfib.
        by rewrite lookup_app_l. }
      split_and!; try done.
      destruct (Hk R rf) as (rf' & Hrf' & Htag); [by eapply lookup_lt_Some|done|].
      pose proof Ht as Ht'. apply tree_inv in Ht' as (fc & _ & _ & _ & Hfc & _).
      apply lookup_lt_Some in Hfc.
      exists R, rf', c. split_and!.
      * simpl. congruence.
      * done.
      * replace (child rf') with (child rf) by by destruct Htag as [->| ->].
        apply (sibling_chain_tagged (fibers s)); [done|].
        intros i f Hi Hf. apply Hk; [|done]. by eapply lookup_lt_Some.
      * apply (tree_weaken (fibers s1) 0 (length (fibers s))); [lia| |].
        -- rewrite Hfib, length_app in Hlen. simpl in Hlen.
           change (fibers (set_nextUnitOfWork None (set_wipRoot None s1))) with (fibers s1).
           lia.
        -- by apply (tree_tagged (fibers s)).
  - destruct Hrest as (_ & _ & Hc0 & _). split_and!; try done. simpl. congruence.
Qed.



(** ** The hooks: what the setter queues and what [useState] reads *)

Lemma setState_computes (hook : nat) (action : Action) (s : State) (hk : Hook)
    (c : nat) (cf : Fiber) :
  hookStore s !! hook = Some hk -> currentRoot s = Some c -> deref s c = Some cf ->
  setState hook action s =
    Some (set_deletions (Some [])
            (set_nextUnitOfWork (Some (length (fibers s)))
               (set_wipRoot (Some (length (fibers s)))
                  (set_fibers
                     (fibers s ++ [mkFiber None (props cf) (dom cf) None None None (Some c)
                                     None None])
                     (set_hookStore
                        (<[hook := mkHook (state hk) (queue hk ++ [action])]> (hookStore s))
                        s))))).
Proof.
  intros Hh Hc Hcf. unfold setState. rewrite Hh. cbn [mbind option_bind].
  change (currentRoot (set_hookStore _ s)) with (currentRoot s). rewrite Hc.
  cbn [mbind option_bind].
  change (deref (set_hookStore _ s) c) with (deref s c). rewrite Hcf.
  reflexivity.
Qed.

Lemma setStates_None (hook : nat) (actions : list Action) :
  foldl (fun acc action => st ← acc; setState hook action st) None actions = None.
Proof. induction actions as [|a l IH]; simpl; [done|apply IH]. Qed.

Lemma setStates_cons (hook : nat) (a : Action) (actions : list Action) (s : State) :
  setStates hook (a :: actions) s = setState hook a s ≫= setStates hook actions.
Proof.
  unfold setStates. simpl.
  destruct (setState hook a s); cbn [mbind option_bind]; [done|apply setStates_None].
Qed.

Lemma setStates_computes (hook : nat) (actions : list Action) :
  forall (s : State) (hk : Hook) (c : nat) (cf : Fiber),
    hookStore s !! hook = Some hk -> currentRoot s = Some c -> deref s c = Some cf ->
    exists s',
      setStates hook actions s = Some s' /\
      hookStore s' = <[hook := mkHook (state hk) (queue hk ++ actions)]> (hookStore s) /\
      fibers s' =
        fibers s ++ repeat (mkFiber None (props cf) (dom cf) None None None (Some c)
                              None None) (length actions) /\
      currentRoot s' = Some c /\
      domLog s' = domLog s /\
      (actions <> [] ->
         wipRoot s' = Some (length (fibers s) + length actions - 1) /\
         nextUnitOfWork s' = Some (length (fibers s) + length actions - 1) /\
         deletions s' = Some []).
Proof.
  induction actions as [|a actions IH]; intros s hk c cf Hh Hc Hcf.
  - exists s. split_and!; try done.
    + rewrite app_nil_r. destruct hk as [st q]. simpl. by rewrite list_insert_id.
    + simpl. by rewrite app_nil_r.
  - rewrite setStates_cons, (setState_computes hook a s hk c cf Hh Hc Hcf).
    cbn [mbind option_bind].
    set (s1 := set_deletions _ _).
    pose proof (lookup_lt_Some _ _ _ Hh) as Hlt.
    destruct (IH s1 (mkHook (state hk) (queue hk ++ [a])) c cf) as
      (s' & Hrun & Hstore & Hfib & Hcur & Hlog & Hroot).
    + unfold s1. simpl. by rewrite list_lookup_insert_eq.
    + done.
    + unfold deref, s1. simpl. rewrite lookup_app_l; [done|]. by eapply lookup_lt_Some.
    + exists s'. split_and!; try done.
      * rewrite Hstore. unfold s1. simpl. rewrite list_insert_insert_eq.
        by rewrite <- app_assoc.
      * rewrite Hfib. unfold s1. simpl. by rewrite <- app_assoc.
      * intros _. destruct actions as [|a' actions'].
        -- unfold setStates in Hrun. simpl in Hrun. simplify_eq. simpl.
           by replace (length (fibers s) + 1 - 1) with (length (fibers s)) by lia.
        -- destruct Hroot as (Hw & Hn & Hd); [done|].
           unfold s1 in Hw, Hn. simpl in Hw, Hn. rewrite length_app in Hw, Hn.
           simpl in Hw, Hn. split_and!; [| |done].
           ++ rewrite Hw. f_equal. simpl. lia.
           ++ rewrite Hn. f_equal. simpl. lia.
Qed.

Lemma replay_app (q actions : list Action) (base : Val) :
  replay (q ++ actions) base = replay actions (replay q base).
Proof. revert base. induction q as [|a q IH]; intros base; simpl; [done|apply IH]. Qed.

(** X9.  Calls of a setter before the next render add up.  With a current
    root, any number of calls in a row succeed; they leave on the hook of
    the setter its queue followed by the actions in call order, which a
    replay applies after the ones that were pending; each call makes a new
    root off the current root, with its dom and props, and only the last
    of them is the work-in-progress root and the cursor, the pending
    deletions being empty; the current root and the DOM are not touched.
    Before the first commit there is no current root, and the setter
    throws. *)
Theorem setter_calls_add_up (hook : nat) (actions : list Action) (s : State) (hk : Hook) :
  hookStore s !! hook = Some hk ->
  (forall c cf, currentRoot s = Some c -> deref s c = Some cf ->
     exists s',
       setStates hook actions s = Some s' /\
       hookStore s' = <[hook := mkHook (state hk) (queue hk ++ actions)]> (hookStore s) /\
       (forall base, replay (queue hk ++ actions) base = replay actions (replay (queue hk) base)) /\
       fibers s' =
         fibers s ++ repeat (mkFiber None (props cf) (dom cf) None None None (Some c)
                               None None) (length actions) /\
       currentRoot s' = Some c /\
       domLog s' = domLog s /\
       (actions <> [] ->
          wipRoot s' = Some (length (fibers s) + length actions - 1) /\
          nextUnitOfWork s' = Some (length (fibers s) + length actions - 1) /\
          deletions s' = Some [])) /\
  (currentRoot s = None -> forall action, setState hook action s = None).
Proof.
  intros Hh. split.
  - intros c cf Hc Hcf.
    destruct (setStates_computes hook actions s hk c cf Hh Hc Hcf)
      as (s' & Hrun & Hstore & Hfib & Hcur & Hlog & Hroot).
    exists s'. split_and!; try done. apply replay_app.
  - intros Hc action. unfold setState. rewrite Hh. cbn [mbind option_bind].
    change (currentRoot (set_hookStore _ s)) with (currentRoot s). by rewrite Hc.
Qed.

Lemma setter_calls_add_up_witness :
  exists s',
    setStates 0 [increment; increment]
      (mkState [mkFiber None (Some (mkProps [] (Some []))) (Some 0) None None None None
                  None None]
         [mkHook (VNum 5) [increment]] None (Some 0) None None None 0 1 []) = Some s' /\
    wipRoot s' = Some 2 /\
    (h ← hookStore s' !! 0; Some (replay (queue h) (state h))) = Some (VNum 8).
Proof.
  destruct (proj1 (setter_calls_add_up 0 [increment; increment]
                     (mkState [mkFiber None (Some (mkProps [] (Some []))) (Some 0) None None
                                 None None None None]
                        [mkHook (VNum 5) [increment]] None (Some 0) None None None 0 1 [])
                     (mkHook (VNum 5) [increment]) eq_refl) 0 _ eq_refl eq_refl)
    as (s' & Hrun & Hstore & _ & _ & _ & _ & Hroot).
  exists s'. split_and!.
  - exact Hrun.
  - by destruct Hroot as (Hw & _).
  - rewrite Hstore. reflexivity.
Defined.

Lemma alternate_hook_split (s : State) :
  alternate_hook s = alternate_hook_ref s ≫= (fun r => hookStore s !! r).
Proof.
  unfold alternate_hook, alternate_hook_ref.
  destruct (wipFiber s) as [w|]; [|done]. cbn [mbind option_bind].
  destruct (deref s w) as [f|]; [|done]. cbn [mbind option_bind].
  destruct (alternate f) as [a|]; [|done]. cbn [mbind option_bind].
  destruct (deref s a) as [af|]; [|done]. cbn [mbind option_bind].
  by destruct (hooks af) as [hs|].
Qed.

Lemma alternate_hook_other (s : State) (h : nat) (hk' : Hook) :
  alternate_hook_ref s <> Some h ->
  alternate_hook (set_hookStore (<[h := hk']> (hookStore s)) s) = alternate_hook s.
Proof.
  intros Hne. rewrite !alternate_hook_split.
  change (alternate_hook_ref (set_hookStore (<[h := hk']> (hookStore s)) s))
    with (alternate_hook_ref s).
  destruct (alternate_hook_ref s) as [r|]; [|done]. simpl.
  apply list_lookup_insert_ne. congruence.
Qed.

(** X10.  [useState] reads one hook only, the one that the alternate of
    the fiber holds at the position of the call.  Whatever is put in the
    place of any other hook object, for one an action more in its queue,
    the call returns the same state and the same setter.  So an action
    given to a setter that was made before the last render that was
    committed, which queues it on a hook that no alternate holds any more,
    is never applied. *)
Theorem useState_reads_one_hook (initial : Val) (s : State) (w : nat) (f : Fiber)
    (hs : list nat) (h : nat) (hk' : Hook) :
  wipFiber s = Some w -> deref s w = Some f -> hooks f = Some hs ->
  alternate_ok s f ->
  alternate_hook_ref s <> Some h ->
  exists st setter s1 s1',
    useState initial s = Some (st, setter, s1) /\
    useState initial (set_hookStore (<[h := hk']> (hookStore s)) s) =
      Some (st, setter, s1').
Proof.
  intros Hw Hf Hhs Hok Hne.
  set (s' := set_hookStore (<[h := hk']> (hookStore s)) s).
  assert (alternate_ok s' f) as Hok'.
  { intros a Ha. destruct (Hok a Ha) as (af & Haf & Hhooks). exists af. split; [done|].
    intros hs' r Hhs' Hr. destruct (Hhooks hs' r Hhs' Hr) as [hk Hhk].
    apply lookup_lt_is_Some. unfold s'. simpl. rewrite length_insert.
    by eapply lookup_lt_Some. }
  rewrite (useState_computes initial s w f hs Hw Hf Hhs Hok).
  rewrite (useState_computes initial s' w f hs Hw Hf Hhs Hok').
  assert (pending s' = pending s /\ baseline initial s' = baseline initial s) as [-> ->].
  { unfold pending, baseline, s'. by rewrite alternate_hook_other. }
  eexists _, _, _, _. split; [reflexivity|].
  unfold s'. simpl. by rewrite length_insert.
Qed.

Lemma useState_reads_one_hook_witness :
  exists s1 s1',
    useState (VNum 0)
      (set_hookStore (hookStore mid_render ++ [mkHook (VNum 9) []]) mid_render) =
      Some (VNum 7, 2, s1) /\
    useState (VNum 0)
      (set_hookStore (<[1 := mkHook (VNum 9) [increment]]>
                        (hookStore mid_render ++ [mkHook (VNum 9) []])) mid_render) =
      Some (VNum 7, 2, s1').
Proof.
  destruct (useState_reads_one_hook (VNum 0)
              (set_hookStore (hookStore mid_render ++ [mkHook (VNum 9) []]) mid_render) 1
              (mkFiber (Some (TFun 0)) (Some (mkProps [] (Some []))) None None None None
                 (Some 0) (Some UPDATE) (Some [])) [] 1 (mkHook (VNum 9) [increment]))
    as (st & setter & s1 & s1' & H1 & H2).
  - reflexivity.
  - reflexivity.
  - reflexivity.
  - intros a Ha. injection Ha as <-. eexists. split; [reflexivity|].
    intros hs r Hhs Hr. injection Hhs as <-.
    destruct r as [|r]; [by eexists|]. discriminate Hr.
  - discriminate.
  - assert (st = VNum 7 /\ setter = 2) as [-> ->].
    { vm_compute in H1. by injection H1 as <- <- _. }
    by exists s1, s1'.
Defined.

(** ** The first version of [render], by recursion *)

Lemma Recursive_render_unfold (ty : EType) (attrs : list (string * Val))
    (cs : list Child) (container n : nat) :
  Recursive.render (Elem ty (mkProps attrs (Some cs))) container n =
    create ← create_call (Some ty) n;
    '(ops, n') ← render_children cs n (S n);
    if type_eq (Some ty) (Some (THost "TEXT_ELEMENT"))
       && match cs with [] => false | _ :: _ => true end
    then None
    else Some (create
               :: map (fun name => SetProperty n name (get (mkProps attrs (Some cs)) name))
                    (List.filter (fun key => negb (String.eqb key "children"))
                       (Object_keys (mkProps attrs (Some cs))))
               ++ ops ++ [AppendChild container n], n').
Proof.
  cbn [Recursive.render].
  assert (forall m,
            (fix render_children (cs : list Child) (m : nat) : option (list DomOp * nat) :=
               match cs with
               | [] => Some ([], m)
               | child :: cs' =>
                   '(ops1, m1) ← Recursive.render child n m;
                   '(ops2, m2) ← render_children cs' m1;
                   Some (ops1 ++ ops2, m2)
               end) cs m = render_children cs n m) as ->; [|done].
  induction cs as [|c cs IH]; intros m; [done|]. cbn [render_children].
  destruct (Recursive.render c n m) as [[ops1 m1]|]; cbn [mbind option_bind]; [|done].
  by rewrite IH.
Qed.

Lemma tag_ok_call (tag : string) (cs : list Child) (n : nat) :
  tag_ok tag cs ->
  create_call (Some (THost tag)) n =
    Some (if String.eqb tag "TEXT_ELEMENT" then CreateTextNode n else CreateElement tag n) /\
  type_eq (Some (THost tag)) (Some (THost "TEXT_ELEMENT"))
    && match cs with [] => false | _ :: _ => true end = false.
Proof.
  unfold tag_ok, create_call. simpl. destruct (String.eqb tag "TEXT_ELEMENT").
  - by intros ->.
  - by intros ->.
Qed.

Lemma plain_element_induction (P : Child -> Prop) :
  (forall tag attrs cs, tag_ok tag cs -> Forall plain_element cs -> Forall P cs ->
     P (Elem (THost tag) (mkProps attrs (Some cs)))) ->
  forall e, plain_element e -> P e.
Proof.
  intros Hstep. fix IH 2. intros e He. destruct He as [tag attrs cs Htag Hcs].
  apply Hstep; [done|done|]. clear Htag.
  induction Hcs as [|c l Hc Hl IHl]; constructor; [by apply IH|done].
Qed.

Lemma nodes_unfold (ty : EType) (attrs : list (string * Val)) (cs : list Child) :
  nodes (Elem ty (mkProps attrs (Some cs))) = S (list_sum (map nodes cs)).
Proof.
  cbn [nodes]. f_equal. induction cs as [|c cs IH]; [done|]. simpl. by rewrite IH.
Qed.

Lemma within_le (lo lo' : nat) (op : DomOp) : lo <= lo' -> within lo' op -> within lo op.
Proof. intros Hle. destruct op; simpl; lia. Qed.

(** What one call of the recursive [render] does, on a tree of host
    elements. *)
Lemma Recursive_render_plain (e : Child) :
  plain_element e ->
  forall container n,
    exists ops,
      Recursive.render e container n = Some (ops ++ [AppendChild container n], n + nodes e) /\
      Forall (within n) ops /\
      length (creations ops) = nodes e.
Proof.
  revert e. apply (plain_element_induction (fun e => forall container n, _)).
  intros tag attrs cs Htag Hcs IH container n.
  rewrite Recursive_render_unfold, nodes_unfold.
  destruct (tag_ok_call tag cs n Htag) as [-> Hleaf]. cbn [mbind option_bind].
  clear Htag. revert Hleaf. generalize (type_eq (Some (THost tag)) (Some (THost "TEXT_ELEMENT"))
     && match cs with [] => false | _ :: _ => true end). intros leaf ->.
  assert (forall dom m, dom <= m ->
            exists ops, render_children cs dom m = Some (ops, m + list_sum (map nodes cs)) /\
              Forall (within dom) ops /\
              length (creations ops) = list_sum (map nodes cs)) as Hkids.
  { clear Hcs. induction IH as [|c l Hc Hl IHl]; intros dom m Hm.
    - exists []. simpl. rewrite Nat.add_0_r. by split_and!.
    - destruct (Hc dom m) as (ops1 & Hr1 & Hw1 & Hn1).
      destruct (IHl dom (m + nodes c)) as (ops2 & Hr2 & Hw2 & Hn2); [lia|].
      exists ((ops1 ++ [AppendChild dom m]) ++ ops2).
      cbn [render_children]. rewrite Hr1. cbn [mbind option_bind]. rewrite Hr2.
      cbn [mbind option_bind]. split_and!.
      + do 2 f_equal. simpl. lia.
      + apply Forall_app. split; [|done]. apply Forall_app. split.
        * eapply Forall_impl; [done|]. intros op. apply within_le. lia.
        * constructor; [|done]. simpl. lia.
      + unfold creations in *. rewrite !List.filter_app, !length_app, Hn1, Hn2. simpl. lia. }
  destruct (Hkids n (S n)) as (ops & Hr & Hw & Hn); [lia|].
  rewrite Hr. cbn [mbind option_bind].
  exists ((if String.eqb tag "TEXT_ELEMENT" then CreateTextNode n else CreateElement tag n)
          :: map (fun name => SetProperty n name (get (mkProps attrs (Some cs)) name))
               (List.filter (fun key => negb (String.eqb key "children"))
                  (Object_keys (mkProps attrs (Some cs))))
          ++ ops).
  split_and!.
  - f_equal. f_equal; [|lia]. rewrite <- app_comm_cons. f_equal. apply app_assoc.
  - constructor; [destruct (String.eqb tag "TEXT_ELEMENT"); simpl; lia|].
    apply Forall_app. split; [|done].
    apply Forall_forall. intros op Hop. apply list_elem_of_In, in_map_iff in Hop
      as (name & <- & _). simpl. lia.
  - unfold creations in *. cbn [List.filter].
    assert (forall l, List.filter (fun op => match op with
                                             | CreateTextNode _ | CreateElement _ _ => true
                                             | _ => false
                                             end)
                        (map (fun name => SetProperty n name
                                            (get (mkProps attrs (Some cs)) name)) l) = [])
      as Hsets.
    { induction l as [|a l IHl]; [done|]. simpl. apply IHl. }
    rewrite List.filter_app, Hsets. simpl.
    destruct (String.eqb tag "TEXT_ELEMENT"); simpl; by rewrite Hn.
Qed.

Lemma Recursive_render_only_host_trees (e : Child) :
  forall container n r, Recursive.render e container n = Some r -> host_tree e.
Proof.
  revert e. fix IH 1. intros e container n r H.
  destruct e as [ty [attrs [cs|]]|items|v]; try discriminate H.
  rewrite Recursive_render_unfold in H.
  apply bind_Some in H as (create & Hcreate & H).
  apply bind_Some in H as ([ops n'] & Hkids & H).
  destruct ty as [tag|f]; [|discriminate Hcreate].
  constructor.
  - intros ->. by destruct cs.
  - clear H. revert Hkids. generalize (S n). generalize ops n'. clear ops n'.
    induction cs as [|c cs IHcs]; intros ops n' m Hkids; constructor.
    + cbn [render_children] in Hkids. apply bind_Some in Hkids as ([ops1 m1] & Hc & _).
      by eapply IH.
    + cbn [render_children] in Hkids. apply bind_Some in Hkids as ([ops1 m1] & Hc & Hrest).
      apply bind_Some in Hrest as ([ops2 m2] & Hrest & _). by eapply IHcs.
Qed.


Lemma list_of_two_plain : plain_element list_of_two.
Proof.
  assert (forall tag v, valid_name tag = true -> String.eqb tag "TEXT_ELEMENT" = false ->
            plain_element (createElement (THost tag) None [Prim (VStr v)]))
    as Hleaf.
  { intros tag v Hv Hne. constructor; [unfold tag_ok; by rewrite Hne|].
    constructor; [|constructor]. constructor; [reflexivity|constructor]. }
  constructor; [reflexivity|].
  constructor; [by apply Hleaf|]. constructor; [by apply Hleaf|constructor].
Qed.


(** ** The first render of a tree of host elements, call by call *)

Lemma simple_element_plain (e : Child) : simple_element e -> plain_element e.
Proof.
  revert e. apply simple_element_induction. intros tag attrs cs Htag Hnan Hcs IH.
  by constructor.
Qed.

Lemma setup_log_unfold (tag : string) (attrs : list (string * Val)) (cs : list Child)
    (n : nat) :
  setup_log (Elem (THost tag) (mkProps attrs (Some cs))) n =
    (if String.eqb tag "TEXT_ELEMENT" then CreateTextNode n else CreateElement tag n)
    :: updateDom n emptyProps (mkProps attrs (Some cs)) ++ setup_logs cs (S n).
Proof.
  reflexivity.
Qed.

Lemma attach_log_unfold (ty : EType) (attrs : list (string * Val)) (cs : list Child)
    (container n : nat) :
  attach_log (Elem ty (mkProps attrs (Some cs))) container n =
    AppendChild container n :: attach_logs cs n (S n).
Proof.
  cbn [attach_log]. f_equal. generalize (S n).
  induction cs as [|c cs IH]; intros m; [done|]. cbn [attach_logs]. by rewrite IH.
Qed.

Lemma setup_logs_app (a b : list Child) (m : nat) :
  setup_logs (a ++ b) m = setup_logs a m ++ setup_logs b (m + list_sum (map nodes a)).
Proof.
  revert m. induction a as [|c a IH]; intros m; simpl.
  - by rewrite Nat.add_0_r.
  - rewrite IH, <- app_assoc. do 3 f_equal. lia.
Qed.

Lemma attach_logs_app (a b : list Child) (container m : nat) :
  attach_logs (a ++ b) container m =
    attach_logs a container m ++ attach_logs b container (m + list_sum (map nodes a)).
Proof.
  revert m. induction a as [|c a IH]; intros m; simpl.
  - by rewrite Nat.add_0_r.
  - rewrite IH, <- app_assoc. do 3 f_equal. lia.
Qed.

Lemma nodes_positive (e : Child) : simple_element e -> 0 < nodes e.
Proof. intros [tag attrs cs _ _ _]. rewrite nodes_unfold. lia. Qed.

(** *** Numbered trees of fibers *)

Lemma placed_frame_both (h h' : list Fiber) (lo hi : nat) :
  (forall i, lo <= i < hi -> h' !! i = h !! i) ->
  (forall r e n, placed h lo hi r e n -> h' !! r = h !! r -> placed h' lo hi r e n) /\
  (forall rs es m, placed_forest h lo hi rs es m ->
     (forall r, r ∈ rs -> h' !! r = h !! r) -> placed_forest h' lo hi rs es m).
Proof.
  intros Hsame. split.
  - apply (placed_mutual h lo hi
             (fun r e n => h' !! r = h !! r -> placed h' lo hi r e n)
             (fun rs es m => (forall r, r ∈ rs -> h' !! r = h !! r) ->
                             placed_forest h' lo hi rs es m)).
    + intros r f tag attrs cs n refs Hf Hty Hok Hd Htag Hch Hb Hpar _ IH Hr.
      assert (forall c, c ∈ refs -> h' !! c = h !! c) as Hrefs.
      { intros c Hc. apply Hsame. by eapply Forall_forall in Hb. }
      eapply placed_node with (f := f) (refs := refs); try done.
      * by rewrite Hr.
      * apply (sibling_chain_frame h); done.
      * intros c fc Hc Hfc. rewrite Hrefs in Hfc by done. by eapply Hpar.
      * by apply IH.
    + intros m _. constructor.
    + intros r e rs es m _ IH1 _ IH2 Hrs. constructor.
      * apply IH1, Hrs. by left.
      * apply IH2. intros r' Hr'. apply Hrs. by right.
  - apply (placed_forest_mutual h lo hi
             (fun r e n => h' !! r = h !! r -> placed h' lo hi r e n)
             (fun rs es m => (forall r, r ∈ rs -> h' !! r = h !! r) ->
                             placed_forest h' lo hi rs es m)).
    + intros r f tag attrs cs n refs Hf Hty Hok Hd Htag Hch Hb Hpar _ IH Hr.
      assert (forall c, c ∈ refs -> h' !! c = h !! c) as Hrefs.
      { intros c Hc. apply Hsame. by eapply Forall_forall in Hb. }
      eapply placed_node with (f := f) (refs := refs); try done.
      * by rewrite Hr.
      * apply (sibling_chain_frame h); done.
      * intros c fc Hc Hfc. rewrite Hrefs in Hfc by done. by eapply Hpar.
      * by apply IH.
    + intros m _. constructor.
    + intros r e rs es m _ IH1 _ IH2 Hrs. constructor.
      * apply IH1, Hrs. by left.
      * apply IH2. intros r' Hr'. apply Hrs. by right.
Qed.

Lemma placed_weaken_both (h : list Fiber) (lo hi lo' hi' : nat) :
  lo' <= lo -> hi <= hi' ->
  (forall r e n, placed h lo hi r e n -> placed h lo' hi' r e n) /\
  (forall rs es m, placed_forest h lo hi rs es m -> placed_forest h lo' hi' rs es m).
Proof.
  intros Hlo Hhi.
  assert (forall r f tag attrs cs n refs,
            h !! r = Some f -> type f = Some (THost tag) -> tag_ok tag cs ->
            dom f = Some n -> effectTag f = Some PLACEMENT ->
            sibling_chain h (child f) refs -> Forall (fun c => lo <= c < hi) refs ->
            (forall c fc, c ∈ refs -> h !! c = Some fc -> parent fc = Some r) ->
            placed_forest h lo hi refs cs (S n) ->
            placed_forest h lo' hi' refs cs (S n) ->
            placed h lo' hi' r (Elem (THost tag) (mkProps attrs (Some cs))) n) as Hnode.
  { intros r f tag attrs cs n refs Hf Hty Hok Hd Htag Hch Hb Hpar _ IH.
    eapply placed_node with (f := f) (refs := refs); try done.
    eapply Forall_impl; [done|]. simpl. intros c Hc. lia. }
  split.
  - apply (placed_mutual h lo hi (fun r e n => placed h lo' hi' r e n)
             (fun rs es m => placed_forest h lo' hi' rs es m)); try done.
    + intros m. constructor.
    + intros r e rs es m _ IH1 _ IH2. by constructor.
  - apply (placed_forest_mutual h lo hi (fun r e n => placed h lo' hi' r e n)
             (fun rs es m => placed_forest h lo' hi' rs es m)); try done.
    + intros m. constructor.
    + intros r e rs es m _ IH1 _ IH2. by constructor.
Qed.

Lemma placed_forest_snoc (h : list Fiber) (lo hi : nat) (rs : list nat) (es : list Child)
    (m r : nat) (e : Child) :
  placed_forest h lo hi rs es m ->
  placed h lo hi r e (m + list_sum (map nodes es)) ->
  placed_forest h lo hi (rs ++ [r]) (es ++ [e]) m.
Proof.
  intros Hf. revert r e.
  induction Hf as [m|r0 e0 rs es m H0 Hrest IH]; intros r e Hr.
  - simpl in *. rewrite Nat.add_0_r in Hr. constructor; [done|constructor].
  - simpl. constructor; [done|]. apply IH. simpl in Hr.
    by replace (m + nodes e0 + list_sum (map nodes es))
      with (m + (nodes e0 + list_sum (map nodes es))) by lia.
Qed.

(** *** The children of a fiber, with the nodes they get *)

Lemma forest_extend (s1 sj sj' : State) (again : bool) (L : nat) (els : list Child)
    (j : nat) (e : Child) :
  length (fibers s1) = L + length els ->
  forest s1 sj again L els j -> els !! j = Some e ->
  processed sj sj' again (L + j) e ->
  forest s1 sj' again L els (S j).
Proof.
  intros Hlen [Hl Hframe Hlinks Htrees Hready Hroots Hpoj Hlog] He Hproc.
  pose proof (lookup_lt_Some _ _ _ He) as Hj.
  pose proof (processed_links_kept _ _ _ _ _ Hproc) as Hlk.
  destruct Hproc as [Hl' Hframe' Hlinks' Htree' Hready' Hroots' Hpo' Hlog'].
  split.
  - lia.
  - intros i Hi. rewrite Hframe'; [apply Hframe|lia..]. lia.
  - by eapply links_kept_trans.
  - intros i e' Hi He'. destruct (decide (i = j)) as [->|Hne].
    + rewrite He in He'. simplify_eq.
      apply (tree_weaken (fibers sj') (length (fibers sj)) (length (fibers sj')));
        [lia|lia|done].
    + assert (tree (fibers sj) (L + length els) (length (fibers sj)) (L + i) e') as Ht.
      { apply Htrees; [lia|done]. }
      apply (tree_weaken (fibers sj') (L + length els) (length (fibers sj))); [lia|lia|].
      apply (tree_frame (fibers sj)); [|done|].
      * intros i' Hi'. apply Hframe'; lia.
      * apply Hframe'; lia.
  - intros i Hi.
    destruct (decide (i = L + j \/ length (fibers sj) <= i)) as [Hnew|Hold].
    + apply Hready'. lia.
    + apply (ready_frame sj sj' again i (L + j)); [|lia|lia|done|].
      * apply Hready. lia.
      * intros f Hf. destruct Hlinks' as (f0 & f' & Hf0 & Hf' & _ & _ & Hp' & Ht' & Hd').
        rewrite Hf in Hf0. simplify_eq. exists f'. by split_and!.
  - by eapply same_roots_trans.
  - done.
  - intros Ha. rewrite Hlog', Hlog; done.
Qed.

Section ForestMade.

Variable components : nat -> option Props -> Comp.
Variables (s1 : State) (R r L : nat) (els : list Child).
Variables (next : option nat) (ds : list nat).

Hypothesis Hlen : length (fibers s1) = L + length els.
Hypothesis HrL : r < L.
Hypothesis HRr : R <= r.
Hypothesis Hfresh : forall j e, els !! j = Some e ->
  fresh s1 R false (L + j) e r /\
  exists g, deref s1 (L + j) = Some g /\
    sibling g = if (S j <? length els)%nat then Some (L + S j) else None.
Hypothesis Hdom : els <> [] -> exists f1, deref s1 r = Some f1 /\ takes_children f1.
Hypothesis Hclimb : climbs s1 r next.
Hypothesis Hds : deletions s1 = Some ds.
Hypothesis Hpo : parents_older s1.
Hypothesis Hall : Forall (processes_log components) els.

Lemma forest_made_start : forest_made s1 s1 L els 0 (domCount s1).
Proof.
  split.
  - by apply (forest_start s1 R false r L els).
  - simpl. lia.
  - simpl. by rewrite app_nil_r.
  - simpl. constructor.
  - simpl. lia.
Qed.

Lemma forest_made_step (sj : State) (j : nat) :
  forest_made s1 sj L els j (domCount s1) ->
  forall e, els !! j = Some e ->
  nextUnitOfWork sj = Some (L + j) ->
  exists sj',
    run_units components (nodes e) sj = Some sj' /\
    nextUnitOfWork sj' = cursor_at L els next (S j) /\
    forest_made s1 sj' L els (S j) (domCount s1).
Proof.
  intros [Hforest Hcount Hcalls Hplaced Hlength] e He Hnext.
  pose proof (lookup_lt_Some _ _ _ He) as Hj.
  pose proof Hforest as [Hl Hframe Hlinks Htrees Hready Hroots Hpoj Hlog].
  destruct (Hfresh j e He) as (Hfr & g & Hg & Hsib).
  assert (deref sj (L + j) = Some g) as Hgj.
  { unfold deref in *. rewrite Hframe; [done|]. right. lia. }
  destruct Hdom as (f1 & Hf1 & Hd1); [by intros ->|].
  assert (deref sj r = Some f1) as Hf1j.
  { unfold deref in *. rewrite Hframe; [done|]. left. lia. }
  assert (parent g = Some r) as Hpar.
  { destruct Hfr as (g' & Hg' & _ & _ & Hp & _). rewrite Hg in Hg'. by simplify_eq. }
  destruct (proj1 (Forall_lookup _ _) Hall j e He sj R (L + j) r
              (cursor_at L els next (S j)) ds)
    as (sj' & Hrun & Hcur & Hproc & Hcount' & Hcalls' & Hplaced' & Hlength');
    try done.
  - apply (fresh_frame s1); [done| |].
    + apply Hframe. right. lia.
    + intros i Hi. apply Hframe. left. lia.
  - lia.
  - by exists f1.
  - intros f c Hf Hc. rewrite Hgj in Hf. simplify_eq. rewrite Hsib in Hc.
    destruct (S j <? length els)%nat eqn:Hlt; [|done]. apply Nat.ltb_lt in Hlt.
    simplify_eq. lia.
  - unfold cursor_at. destruct (S j <? length els)%nat.
    + by apply (climbs_sibling sj (L + j) g).
    + apply (climbs_parent sj (L + j) g r); try done. by apply (climbs_kept s1).
  - destruct Hroots as (Hdel & _). congruence.
  - assert (take (S j) els = take j els ++ [e]) as Htake by by apply take_S_r.
    pose proof Hproc as [Hl' Hframe' _ _ _ _ _ _].
    exists sj'. split_and!; [done|done|]. split.
    + by eapply forest_extend.
    + rewrite Hcount', Hcount, Htake, map_app, list_sum_app. simpl. lia.
    + rewrite Hcalls', Hcalls, Htake, setup_logs_app, Hcount. simpl.
      by rewrite app_nil_r, <- app_assoc.
    + rewrite seq_S, Htake. apply placed_forest_snoc.
      * assert (forall i, L + length els <= i < length (fibers sj) ->
                          fibers sj' !! i = fibers sj !! i) as Hsame.
        { intros i Hi. apply Hframe'; lia. }
        destruct (placed_frame_both (fibers sj) (fibers sj') (L + length els)
                    (length (fibers sj)) Hsame) as [_ Hkeep].
        destruct (placed_weaken_both (fibers sj') (L + length els)
                    (length (fibers sj)) (L + length els) (length (fibers sj'))
                    (Nat.le_refl _) Hl') as [_ Hwide].
        apply Hwide, Hkeep; [done|].
        intros i Hi. apply elem_of_seq in Hi. apply Hframe'; lia.
      * rewrite <- Hcount.
        assert (L + length els <= length (fibers sj)) as Hlo by lia.
        destruct (placed_weaken_both (fibers sj') (length (fibers sj))
                    (length (fibers sj')) (L + length els) (length (fibers sj'))
                    Hlo (Nat.le_refl _)) as [Hwide _].
        by apply Hwide.
    + rewrite Htake, map_app, list_sum_app. simpl. lia.
Qed.

Lemma forest_made_all (d : nat) : forall (sj : State) (j : nat),
  j + d = length els ->
  forest_made s1 sj L els j (domCount s1) ->
  nextUnitOfWork sj = cursor_at L els next j ->
  exists s',
    run_units components (list_sum (map nodes (drop j els))) sj = Some s' /\
    nextUnitOfWork s' = next /\
    forest_made s1 s' L els (length els) (domCount s1).
Proof.
  induction d as [|d IH]; intros sj j Hj Hf Hcur.
  - replace j with (length els) in * by lia.
    exists sj. rewrite drop_all. split_and!; try done.
    unfold cursor_at in Hcur. by rewrite Nat.ltb_irrefl in Hcur.
  - assert (j < length els) as Hlt by lia.
    unfold cursor_at in Hcur. rewrite (proj2 (Nat.ltb_lt _ _) Hlt) in Hcur.
    destruct (lookup_lt_is_Some_2 _ _ Hlt) as [e He].
    destruct (forest_made_step sj j Hf e He Hcur) as (sj' & Hrun1 & Hcur' & Hf').
    destruct (IH sj' (S j)) as (s' & Hrun2 & Hnext & Hfin); [lia|done|done|].
    exists s'. split_and!; try done.
    rewrite (drop_S _ _ _ He).
    change (list_sum (map nodes (e :: drop (S j) els)))
      with (nodes e + list_sum (map nodes (drop (S j) els))).
    by rewrite run_units_add, Hrun1.
Qed.

End ForestMade.

(** *** Every tree of host elements gets its fibers and its nodes *)

(** A fresh fiber for a host element whose children get processed is
    processed with them, whatever its parent. *)
Lemma host_node_made (components : nat -> option Props -> Comp) (tag : string)
    (attrs : list (string * Val)) (cs : list Child) :
  tag_ok tag cs ->
  no_NaN (mkProps attrs (Some cs)) -> Forall simple_element cs ->
  Forall (processes_log components) cs ->
  forall (s : State) (R r p : nat) (next : option nat) (ds : list nat),
    nextUnitOfWork s = Some r ->
    fresh s R false r (Elem (THost tag) (mkProps attrs (Some cs))) p ->
    R < r ->
    climbs s r next ->
    deletions s = Some ds ->
    parents_older s ->
    exists s',
      run_units components (nodes (Elem (THost tag) (mkProps attrs (Some cs)))) s = Some s' /\
      nextUnitOfWork s' = next /\
      made s s' r (Elem (THost tag) (mkProps attrs (Some cs))).
Proof.
  intros Hok Hnan Hcs IH.
  intros s R r p next ds Hnext Hfresh HR Hclimb Hds Hpo.
  pose proof Hfresh as (f & Hf & Hty & Hp & Hpar & Hch & Halt & Hnodom & Htag).
  simpl in Hty, Hp.
  assert (flat cs = cs) as Hflat by by apply flat_simple.
  assert (forall c, type f <> Some (TFun c)) as Hnofun by by rewrite Hty.
  assert (Forall host_element (flat cs)) as Hhost.
  { rewrite Hflat. eapply Forall_impl; [exact Hcs|]. apply simple_element_host. }
  assert (old_forest s R false f (flat cs) []) as Hold by done.
  assert (R <= r) as HRr by lia.
  destruct (tag_ok_call tag cs (domCount s) Hok) as [Hcall _].
  assert (can_have_dom f) as Hcan.
  { intros _. rewrite Hty. by eapply tag_ok_create. }
  destruct (unit_expands components s R false r f attrs cs [] ds Hf Hnofun Hp Hch Hhost
              Hold HRr Hds Hpo Hcan) as (next1 & s1 & Hperf & Hpre & Hexp).
  rewrite Hflat in Hexp.
  destruct (performUnitOfWork_dom _ _ _ _ _ Hperf) as (f0 & f0' & Hf0 & _ & Hdom).
  assert (f0 = f) as -> by congruence.
  destruct Hdom as [(d & Hd & _)|[(c & _ & Hc & _)
                    |(p0 & create & _ & _ & Hp0 & Hcreate & _ & Hlog1 & Hcount1)]];
    [congruence|congruence|].
  assert (p0 = mkProps attrs (Some cs)) as -> by congruence.
  rewrite Hty, Hcall in Hcreate. injection Hcreate as <-.
  pose proof (expanded_links_kept _ _ _ _ _ _ _ Hf Hexp) as Hlinks.
  pose proof (expanded_chain _ _ _ _ _ _ _ Hexp) as Hchain.
  destruct Hexp as [Hlen Hframe (f1 & Hf1 & Hfields) Hchn Hroots Hpo1 _].
  destruct Hfields as (Hfs & Hfp & Hfpr & Hft & Hfa & Hfe & Hfd & Hfc).
  rewrite Hnodom in Hfd. simpl in Hfd.
  pose proof (deref_lt _ _ _ Hf) as Hr.
  set (L := length (fibers s)) in *.
  set (s1' := set_nextUnitOfWork next1 s1).
  assert (run_units components 1 s = Some s1') as Hrun1.
  { simpl. by rewrite Hnext, Hperf. }
  assert (climbs s1 r next) as Hclimb1 by by apply (climbs_kept s).
  assert (next1 = cursor_at L cs next 0) as Hcur.
  { destruct Hpre as (f1' & Hf1' & Hpre). assert (f1' = f1) as -> by congruence.
    rewrite Hfc in Hpre.
    unfold cursor_at. destruct (length cs) as [|m]; simpl in *.
    - by eapply climbs_det.
    - by rewrite Nat.add_0_r. }
  assert (cs <> [] -> exists g, deref s1' r = Some g /\ takes_children g) as Hdom1.
  { intros Hne. exists f1. split; [done|]. split; [rewrite Hfd; by eexists|].
    rewrite Hft, Hty. by eapply tag_ok_children. }
  assert (climbs s1' r next) as Hclimb1'.
  { apply (climbs_kept s1); [|done]. intros i g Hg. by exists g. }
  assert (deletions s1' = Some ds) as Hds1.
  { destruct Hroots as (Hd & _). simpl. congruence. }
  assert (r < L) as HrL by done.
  destruct (forest_made_all components s1' R r L cs next ds Hlen HrL HRr Hchn Hdom1
              Hclimb1' Hds1 IH (length cs) s1' 0)
    as (s' & Hrun & Hnext' & [Hforest Hcount Hcalls Hplaced Hlength]).
  { done. }
  { by apply (forest_made_start s1' R r L cs). }
  { done. }
  rewrite firstn_all in *.
  change (domCount s1') with (domCount s1) in *.
  change (domLog s1') with (domLog s1) in *.
  destruct Hforest as [Hl' Hframe' Hlinks' Htrees Hready Hroots' Hpo' _].
  change (fibers s1') with (fibers s1) in *.
  assert (deref s' r = Some f1) as Hf1'.
  { unfold deref in *. rewrite Hframe'; [done|]. left. lia. }
  assert (sibling_chain (fibers s') (child f1) (seq L (length cs))) as Hchain'.
  { rewrite Hfc. by apply (sibling_chain_kept s1'). }
  assert (Forall (fun c => L <= c < length (fibers s')) (seq L (length cs))) as Hbound.
  { apply Forall_forall. intros c Hc. apply elem_of_seq in Hc. lia. }
  exists s'. split_and!.
  - rewrite nodes_unfold.
    change (S (list_sum (map nodes cs))) with (1 + list_sum (map nodes (drop 0 cs))).
    by rewrite run_units_add, Hrun1.
  - done.
  - split.
    + rewrite nodes_unfold. lia.
    + intros i Hi Hne. rewrite Hframe'; [by apply Hframe|]. left. lia.
    + exists f, f1. split_and!; try done.
      intros c Hc. rewrite Hfc in Hc.
      destruct (length cs) as [|m]; simpl in Hc; simplify_eq. lia.
    + eapply tree_node with (f := f1) (refs := seq L (length cs)) (d := domCount s);
        [done|congruence|congruence|done|done|done|].
      rewrite Hflat.
      apply Forall2_same_length_lookup_2; [by rewrite length_seq|].
      intros i c e Hc He. pose proof (lookup_lt_Some _ _ _ He) as Hi.
      rewrite lookup_seq_lt in Hc by done. simplify_eq.
      apply (tree_weaken (fibers s') (L + length cs) (length (fibers s'))); [lia|lia|].
      by apply Htrees.
    + intros i Hi. apply Hready. lia.
    + by eapply same_roots_trans.
    + done.
    + rewrite Hcount, Hcount1, nodes_unfold. lia.
    + rewrite Hcalls, Hlog1, Hcount1, setup_log_unfold.
      by rewrite <- app_assoc.
    + eapply placed_node with (f := f1) (refs := seq L (length cs));
        [done|congruence|done|done|congruence|done|done| |].
      * intros c fc Hc Hfc'. apply elem_of_seq in Hc.
        assert (exists j, c = L + j /\ j < length cs) as (j & -> & Hj)
          by (exists (c - L); lia).
        destruct (lookup_lt_is_Some_2 _ _ Hj) as [ej Hej].
        destruct (Hchn j ej Hej) as ((g & Hg & _ & _ & Hgp & _) & _).
        destruct (Hlinks' (L + j) g Hg) as (g' & Hg' & _ & Hgp').
        unfold deref in Hg'. rewrite Hfc' in Hg'. simplify_eq. congruence.
      * rewrite <- Hcount1.
        assert (L <= L + length cs) as Hlo by lia.
        destruct (placed_weaken_both (fibers s') (L + length cs) (length (fibers s'))
                    L (length (fibers s')) Hlo (Nat.le_refl _)) as [_ Hwide].
        by apply Hwide.
Qed.

Lemma simple_element_processes_log (components : nat -> option Props -> Comp) (e : Child) :
  simple_element e -> processes_log components e.
Proof.
  revert e. apply simple_element_induction. intros tag attrs cs Hok Hnan Hcs IH.
  intros s R r p next ds Hnext Hfresh HR Hpdom Hsib Hclimb Hds Hpo.
  destruct (host_node_made components tag attrs cs Hok Hnan Hcs IH s R r p next ds
              Hnext Hfresh HR Hclimb Hds Hpo) as (s' & Hrun & Hnext' & Hmade).
  destruct Hmade as [Hlen Hframe
                       (f & f1 & Hf & Hf1 & Hfs & Hfp & Hfpr & Hft & Hfe & Hfd & Hfc)
                       Htree Hready Hroots Hpo' Hcount Hcalls Hplaced].
  pose proof Hfresh as (f' & Hf' & _ & _ & Hpar & _ & _ & _ & Htag).
  assert (f' = f) as -> by congruence.
  pose proof (deref_lt _ _ _ Hf) as Hr.
  pose proof (nodes_positive _ (simple_element_intro tag attrs cs Hok Hnan Hcs)) as Hpos.
  exists s'. split_and!; try done.
  split; try done.
  - lia.
  - exists f, f1. by split_and!.
  - intros i [->|Hi]; [|by apply Hready].
    destruct Hpdom as (pf & Hpf & Hpd).
    pose proof (Hpo r f p Hf Hpar) as Hpr.
    exists f1, p, pf. split_and!; try done.
    + congruence.
    + unfold deref in *. rewrite Hframe; [done|lia|lia].
    + intros c Hc. specialize (Hfc c Hc). lia.
    + intros c Hc. rewrite Hfs in Hc. specialize (Hsib f c Hf Hc). lia.
    + congruence.
Qed.

(** A tree of host elements is made under any parent. *)
Lemma simple_element_made (components : nat -> option Props -> Comp) (e : Child) :
  simple_element e ->
  forall (s : State) (R r p : nat) (next : option nat) (ds : list nat),
    nextUnitOfWork s = Some r ->
    fresh s R false r e p ->
    R < r ->
    climbs s r next ->
    deletions s = Some ds ->
    parents_older s ->
    exists s',
      run_units components (nodes e) s = Some s' /\
      nextUnitOfWork s' = next /\
      made s s' r e.
Proof.
  intros He. destruct He as [tag attrs cs Hok Hnan Hcs].
  apply host_node_made; [done|done|done|].
  eapply Forall_impl; [exact Hcs|]. apply simple_element_processes_log.
Qed.

(** *** The commit of the fibers of a first render *)

Lemma placed_nodes (h : list Fiber) (lo hi r : nat) (e : Child) (n : nat) :
  placed h lo hi r e n -> 0 < nodes e.
Proof. intros H. destruct H. rewrite nodes_unfold. lia. Qed.

(** The commit of the PLACEMENT fibers of a forest attaches the node of
    each to the node of its parent, in pre-order. *)
Lemma commitWork_placed_both (h : list Fiber) (lo hi : nat) :
  (forall r e n, placed h lo hi r e n ->
     forall fuel s f p pf dp,
       fibers s = h -> h !! r = Some f -> parent f = Some p ->
       h !! p = Some pf -> dom pf = Some dp ->
       type_eq (type pf) (Some (THost "TEXT_ELEMENT")) = false ->
       nodes e <= S fuel ->
       commitWork (S fuel) (Some r) s =
         commitWork fuel (sibling f) (emit (attach_log e dp n) s)) /\
  (forall rs es m, placed_forest h lo hi rs es m ->
     forall fuel s start p pf dp,
       fibers s = h -> sibling_chain h start rs ->
       (forall c fc, c ∈ rs -> h !! c = Some fc -> parent fc = Some p) ->
       h !! p = Some pf -> dom pf = Some dp ->
       (es <> [] -> type_eq (type pf) (Some (THost "TEXT_ELEMENT")) = false) ->
       list_sum (map nodes es) <= fuel ->
       commitWork fuel start s = Some (emit (attach_logs es dp m) s)).
Proof.
  set (P := fun r e n =>
     forall fuel s f p pf dp,
       fibers s = h -> h !! r = Some f -> parent f = Some p ->
       h !! p = Some pf -> dom pf = Some dp ->
       type_eq (type pf) (Some (THost "TEXT_ELEMENT")) = false ->
       nodes e <= S fuel ->
       commitWork (S fuel) (Some r) s =
         commitWork fuel (sibling f) (emit (attach_log e dp n) s)).
  set (Q := fun rs es m =>
     forall fuel s start p pf dp,
       fibers s = h -> sibling_chain h start rs ->
       (forall c fc, c ∈ rs -> h !! c = Some fc -> parent fc = Some p) ->
       h !! p = Some pf -> dom pf = Some dp ->
       (es <> [] -> type_eq (type pf) (Some (THost "TEXT_ELEMENT")) = false) ->
       list_sum (map nodes es) <= fuel ->
       commitWork fuel start s = Some (emit (attach_logs es dp m) s)).
  assert (forall r f tag attrs cs n refs,
            h !! r = Some f -> type f = Some (THost tag) -> tag_ok tag cs ->
            dom f = Some n -> effectTag f = Some PLACEMENT ->
            sibling_chain h (child f) refs -> Forall (fun c => lo <= c < hi) refs ->
            (forall c fc, c ∈ refs -> h !! c = Some fc -> parent fc = Some r) ->
            placed_forest h lo hi refs cs (S n) -> Q refs cs (S n) ->
            P r (Elem (THost tag) (mkProps attrs (Some cs))) n) as Hnode.
  { intros r f tag attrs cs n refs Hf Hty Hok Hd Htag Hch Hb Hpar _ IH.
    intros fuel s f' p pf dp Hs Hf' Hp Hpf Hdp Hpt Hfuel.
    assert (f' = f) as -> by congruence.
    rewrite nodes_unfold in Hfuel.
    assert (deref s r = Some f) as Hfr by (unfold deref; by rewrite Hs).
    cbn [commitWork]. rewrite Hfr. cbn [mbind option_bind].
    assert (deref s p = Some pf) as Hpfs by (unfold deref; by rewrite Hs).
    rewrite Hp, (dom_parent_at _ s p pf dp Hpfs Hdp).
    cbn [mbind option_bind]. rewrite Hdp. cbn [mbind option_bind].
    rewrite Htag, Hd. unfold appendChild. rewrite Hpt. cbn [mbind option_bind].
    rewrite (IH fuel (emit [AppendChild dp n] s) (child f) r f n); try done;
      [|intros Hne; rewrite Hty; by eapply tag_ok_children|lia].
    cbn [mbind option_bind]. by rewrite emit_emit, attach_log_unfold. }
  assert (forall m, Q [] [] m) as Hnil.
  { intros m fuel s start p pf dp Hs Hch _ _ _ _ _. inversion Hch; subst.
    simpl. rewrite emit_nil. by destruct fuel. }
  assert (forall r e rs es m, placed h lo hi r e m -> P r e m ->
            placed_forest h lo hi rs es (m + nodes e) -> Q rs es (m + nodes e) ->
            Q (r :: rs) (e :: es) m) as Hcons.
  { intros r e rs es m Hr IHr _ IHrs fuel s start p pf dp Hs Hch Hpar Hpf Hdp Hpt Hfuel.
    pose proof (placed_nodes _ _ _ _ _ _ Hr) as Hpos.
    inversion Hch as [|r' f l Hf Hrest]; subst.
    change (list_sum (map nodes (e :: es))) with (nodes e + list_sum (map nodes es)) in Hfuel.
    destruct fuel as [|fuel]; [lia|].
    rewrite (IHr fuel s f p pf dp); try done;
      [|apply (Hpar r f); [by left|done]|by apply Hpt|lia].
    rewrite (IHrs fuel (emit (attach_log e dp m) s) (sibling f) p pf dp); try done.
    - by rewrite emit_emit.
    - intros c fc Hc. apply Hpar. by right.
    - intros _. by apply Hpt.
    - lia. }
  split.
  - apply (placed_mutual h lo hi P Q); done.
  - apply (placed_forest_mutual h lo hi P Q); done.
Qed.

(** *** The whole first render *)

Lemma first_render_calls (components : nat -> option Props -> Comp) (e : Child) (c : nat)
    (s : State) :
  simple_element e -> at_rest s false e ->
  exists s',
    (forall deadline, 1 + nodes e <= units_of deadline ->
       workLoop components deadline (render e c s) = Some s') /\
    domLog s' = domLog s ++ setup_log e (domCount s) ++ attach_log e c (domCount s) /\
    domCount s' = domCount s + nodes e /\
    committed s' e.
Proof.
  intros He (Hn0 & Hw0 & Hc0 & Hpo).
  destruct (render_fields e c s) as (Hfib & Hnext & Hwip & Hdel & Hcur & Hlog0).
  assert (domCount (render e c s) = domCount s) as Hcount0 by done.
  set (s0 := render e c s) in *. set (R := length (fibers s)) in *.
  set (f0 := mkFiber None (Some (mkProps [] (Some [e]))) (Some c) None None None
               (currentRoot s) None None) in *.
  assert (deref s0 R = Some f0) as Hf0.
  { unfold deref. rewrite Hfib. by rewrite lookup_app_r, Nat.sub_diag by done. }
  assert (flat [e] = [e]) as Hflat by by destruct He.
  assert (parents_older s0) as Hpo0.
  { intros r f p Hf Hp. unfold deref in Hf. rewrite Hfib in Hf.
    apply lookup_app_Some in Hf as [Hf|[_ Hf]].
    - by apply (Hpo r f p).
    - destruct (r - length (fibers s)); simpl in Hf; [|done]. by simplify_eq. }
  assert (length (fibers s0) = S R) as Hlen0.
  { rewrite Hfib, length_app. simpl. lia. }
  assert (forall c', type f0 <> Some (TFun c')) as Hnofun by done.
  assert (Forall host_element (flat [e])) as Hhost.
  { rewrite Hflat. constructor; [by apply simple_element_host|constructor]. }
  assert (old_forest s0 R false f0 (flat [e]) []) as Hold by done.
  assert (can_have_dom f0) as Hcan by (by intros ?).
  destruct (unit_expands components s0 R false R f0 [] [e] [] [] Hf0 Hnofun eq_refl eq_refl
              Hhost Hold (Nat.le_refl R) Hdel Hpo0 Hcan)
    as (next1 & s1 & Hperf & Hpre & Hexp).
  rewrite Hflat in Hexp.
  destruct (performUnitOfWork_dom _ _ _ _ _ Hperf) as (f0' & f1' & Hf0' & _ & Hdom).
  assert (f0' = f0) as -> by congruence.
  destruct Hdom as [(d & _ & _ & Hlog1 & Hcount1)|[(c' & Hd & _)|(p0 & create & Hd & _)]];
    [|done|done].
  pose proof (expanded_links_kept _ _ _ _ _ _ _ Hf0 Hexp) as Hlinks.
  pose proof (expanded_chain _ _ _ _ _ _ _ Hexp) as Hchain.
  destruct Hexp as [Hlen Hframe (f1 & Hf1 & Hfields) Hchn Hroots Hpo1 _].
  destruct Hfields as (Hfs & Hfp & Hfpr & Hft & Hfa & Hfe & Hfd & Hfc).
  change (dom f1 = Some c) in Hfd.
  rewrite Hlen0 in *. cbn [length seq head] in *.
  set (s1' := set_nextUnitOfWork next1 s1).
  assert (run_units components 1 s0 = Some s1') as Hrun1.
  { cbn [run_units]. by rewrite Hnext, Hperf. }
  assert (climbs s1 R None) as Hclimb1.
  { apply (climbs_kept s0); [done|]. by apply (climbs_root s0 R f0). }
  assert (next1 = cursor_at (S R) [e] None 0) as Hcursor.
  { destruct Hpre as (f1'' & Hf1'' & Hpre). assert (f1'' = f1) as -> by congruence.
    rewrite Hfc in Hpre. unfold cursor_at. simpl. by rewrite Nat.add_0_r. }
  assert ([e] <> [] -> exists g, deref s1' R = Some g /\ takes_children g) as Hdom1.
  { intros _. exists f1. split; [done|]. split; [rewrite Hfd; by eexists|by rewrite Hft]. }
  assert (climbs s1' R None) as Hclimb1'.
  { apply (climbs_kept s1); [|done]. intros i g Hg. by exists g. }
  assert (deletions s1' = Some []) as Hds1.
  { destruct Hroots as (Hd & _). simpl. congruence. }
  assert (Forall (processes_log components) [e]) as Hall.
  { constructor; [by apply simple_element_processes_log|constructor]. }
  assert (R < S R) as HrL by lia.
  destruct (forest_made_all components s1' R R (S R) [e] None [] Hlen HrL (Nat.le_refl R)
              Hchn Hdom1 Hclimb1' Hds1 Hall 1 s1' 0)
    as (s2 & Hrun & Hnext2 & [Hforest Hcount Hcalls Hplaced Hlength]).
  { done. }
  { by apply (forest_made_start s1' R R (S R) [e]). }
  { done. }
  cbn [length take drop map list_sum foldr seq setup_logs] in *.
  change (domCount s1') with (domCount s1) in *.
  change (domLog s1') with (domLog s1) in *.
  destruct Hforest as [Hl' Hframe' Hlinks' Htrees Hready Hroots' Hpo' _].
  change (fibers s1') with (fibers s1) in *.
  rewrite Nat.add_0_r, app_nil_r in *.
  assert (deref s2 R = Some f1) as Hf2.
  { unfold deref in *. rewrite Hframe'; [done|]. left. lia. }
  assert (sibling_chain (fibers s2) (child f1) [S R]) as Hchain'.
  { rewrite Hfc. by apply (sibling_chain_kept s1'). }
  destruct Hroots as (Hdel1 & Hwip1 & Hcur1).
  destruct Hroots' as (Hdel2 & Hwip2 & Hcur2).
  change (wipRoot s1') with (wipRoot s1) in *.
  change (currentRoot s1') with (currentRoot s1) in *.
  destruct (commitWork_placed_both (fibers s2) (S R + 1) (length (fibers s2))) as [_ Hcommit].
  specialize (Hcommit [S R] [e] (domCount s1) Hplaced (length (fibers s2)) s2
                (child f1) R f1 c eq_refl Hchain').
  assert (commitWork (length (fibers s2)) (child f1) s2 =
            Some (emit (attach_logs [e] c (domCount s1)) s2)) as Hcommitted.
  { apply Hcommit.
    - intros i fi Hi Hfi. apply list_elem_of_singleton in Hi as ->.
      destruct (Hchn 0 e eq_refl) as ((g & Hg & _ & _ & Hgp & _) & _).
      rewrite Nat.add_0_r in Hg.
      destruct (Hlinks' (S R) g Hg) as (g' & Hg' & _ & Hgp').
      unfold deref in Hg'. rewrite Hfi in Hg'. simplify_eq. congruence.
    - done.
    - done.
    - intros _. by rewrite Hft.
    - cbn [map list_sum foldr]. lia. }
  clear Hcommit. cbn [attach_logs] in Hcommitted. rewrite app_nil_r in Hcommitted.
  exists (set_wipRoot None (set_currentRoot (Some R)
            (emit (attach_log e c (domCount s1)) s2))).
  split_and!.
  - intros deadline Hk. unfold workLoop. rewrite work_run_units.
    rewrite (run_units_more components (1 + nodes e) (units_of deadline) s0 s2);
      [|by rewrite run_units_add, Hrun1|done|done].
    cbn [mbind option_bind].
    rewrite (proj2 (ready_to_commit_true s2));
      [|split; [done|rewrite Hwip2, Hwip1, Hwip; by eexists]].
    unfold commitRoot. rewrite Hwip2, Hwip1, Hwip. cbn [mbind option_bind].
    rewrite Hf2. cbn [mbind option_bind]. rewrite Hcommitted. cbn [mbind option_bind].
    simpl. by rewrite Hwip2, Hwip1, Hwip.
  - simpl. rewrite Hcalls, Hlog1, Hcount1, Hcount0, Hlog0. by rewrite <- app_assoc.
  - simpl. rewrite Hcount, Hcount1, Hcount0. done.
  - split_and!; try done.
    exists R, f1, (S R). split_and!; try done.
    apply (tree_weaken (fibers s2) (S R + 1) (length (fibers s2))); [lia|done|].
    pose proof (Htrees 0 e (Nat.lt_0_succ 0) eq_refl) as Ht.
    by rewrite Nat.add_0_r in Ht.
Qed.



(** ** The fiber version against the recursive one *)

Lemma static_element_induction (P : Child -> Prop) :
  (forall tag attrs cs, tag_ok tag cs ->
     (forall key v, In (key, v) attrs ->
        isEvent key = false /\ v <> get emptyProps key /\ v <> VNaN) ->
     Forall static_element cs -> Forall P cs ->
     P (Elem (THost tag) (mkProps attrs (Some cs)))) ->
  forall e, static_element e -> P e.
Proof.
  intros Hstep. fix IH 2. intros e He. destruct He as [tag attrs cs Htag Hattrs Hcs].
  apply Hstep; [done|done|done|]. clear Hattrs Htag.
  induction Hcs as [|c l Hc Hl IHl]; [constructor|].
  constructor; [by apply IH|done].
Qed.

Lemma static_element_simple (e : Child) : static_element e -> simple_element e.
Proof.
  revert e. apply static_element_induction. intros tag attrs cs Htag Hattrs Hcs IH.
  constructor; [done| |done]. intros key v Hin. by destruct (Hattrs key v Hin) as (_ & _ & ?).
Qed.

Lemma assoc_of_key (l : list (string * Val)) (key : string) :
  In key (map fst l) -> In (key, assoc l key) l.
Proof.
  induction l as [|[k v] l IH]; simpl; [done|]. intros Hin.
  destruct (String.eqb key k) eqn:Hk.
  - apply String.eqb_eq in Hk as ->. by left.
  - right. apply IH. destruct Hin as [->|Hin]; [|done]. by rewrite String.eqb_refl in Hk.
Qed.

Lemma filter_filter_ext {A : Type} (f g h : A -> bool) (l : list A) :
  (forall x, In x l -> f x && g x = h x) ->
  List.filter g (List.filter f l) = List.filter h l.
Proof.
  induction l as [|a l IH]; intros H; [done|]. simpl.
  pose proof (H a (or_introl eq_refl)) as Ha.
  rewrite <- IH by (intros x Hx; apply H; by right).
  destruct (f a); simpl in *; [|by rewrite <- Ha].
  by rewrite Ha.
Qed.

Lemma get_own (attrs : list (string * Val)) (cs : option (list Child)) (key : string) :
  In key (map fst attrs) -> get (mkProps attrs cs) key = assoc attrs key.
Proof.
  intros Hin. unfold get. simpl.
  by rewrite (proj2 (existsb_eqb_In key (map fst attrs)) Hin).
Qed.

(** The set-up of a fresh node from props without handlers and without the
    values of an empty object: every key but [children] is assigned, as the
    recursive version does. *)
Lemma updateDom_static (d : nat) (attrs : list (string * Val)) (cs : list Child) :
  (forall key v, In (key, v) attrs ->
     isEvent key = false /\ v <> get emptyProps key /\ v <> VNaN) ->
  updateDom d emptyProps (mkProps attrs (Some cs)) =
    map (fun name => SetProperty d name (get (mkProps attrs (Some cs)) name))
      (List.filter (fun key => negb (String.eqb key "children"))
         (Object_keys (mkProps attrs (Some cs)))).
Proof.
  intros Hattrs. set (p := mkProps attrs (Some cs)).
  assert (forall key, In key (Object_keys p) -> isEvent key = false) as Hev.
  { intros key Hin. unfold Object_keys in Hin. apply in_app_iff in Hin as [Hin|[<-|[]]].
    - apply assoc_of_key in Hin. by destruct (Hattrs _ _ Hin).
    - done. }
  assert (forall key, In key (Object_keys p) -> isProperty key = true ->
            isNew emptyProps p key = true) as Hnew.
  { intros key Hin Hp. unfold Object_keys in Hin. apply in_app_iff in Hin as [Hin|[<-|[]]].
    - pose proof (get_own attrs (Some cs) key Hin) as Hget.
      apply assoc_of_key in Hin. destruct (Hattrs _ _ Hin) as (_ & Hdef & _).
      unfold isNew. apply negb_true_iff. apply strict_eq_emptyProps.
      unfold p. by rewrite Hget.
    - done. }
  unfold updateDom, removedListeners, clearedProperties, assignedProperties, addedListeners.
  change (Object_keys emptyProps) with (@nil string). cbn [List.filter map app].
  rewrite (filter_none isEvent (Object_keys p)) by done.
  cbn [List.filter map app]. rewrite app_nil_r. f_equal.
  apply filter_filter_ext. intros key Hin.
  destruct (isProperty key) eqn:Hp.
  - rewrite (Hnew key Hin Hp). unfold isProperty in Hp.
    apply andb_true_iff in Hp as [Hp _]. by rewrite Hp.
  - unfold isProperty in Hp. rewrite (Hev key Hin) in Hp. simpl in *.
    rewrite andb_true_r in Hp. by rewrite Hp.
Qed.

Lemma filter_setting_up_assigned (d : nat) (p : Props) (l : list string) :
  List.filter setting_up (map (fun name => SetProperty d name (get p name)) l) =
    map (fun name => SetProperty d name (get p name)) l.
Proof. induction l as [|a l IH]; [done|]. simpl. by rewrite IH. Qed.

Lemma filter_setting_up_attach_both :
  (forall e container n, List.filter setting_up (attach_log e container n) = []) /\
  (forall cs container m, List.filter setting_up (attach_logs cs container m) = []).
Proof.
  assert (forall e container n, List.filter setting_up (attach_log e container n) = [])
    as Hone.
  { fix IH 1. intros e container n.
    destruct e as [ty [attrs [cs|]]|items|v]; [|reflexivity..].
    rewrite attach_log_unfold. cbn [List.filter setting_up].
    generalize (S n). induction cs as [|c cs IHcs]; intros m; [done|].
    cbn [attach_logs]. by rewrite List.filter_app, IH, IHcs. }
  split; [done|].
  intros cs container. induction cs as [|c cs IH]; intros m; [done|].
  cbn [attach_logs]. by rewrite List.filter_app, Hone, IH.
Qed.

(** On a tree without handlers and without [undefined], the recursive
    [render] makes the calls of the first fiber render: the creations and
    assignments in the same order, the [appendChild] calls in another. *)
Lemma static_render_same_calls (e : Child) :
  static_element e ->
  forall container n,
    exists ops,
      Recursive.render e container n = Some (ops, n + nodes e) /\
      setup_log e n ++ attach_log e container n ≡ₚ ops /\
      List.filter setting_up ops = setup_log e n.
Proof.
  revert e. apply (static_element_induction (fun e => forall container n, _)).
  intros tag attrs cs Htag Hattrs Hcs IH container n.
  rewrite Recursive_render_unfold, nodes_unfold, setup_log_unfold, attach_log_unfold.
  rewrite (updateDom_static n attrs cs Hattrs).
  destruct (tag_ok_call tag cs n Htag) as [-> Hleaf]. cbn [mbind option_bind].
  clear Htag. revert Hleaf.
  generalize (type_eq (Some (THost tag)) (Some (THost "TEXT_ELEMENT"))
              && match cs with [] => false | _ :: _ => true end). intros leaf ->.
  assert (forall dom m,
            exists ops, render_children cs dom m = Some (ops, m + list_sum (map nodes cs)) /\
              setup_logs cs m ++ attach_logs cs dom m ≡ₚ ops /\
              List.filter setting_up ops = setup_logs cs m) as Hkids.
  { clear Hcs. induction IH as [|c l Hc Hl IHl]; intros dom m.
    - exists []. simpl. rewrite Nat.add_0_r. by split_and!.
    - destruct (Hc dom m) as (ops1 & Hr1 & Hp1 & Hs1).
      destruct (IHl dom (m + nodes c)) as (ops2 & Hr2 & Hp2 & Hs2).
      exists (ops1 ++ ops2).
      cbn [render_children]. rewrite Hr1. cbn [mbind option_bind]. rewrite Hr2.
      cbn [mbind option_bind]. split_and!.
      + do 2 f_equal. simpl. lia.
      + cbn [setup_logs attach_logs]. rewrite <- Hp1, <- Hp2.
        rewrite <- !app_assoc. apply Permutation_app_head.
        rewrite !app_assoc. apply Permutation_app_tail. apply Permutation_app_comm.
      + cbn [setup_logs]. by rewrite List.filter_app, Hs1, Hs2. }
  destruct (Hkids n (S n)) as (ops & Hr & Hp & Hs).
  rewrite Hr. cbn [mbind option_bind].
  eexists. split_and!.
  - f_equal. f_equal. lia.
  - rewrite <- app_comm_cons. constructor. rewrite <- app_assoc.
    apply Permutation_app_head. rewrite <- Hp.
    rewrite <- Permutation_middle. rewrite <- app_assoc.
    rewrite (Permutation_app_comm (attach_logs cs n (S n)) [AppendChild container n]).
    simpl. by rewrite Permutation_middle.
  - cbn [List.filter].
    assert (setting_up (if String.eqb tag "TEXT_ELEMENT"
                        then CreateTextNode n else CreateElement tag n) = true) as ->.
    { by destruct (String.eqb tag "TEXT_ELEMENT"). }
    f_equal. rewrite !List.filter_app, filter_setting_up_assigned, Hs. simpl.
    by rewrite app_nil_r.
Qed.



(** ** A function component that returns no element *)

Lemma returns_no_element_truthy (c : Comp) : returns_no_element c -> returns_truthy c.
Proof. induction 1 as [result Ht Hp|initial k Hk IH]; by constructor. Qed.

Lemma run_component_no_element (c : Comp) :
  returns_no_element c ->
  forall s result s', run_component c s = Some (result, s') ->
    elem_props result = None /\ elem_type result = None.
Proof.
  induction 1 as [result Ht Hp|initial k Hk IH]; intros s res s' Hrun; simpl in Hrun.
  - simplify_eq. split; [done|]. by destruct res.
  - apply bind_Some in Hrun as ([[st setter] s1] & _ & Hrun). by eapply IH.
Qed.

(** A fiber without props that is no function component cannot be
    processed: [updateDom] reads the keys of its props when it has no dom,
    [updateHostComponent] the [children] of its props when it has one. *)
Lemma unit_without_props (components : nat -> option Props -> Comp) (s : State) (r : nat)
    (g : Fiber) :
  deref s r = Some g -> props g = None -> (forall c, type g <> Some (TFun c)) ->
  performUnitOfWork components r s = None.
Proof.
  intros Hg Hp Hty. unfold performUnitOfWork. rewrite Hg. cbn [mbind option_bind].
  assert (updateHostComponent r s = None) as Hhost.
  { unfold updateHostComponent. rewrite Hg. cbn [mbind option_bind].
    destruct (dom g) as [d|]; cbn [mbind option_bind].
    - by rewrite Hp.
    - unfold createDom. rewrite Hp. by destruct (create_call _ _). }
  destruct (type g) as [[tag|c]|] eqn:Hg'; [by rewrite Hhost|by destruct (Hty c)|by rewrite Hhost].
Qed.

(** The unit of work on a function fiber whose component returns no
    element: it makes a child fiber without type and props, and hands it to
    the work loop. *)
Lemma unit_on_no_element (components : nat -> option Props -> Comp) (s : State) (r : nat)
    (f : Fiber) (c : nat) (olds ds : list nat) :
  deref s r = Some f -> type f = Some (TFun c) ->
  (forall a, alternate f = Some a -> a <> r /\ is_Some (deref s a) /\ hooks_valid s a) ->
  old_children s f olds -> r ∉ olds -> deletions s = Some ds ->
  returns_no_element (components c (props f)) ->
  exists s1 g,
    performUnitOfWork components r s = Some (Some (length (fibers s)), s1) /\
    deref s1 (length (fibers s)) = Some g /\ props g = None /\ type g = None /\
    domLog s1 = domLog s.
Proof.
  intros Hf Hty Halt Hold Hfresh Hds Hret.
  destruct (updateFunctionComponent_total components r c s f olds ds Hf Halt
              (returns_no_element_truthy _ Hret) Hold Hfresh Hds)
    as (s1 & s3 & hs & result & Hup & Hrun & Hfib3 & Hok & Hinv).
  destruct (run_component_no_element _ Hret _ _ _ Hrun) as [Hprops Htype].
  destruct Hok as (_ & Hlen3 & Hlog3 & _).
  destruct Hinv as [_ Hnew _ _ Hwip _ Hglob].
  assert ((1 `max` length olds) `min` 1 = 1) as Hmin by lia.
  assert (((1 `max` length olds) =? 0)%nat = false) as Hpos by (apply Nat.eqb_neq; lia).
  rewrite Hpos in Hwip. cbn [length Nat.ltb Nat.leb] in Hwip.
  assert (exists nf, reconciled s3 r [result] olds 0 = Some nf /\
            props nf = None /\ type nf = None) as (nf & Hnf & Hnp & Hnt).
  { unfold reconciled. cbn [lookup list_lookup mbind option_bind].
    eexists. split; [done|].
    destruct (olds !! 0) as [o|]; [|by simpl].
    destruct (old_at s3 olds 0) as [fo|]; [|by simpl].
    destruct (type_eq (elem_type result) (type fo)) eqn:Heq; [|by simpl].
    apply type_eq_true in Heq. simpl. split; [done|congruence]. }
  specialize (Hnew 0 nf). change (length [result]) with 1 in Hnew.
  rewrite Hmin, Nat.add_0_r, Hlen3 in Hnew.
  specialize (Hnew (Nat.lt_0_succ 0) Hnf). rewrite Hlen3 in Hwip.
  eexists s1, _. split_and!.
  - unfold performUnitOfWork. rewrite Hf. cbn [mbind option_bind]. rewrite Hty, Hup.
    cbn [mbind option_bind]. rewrite Hwip. by cbn [mbind option_bind child with_child].
  - exact Hnew.
  - done.
  - done.
  - destruct Hglob as (_ & _ & _ & _ & _ & _ & _ & Hl). congruence.
Qed.

Lemma units_of_positive (d : list Z) : 0 < units_of d.
Proof. destruct d as [|t d]; simpl; [lia|]. destruct (t <? 1)%Z; lia. Qed.

Lemma run_units_fault (components : nat -> option Props -> Comp) (k : nat) (s : State)
    (r : nat) :
  nextUnitOfWork s = Some r -> performUnitOfWork components r s = None ->
  run_units components (S k) s = None.
Proof. intros Hn Hp. cbn [run_units]. by rewrite Hn, Hp. Qed.

(** X14.  A function component has to return an element.  When the cursor
    of the work loop is on the fiber of a component that returns a truthy
    value without [props] (a string, a number, an array), the unit of work
    on the fiber goes through and calls nothing on the DOM:
    [reconcileChildren] makes a fiber for the value, with the [type] and
    [props] it reads off the value, both [undefined], and this fiber is the
    next unit of work.  The unit of work on it throws, on the props that
    [updateDom] or [updateHostComponent] reads.  So the idle period that
    follows throws, whatever time it has; and from the state with the
    cursor on the component, idle periods throw as soon as they give two
    units of work between them: the render is never committed. *)
Theorem component_without_element_throws (components : nat -> option Props -> Comp)
    (s : State) (r : nat) (f : Fiber) (c : nat) (olds ds : list nat) :
  nextUnitOfWork s = Some r -> deref s r = Some f -> type f = Some (TFun c) ->
  (forall a, alternate f = Some a -> a <> r /\ is_Some (deref s a) /\ hooks_valid s a) ->
  old_children s f olds -> r ∉ olds -> deletions s = Some ds ->
  returns_no_element (components c (props f)) ->
  (exists s1,
     run_units components 1 s = Some s1 /\
     domLog s1 = domLog s /\
     nextUnitOfWork s1 = Some (length (fibers s)) /\
     forall d rest, idle components (d :: rest) s1 = None) /\
  (forall d rest, 2 <= units_of d + list_sum (map units_of rest) ->
     idle components (d :: rest) s = None).
Proof.
  intros Hnext Hf Hty Halt Hold Hfresh Hds Hret.
  destruct (unit_on_no_element components s r f c olds ds Hf Hty Halt Hold Hfresh Hds Hret)
    as (s1 & g & Hunit & Hg & Hgp & Hgt & Hlog).
  set (s1' := set_nextUnitOfWork (Some (length (fibers s))) s1).
  assert (run_units components 1 s = Some s1') as Hrun1.
  { cbn [run_units]. by rewrite Hnext, Hunit. }
  assert (performUnitOfWork components (length (fibers s)) s1' = None) as Hfault.
  { apply (unit_without_props components s1' (length (fibers s)) g); [done|done|].
    intros c'. by rewrite Hgt. }
  assert (forall k, run_units components (S k) s1' = None) as Hlater.
  { intros k. by apply (run_units_fault components k s1' (length (fibers s))). }
  split.
  - exists s1'. split_and!; [done|done|done|].
    intros d rest. rewrite idle_units.
    pose proof (units_of_positive d) as Hd.
    destruct (units_of d + list_sum (map units_of rest)) as [|k] eqn:Hk; [lia|].
    by rewrite Hlater.
  - intros d rest Hunits. rewrite idle_units.
    replace (units_of d + list_sum (map units_of rest))
      with (1 + S (units_of d + list_sum (map units_of rest) - 2)) by lia.
    rewrite run_units_add, Hrun1. cbn [mbind option_bind]. by rewrite Hlater.
Qed.

Lemma component_without_element_throws_witness :
  (exists s1,
     run_units text_app 1 text_app_state = Some s1 /\
     domLog s1 = domLog text_app_state /\
     nextUnitOfWork s1 = Some 2 /\
     forall d rest, idle text_app (d :: rest) s1 = None) /\
  (forall d rest, 2 <= units_of d + list_sum (map units_of rest) ->
     idle text_app (d :: rest) text_app_state = None).
Proof.
  apply (component_without_element_throws text_app text_app_state 1
           (mkFiber (Some (TFun 0)) (Some (mkProps [] (Some []))) None (Some 0) None None
              None (Some PLACEMENT) None) 0 [] []).
  - reflexivity.
  - reflexivity.
  - reflexivity.
  - intros a Ha. discriminate Ha.
  - reflexivity.
  - apply not_elem_of_nil.
  - reflexivity.
  - by constructor.
Defined.

(** ** A function component in the first render *)

Lemma run_component_first_return (c : Comp) :
  forall (s : State) (w : nat) (f : Fiber) (result : Child) (s' : State),
    run_component c s = Some (result, s') ->
    wipFiber s = Some w -> deref s w = Some f -> alternate f = None ->
    result = first_return c (length (hookStore s)).
Proof.
  induction c as [r|initial k IH]; intros s w f result s' Hrun Hw Hf Halt; simpl in Hrun.
  - by simplify_eq.
  - apply bind_Some in Hrun as ([[st setter] s1] & Hu & Hrun).
    unfold useState in Hu. rewrite Hw in Hu. cbn [mbind option_bind] in Hu.
    rewrite Hf in Hu. cbn [mbind option_bind] in Hu. rewrite Halt in Hu.
    cbn [mbind option_bind fold_left state queue] in Hu.
    destruct (hooks f) as [hs|] eqn:Hhs; [|done]. cbn [mbind option_bind] in Hu.
    apply bind_Some in Hu as (s2 & Hm & Hu).
    apply modify_inv in Hm as [Hlt ->]. injection Hu as <- <- <-.
    cbn [first_return].
    rewrite (IH initial (length (hookStore s)) _ w
               (with_hooks (Some (hs ++ [length (hookStore s)])) f) result s' Hrun).
    + simpl. rewrite length_app. simpl. by rewrite Nat.add_1_r.
    + done.
    + unfold deref. simpl. unfold deref in Hf. by rewrite list_lookup_alter_eq, Hf.
    + done.
Qed.

(** The loop of [reconcileChildren] over one element, with no old fiber. *)
Lemma reconcile_inv_single (base : State) (r : nat) (w : Fiber) (x : Child)
    (ds : list nat) (s' : State) :
  reconcile_inv base r w [x] [] ds 1 s' ->
  length (fibers s') = S (length (fibers base)) /\
  deref s' (length (fibers base)) = Some (placement_fiber r x) /\
  deref s' r = Some (with_child (Some (length (fibers base))) w) /\
  (forall i, i < length (fibers base) -> i <> r -> fibers s' !! i = fibers base !! i) /\
  deletions s' = Some ds /\ same_globals base s'.
Proof.
  intros [Hlen Hnew _ Hdel Hwip Hframe Hglob]. split_and!.
  - rewrite Hlen. simpl. lia.
  - specialize (Hnew 0 (placement_fiber r x)). rewrite Nat.add_0_r in Hnew.
    apply Hnew; [simpl; lia|done].
  - exact Hwip.
  - intros i Hi Hne. apply Hframe; [done|done|apply not_elem_of_nil].
  - rewrite Hdel. simpl. by rewrite app_nil_r.
  - done.
Qed.

(** The unit of work on a root whose one child is not an array. *)
Lemma root_unit_single (components : nat -> option Props -> Comp) (s0 : State) (R : nat)
    (f0 : Fiber) (x : Child) (ds : list nat) :
  deref s0 R = Some f0 -> type f0 = None -> props f0 = Some (mkProps [] (Some [x])) ->
  is_Some (dom f0) -> alternate f0 = None ->
  child_truthy x = true -> flat [x] = [x] -> deletions s0 = Some ds ->
  exists s1,
    performUnitOfWork components R s0 = Some (Some (length (fibers s0)), s1) /\
    reconcile_inv s0 R f0 [x] [] ds 1 s1.
Proof.
  intros Hf Hty Hp [d Hd] Halt Hx Hflat Hds.
  destruct (updateHostComponent_total R s0 f0 (mkProps [] (Some [x])) [x] [] ds)
    as (s1 & Hup & Hinv); try done.
  { rewrite Hflat. by constructor. }
  { unfold old_children. by rewrite Halt. }
  { apply not_elem_of_nil. }
  { intros Hn. congruence. }
  rewrite Hflat in Hinv. unfold with_fresh_dom in Hinv. rewrite Hd in Hinv.
  change (length [x] `max` length (@nil nat)) with 1 in Hinv.
  exists s1. split; [|done].
  destruct (reconcile_inv_single _ _ _ _ _ _ Hinv) as (_ & _ & Hwip & _).
  unfold performUnitOfWork. rewrite Hf. cbn [mbind option_bind]. rewrite Hty, Hup.
  cbn [mbind option_bind]. rewrite Hwip. by cbn [mbind option_bind child with_child].
Qed.

(** The unit of work on the fiber of a function component in its first
    render: the component is run, and a fiber is made for what it returns. *)
Lemma component_unit_first (components : nat -> option Props -> Comp) (s : State)
    (F : nat) (fF : Fiber) (c : nat) (ds : list nat) :
  deref s F = Some fF -> type fF = Some (TFun c) -> alternate fF = None ->
  deletions s = Some ds ->
  child_truthy (first_return (components c (props fF)) (length (hookStore s))) = true ->
  exists s1 hs,
    performUnitOfWork components F s = Some (Some (length (fibers s)), s1) /\
    length (fibers s1) = S (length (fibers s)) /\
    deref s1 (length (fibers s)) =
      Some (placement_fiber F (first_return (components c (props fF))
                                 (length (hookStore s)))) /\
    deref s1 F = Some (with_child (Some (length (fibers s))) (with_hooks (Some hs) fF)) /\
    (forall i, i < length (fibers s) -> i <> F -> fibers s1 !! i = fibers s !! i) /\
    deletions s1 = Some ds /\ domLog s1 = domLog s /\ domCount s1 = domCount s /\
    wipRoot s1 = wipRoot s /\ currentRoot s1 = currentRoot s.
Proof.
  intros Hf Hty Halt Hds Htruthy.
  pose proof (deref_lt _ _ _ Hf) as Hlt.
  set (s2 := set_fibers (alter (with_hooks (Some [])) F (fibers s))
               (set_hookIndex 0 (set_wipFiber (Some F) s))).
  assert (deref s2 F = Some (with_hooks (Some []) fF)) as Hf2.
  { unfold deref, s2. simpl. unfold deref in Hf. by rewrite list_lookup_alter_eq, Hf. }
  destruct (run_component_total (components c (props fF)) s2 F
              (with_hooks (Some []) fF) [])
    as (result & s3 & hs & Hrun & Hfib & _); try done.
  { intros a Ha. simpl in Ha. congruence. }
  pose proof (run_component_first_return _ _ _ _ _ _ Hrun eq_refl Hf2 Halt) as Hres.
  change (hookStore s2) with (hookStore s) in Hres.
  assert (fibers s3 = alter (with_hooks (Some hs)) F (fibers s)) as Hfib3.
  { rewrite Hfib. unfold s2. simpl. apply alter_with_hooks_twice. }
  pose proof (run_component_keeps _ _ _ _ Hrun) as
    (_ & Hlen3 & Hlog3 & Hcount3 & Hdel3 & _ & Hcur3 & Hwip3).
  assert (length (fibers s3) = length (fibers s)) as Hlen.
  { rewrite Hlen3. unfold s2. simpl. by rewrite length_alter. }
  destruct (reconcileChildren_inv s3 F (with_hooks (Some hs) fF) [result] [] ds)
    as (s1 & Hs1 & Hinv).
  { unfold deref. rewrite Hfib3. unfold deref in Hf. by rewrite list_lookup_alter_eq, Hf. }
  { unfold old_children. simpl. by rewrite Halt. }
  { apply not_elem_of_nil. }
  { constructor; [|done]. by rewrite Hres. }
  { by rewrite Hdel3. }
  change (length [result] `max` length (@nil nat)) with 1 in Hinv.
  destruct (reconcile_inv_single _ _ _ _ _ _ Hinv)
    as (Hl1 & Hnew & Hwip & Hframe & Hdel1 & Hglob).
  rewrite Hlen in Hl1, Hnew, Hwip, Hframe.
  destruct Hglob as (_ & _ & Hc1 & Hw1 & _ & _ & Hn1 & Hg1).
  exists s1, hs. split_and!; try done.
  - unfold performUnitOfWork. rewrite Hf. cbn [mbind option_bind]. rewrite Hty.
    unfold updateFunctionComponent. rewrite modify_Some by done.
    cbn [mbind option_bind]. change (set_fibers _ _) with s2.
    rewrite Hf2. cbn [mbind option_bind].
    change (props (with_hooks (Some []) fF)) with (props fF).
    rewrite Hrun. cbn [mbind option_bind]. rewrite Hs1. cbn [mbind option_bind].
    rewrite Hwip. by cbn [mbind option_bind child with_child].
  - by rewrite Hnew, Hres.
  - intros i Hi Hne. rewrite Hframe by done. rewrite Hfib3.
    by rewrite list_lookup_alter_ne.
  - by rewrite Hg1, Hlog3.
  - by rewrite Hn1, Hcount3.
  - by rewrite Hw1, Hwip3.
  - by rewrite Hc1, Hcur3.
Qed.

(** *** The commit under a function component *)

Lemma commitWork_None (fuel : nat) (s : State) : commitWork fuel None s = Some s.
Proof. by destruct fuel. Qed.

Lemma commitWork_unfold (fuel : nat) (r : nat) (s : State) :
  commitWork (S fuel) (Some r) s =
    f ← deref s r;
    domParentFiber ← dom_parent (S (length (fibers s))) s (parent f);
    domParent ← dom domParentFiber;
    s1 ← match effectTag f, dom f with
         | Some PLACEMENT, Some d => appendChild domParentFiber domParent d s
         | Some UPDATE, Some d =>
             a ← alternate f;
             af ← deref s a;
             prev ← props af;
             next ← props f;
             Some (emit (updateDom d prev next) s)
         | Some DELETION, d =>
             d' ← d;
             Some (emit [RemoveChild domParent d'] s)
         | _, _ => Some s
         end;
    s2 ← commitWork fuel (child f) s1;
    commitWork fuel (sibling f) s2.
Proof. reflexivity. Qed.


(** The fiber of a function component has no node: the commit attaches the
    node of its child to the node of the nearest ancestor that has one. *)
Lemma commitWork_under_component (s : State) (lo hi R F E c0 n : nat) (fR fF fE : Fiber)
    (e : Child) (fuel : nat) :
  deref s R = Some fR -> dom fR = Some c0 ->
  type_eq (type fR) (Some (THost "TEXT_ELEMENT")) = false ->
  deref s F = Some fF -> dom fF = None -> effectTag fF = Some PLACEMENT ->
  parent fF = Some R -> child fF = Some E -> sibling fF = None ->
  deref s E = Some fE -> parent fE = Some F -> sibling fE = None ->
  placed (fibers s) lo hi E e n ->
  nodes e <= fuel ->
  commitWork (S fuel) (Some F) s = Some (emit (attach_log e c0 n) s).
Proof.
  intros HR HdR HtR HF HdF HtF HpF HcF HsF HE HpE HsE Hplaced Hfuel.
  inversion Hplaced as [r f tag attrs cs n' refs Hf Hty Hok Hd Htag Hch Hb Hpar Hforest];
    subst.
  assert (f = fE) as -> by (unfold deref in HE; congruence).
  rewrite nodes_unfold in Hfuel. destruct fuel as [|fuel]; [lia|].
  pose proof (deref_lt _ _ _ HF) as HltF.
  assert (dom_parent (S (length (fibers s))) s (Some F) = Some fR) as HdomF.
  { cbn [dom_parent mbind option_bind]. rewrite HF. cbn [mbind option_bind].
    rewrite HdF, HpF. destruct (length (fibers s)) as [|m] eqn:Hl; [lia|].
    by apply (dom_parent_at m s R fR c0). }
  destruct (commitWork_placed_both (fibers s) lo hi) as [_ Hq].
  specialize (Hq refs cs (S n) Hforest fuel (emit [AppendChild c0 n] s) (child fE) E fE n
                eq_refl Hch Hpar Hf Hd).
  assert (commitWork (S fuel) (Some E) s =
            Some (emit (attach_log (Elem (THost tag) (mkProps attrs (Some cs))) c0 n) s))
    as Hchild.
  { rewrite commitWork_unfold, HE. cbn [mbind option_bind]. rewrite HpE, HdomF.
    cbn [mbind option_bind]. rewrite HdR. cbn [mbind option_bind].
    rewrite Htag, Hd. unfold appendChild. rewrite HtR. cbn [mbind option_bind].
    rewrite Hq; [|intros Hne; rewrite Hty; by eapply tag_ok_children|lia].
    cbn [mbind option_bind]. rewrite HsE, commitWork_None.
    by rewrite emit_emit, attach_log_unfold. }
  rewrite commitWork_unfold, HF. cbn [mbind option_bind]. rewrite HpF.
  rewrite (dom_parent_at _ s R fR c0) by done. cbn [mbind option_bind].
  rewrite HdR. cbn [mbind option_bind].
  rewrite HtF, HdF. cbn [mbind option_bind]. rewrite HcF, Hchild.
  cbn [mbind option_bind]. by rewrite HsF, commitWork_None.
Qed.

(** *** The whole first render of a component *)

Lemma component_first_render (components : nat -> option Props -> Comp) (c : nat)
    (p : Props) (c0 : nat) (s : State) (e : Child) :
  first_return (components c (Some p)) (length (hookStore s)) = e ->
  simple_element e -> at_rest s false e ->
  exists s',
    (forall deadline, 2 + nodes e <= units_of deadline ->
       workLoop components deadline (render (Elem (TFun c) p) c0 s) = Some s') /\
    domLog s' = domLog s ++ setup_log e (domCount s) ++ attach_log e c0 (domCount s) /\
    domCount s' = domCount s + nodes e.
Proof.
  intros Hret He (Hn0 & Hw0 & Hc0 & Hpo).
  set (elt := Elem (TFun c) p).
  destruct (render_fields elt c0 s) as (Hfib & Hnext & Hwip & Hdel & Hcur & Hlog0).
  assert (domCount (render elt c0 s) = domCount s) as Hcount0 by done.
  assert (hookStore (render elt c0 s) = hookStore s) as Hhooks0 by done.
  set (s0 := render elt c0 s) in *. set (R := length (fibers s)) in *.
  set (f0 := mkFiber None (Some (mkProps [] (Some [elt]))) (Some c0) None None None
               (currentRoot s) None None) in *.
  assert (deref s0 R = Some f0) as Hf0.
  { unfold deref. rewrite Hfib. by rewrite lookup_app_r, Nat.sub_diag by done. }
  assert (length (fibers s0) = S R) as Hlen0.
  { rewrite Hfib, length_app. simpl. lia. }
  assert (is_Some (dom f0)) as Hd0 by by eexists.
  (* the unit of work on the root *)
  destruct (root_unit_single components s0 R f0 elt [] Hf0 eq_refl eq_refl Hd0 Hc0
              eq_refl eq_refl Hdel) as (s1 & Hperf1 & Hinv1).
  destruct (reconcile_inv_single _ _ _ _ _ _ Hinv1)
    as (Hl1 & Hnew1 & Hwip1 & Hframe1 & Hdel1 & Hglob1).
  destruct Hglob1 as (Hhs1 & _ & Hcur1 & Hwr1 & _ & _ & Hcnt1 & Hlog1).
  rewrite Hlen0 in *.
  set (s1' := set_nextUnitOfWork (Some (S R)) s1).
  assert (run_units components 1 s0 = Some s1') as Hrun1.
  { cbn [run_units]. by rewrite Hnext, Hperf1. }
  (* the unit of work on the component *)
  set (fF := placement_fiber R elt) in *.
  assert (child_truthy (first_return (components c (props fF)) (length (hookStore s1')))
          = true) as Htruthy.
  { change (props fF) with (Some p). change (hookStore s1') with (hookStore s1).
    rewrite Hhs1, Hhooks0, Hret. by destruct He. }
  destruct (component_unit_first components s1' (S R) fF c [] Hnew1 eq_refl eq_refl Hdel1
              Htruthy)
    as (s2 & hs & Hperf2 & Hl2 & Hnew2 & HF2 & Hframe2 & Hdel2 & Hlog2 & Hcnt2 & Hwr2 & Hcur2).
  change (props fF) with (Some p) in Hnew2. change (hookStore s1') with (hookStore s1) in Hnew2.
  rewrite Hhs1, Hhooks0, Hret in Hnew2.
  change (fibers s1') with (fibers s1) in *. rewrite Hl1 in *.
  change (domLog s1') with (domLog s1) in *. change (domCount s1') with (domCount s1) in *.
  change (wipRoot s1') with (wipRoot s1) in *.
  set (s2' := set_nextUnitOfWork (Some (S (S R))) s2).
  assert (run_units components 1 s1' = Some s2') as Hrun2.
  { cbn [run_units]. change (nextUnitOfWork s1') with (Some (S R)). cbn beta iota.
    by rewrite Hperf2. }
  (* the units of work on what it returned *)
  assert (deref s2 R = Some (with_child (Some (S R)) f0)) as HR2.
  { unfold deref in *. rewrite Hframe2; [done|lia|lia]. }
  assert (parents_older s2') as Hpo2.
  { intros r f q Hf Hq. change (deref s2' r) with (deref s2 r) in Hf.
    destruct (decide (r = S (S R))) as [->|HnE].
    { rewrite Hnew2 in Hf. simplify_eq. simpl in Hq. simplify_eq. lia. }
    destruct (decide (r = S R)) as [->|HnF].
    { rewrite HF2 in Hf. simplify_eq. simpl in Hq. simplify_eq. lia. }
    destruct (decide (r = R)) as [->|HnR].
    { rewrite HR2 in Hf. simplify_eq. }
    pose proof (deref_lt _ _ _ Hf) as Hr. rewrite Hl2 in Hr.
    unfold deref in Hf. rewrite Hframe2 in Hf by lia. rewrite Hframe1 in Hf by lia.
    rewrite Hfib, lookup_app_l in Hf by (fold R; lia).
    by apply (Hpo r f q). }
  assert (climbs s2' (S (S R)) None) as Hclimb.
  { apply (climbs_parent s2' (S (S R)) (placement_fiber (S R) e) (S R)); try done.
    apply (climbs_parent s2' (S R) (with_child (Some (S (S R))) (with_hooks (Some hs) fF)) R);
      try done.
    by apply (climbs_root s2' R (with_child (Some (S R)) f0)). }
  assert (fresh s2' 0 false (S (S R)) e (S R)) as Hfresh.
  { exists (placement_fiber (S R) e). by split_and!. }
  destruct (simple_element_made components e He s2' 0 (S (S R)) (S R) None [] eq_refl Hfresh
              (Nat.lt_0_succ _) Hclimb Hdel2 Hpo2) as (s3 & Hrun3 & Hnext3 & Hmade).
  destruct Hmade as [Hl3 Hframe3 (fE & fE' & HfE & HfE' & HsE & HpE & _) _ _ Hroots3 _
                       Hcnt3 Hlog3 Hplaced].
  change (fibers s2') with (fibers s2) in *. change (domCount s2') with (domCount s2) in *.
  change (domLog s2') with (domLog s2) in *. rewrite Hl2 in *.
  assert (fE = placement_fiber (S R) e) as ->.
  { change (deref s2' (S (S R))) with (deref s2 (S (S R))) in HfE. congruence. }
  (* the commit *)
  assert (deref s3 R = Some (with_child (Some (S R)) f0)) as HR3.
  { unfold deref in *. rewrite Hframe3; [done|lia|lia]. }
  assert (deref s3 (S R) = Some (with_child (Some (S (S R))) (with_hooks (Some hs) fF)))
    as HF3.
  { unfold deref in *. rewrite Hframe3; [done|lia|lia]. }
  assert (wipRoot s3 = Some R) as Hwr3.
  { destruct Hroots3 as (_ & Hw & _). rewrite Hw. change (wipRoot s2') with (wipRoot s2).
    by rewrite Hwr2, Hwr1. }
  pose proof (nodes_positive e He) as Hpos.
  destruct (length (fibers s3)) as [|fuel] eqn:Hfuel; [lia|].
  assert (commitWork (S fuel) (Some (S R)) s3 =
            Some (emit (attach_log e c0 (domCount s2)) s3)) as Hcommit.
  { apply (commitWork_under_component s3 (S (S (S R))) (S fuel) R (S R) (S (S R)) c0
             (domCount s2) (with_child (Some (S R)) f0)
             (with_child (Some (S (S R))) (with_hooks (Some hs) fF)) fE' e fuel);
      try done. lia. }
  exists (set_wipRoot None (set_currentRoot (Some R)
            (emit (attach_log e c0 (domCount s2)) s3))).
  split_and!.
  - intros deadline Hk. unfold workLoop. rewrite work_run_units.
    rewrite (run_units_more components (1 + (1 + nodes e)) (units_of deadline) s0 s3);
      [|rewrite run_units_add, Hrun1; cbn [mbind option_bind];
        by rewrite run_units_add, Hrun2|done|done].
    cbn [mbind option_bind].
    rewrite (proj2 (ready_to_commit_true s3)); [|split; [done|rewrite Hwr3; by eexists]].
    unfold commitRoot. rewrite Hwr3. cbn [mbind option_bind].
    rewrite HR3. cbn [mbind option_bind]. rewrite Hfuel.
    change (child (with_child (Some (S R)) f0)) with (Some (S R)).
    rewrite Hcommit. cbn [mbind option_bind]. simpl. by rewrite Hwr3.
  - simpl. rewrite Hlog3, Hlog2, Hlog1, Hlog0, Hcnt2, Hcnt1, Hcount0.
    by rewrite <- app_assoc.
  - simpl. by rewrite Hcnt3, Hcnt2, Hcnt1, Hcount0.
Qed.


